(** * Domain-aware routing: the DNS policy engine

    A shallow embedding of the policy store ([trie.py]), the configuration
    line handlers and merge ([config.py]), the DNS forwarder and its
    response cache ([forward.py]), the live rule edits
    ([policy_service.py]) and the policy engine's two callbacks
    ([policy_engine.py]), followed by the properties proved about them.

    Conventions of the embedding.
    - Python [str] is [string]: a sequence of code points below 256.
    - A rule (a Python [dict] with string keys) is a [gmap string Value].
    - [TrieNode.children] is a [gmap string TrieNode].
    - A raised exception is the [Raise] constructor of [result]; the state
      reached when it was raised is returned next to it.
    - Objects that several holders can reach (the root nodes of the trie)
      live in a heap indexed by addresses; see [DomainTrie]. *)

From Stdlib Require Import ZArith Ascii String Lia.
From stdpp Require Import base option list strings gmap.

#[local] Open Scope Z_scope.
#[local] Open Scope nat_scope.

(* ===================================================================== *)
(** ** Results and exceptions *)
(* ===================================================================== *)

Inductive exn :=
| ValueError (msg : string)
| KeyError (msg : string)
| TypeError (msg : string)
| IndexError (msg : string)
| AttributeError (msg : string)
| Exception (msg : string).

Inductive result (A : Type) :=
| Ok (a : A)
| Raise (e : exn).
Arguments Ok {A} a.
Arguments Raise {A} e.

Definition is_ok {A} (r : result A) : bool :=
  match r with Ok _ => true | Raise _ => false end.

(* ===================================================================== *)
(** ** Python string methods used by the sources *)
(* ===================================================================== *)

Module PyStr.

Definition code (c : ascii) : nat := nat_of_ascii c.

(** [s.split(sep)] for a one-character separator: always at least one
    piece, empty pieces are kept. *)
Fixpoint split (sep : ascii) (s : string) : list string :=
  match s with
  | EmptyString => [EmptyString]
  | String a s' =>
      if Ascii.eqb a sep then EmptyString :: split sep s'
      else match split sep s' with
           | h :: t => String a h :: t
           | [] => [String a EmptyString]
           end
  end.

Fixpoint contains_char (c : ascii) (s : string) : bool :=
  match s with
  | EmptyString => false
  | String a s' => Ascii.eqb a c || contains_char c s'
  end.

Fixpoint forallb_str (p : ascii -> bool) (s : string) : bool :=
  match s with
  | EmptyString => true
  | String a s' => p a && forallb_str p s'
  end.

Definition is_empty (s : string) : bool :=
  match s with EmptyString => true | _ => false end.

(** [s.startswith(p)] *)
Fixpoint startswith (p s : string) : bool :=
  match p, s with
  | EmptyString, _ => true
  | String a p', String b s' => Ascii.eqb a b && startswith p' s'
  | String _ _, EmptyString => false
  end.

Fixpoint last_char (s : string) : option ascii :=
  match s with
  | EmptyString => None
  | String a EmptyString => Some a
  | String _ s' => last_char s'
  end.

(** [s.endswith(c)] for a one-character suffix. *)
Definition endswith_char (c : ascii) (s : string) : bool :=
  match last_char s with Some a => Ascii.eqb a c | None => false end.

(** [s[:-1]] *)
Fixpoint drop_last (s : string) : string :=
  match s with
  | EmptyString => EmptyString
  | String a EmptyString => EmptyString
  | String a s' => String a (drop_last s')
  end.

(** [s[n:]] *)
Fixpoint drop (n : nat) (s : string) : string :=
  match n, s with
  | O, _ => s
  | S n', String _ s' => drop n' s'
  | S _, EmptyString => EmptyString
  end.

(** [s[:n]] *)
Fixpoint take (n : nat) (s : string) : string :=
  match n, s with
  | O, _ => EmptyString
  | S n', String a s' => String a (take n' s')
  | S _, EmptyString => EmptyString
  end.

(** [s[i:j]] for [0 <= i], [0 <= j] *)
Definition slice (i j : nat) (s : string) : string := take (j - i) (drop i s).

(** Position of the first [c] in [s], counted from [pos]. *)
Fixpoint find_char_aux (c : ascii) (s : string) (pos : nat) : option nat :=
  match s with
  | EmptyString => None
  | String a s' => if Ascii.eqb a c then Some pos else find_char_aux c s' (S pos)
  end.

(** [s.find(c, start)]: [None] stands for Python's [-1]. *)
Definition find_from (c : ascii) (start : nat) (s : string) : option nat :=
  find_char_aux c (drop start s) start.

Definition is_ascii_digit (c : ascii) : bool :=
  (48 <=? code c) && (code c <=? 57).

Definition is_ascii_alpha (c : ascii) : bool :=
  ((65 <=? code c) && (code c <=? 90)) || ((97 <=? code c) && (code c <=? 122)).

(** [c.isalnum()] on the code points below 256. *)
Definition isalnum (c : ascii) : bool :=
  let n := code c in
  is_ascii_digit c || is_ascii_alpha c
  || (n =? 170) || (n =? 178) || (n =? 179) || (n =? 181) || (n =? 185)
  || (n =? 186) || (n =? 188) || (n =? 189) || (n =? 190)
  || ((192 <=? n) && (n <=? 214)) || ((216 <=? n) && (n <=? 246))
  || ((248 <=? n) && (n <=? 255)).

(** [c.isspace()] on the code points below 256. *)
Definition isspace (c : ascii) : bool :=
  let n := code c in
  ((9 <=? n) && (n <=? 13)) || ((28 <=? n) && (n <=? 32))
  || (n =? 133) || (n =? 160).

Fixpoint lstrip (s : string) : string :=
  match s with
  | EmptyString => EmptyString
  | String a s' => if isspace a then lstrip s' else s
  end.

Fixpoint rstrip (s : string) : string :=
  match s with
  | EmptyString => EmptyString
  | String a s' =>
      match rstrip s' with
      | EmptyString => if isspace a then EmptyString else String a EmptyString
      | r => String a r
      end
  end.

(** [s.strip()] *)
Definition strip (s : string) : string := rstrip (lstrip s).

End PyStr.

(* ===================================================================== *)
(** ** Rules *)
(* ===================================================================== *)

(** The values a rule dictionary holds: strings ([route], [address],
    [domain], [block]), the [dbr] flag, and the [upstream] list. *)
Inductive Value :=
| VStr (s : string)
| VBool (b : bool)
| VList (l : list string).

#[global] Instance Value_eq_dec : EqDecision Value.
Proof. solve_decision. Defined.

Abbreviation Rule := (gmap string Value).

(** [key in rule] *)
Definition has_key (k : string) (r : Rule) : bool := bool_decide (is_Some (r !! k)).

(** [new |= rule]: the keys of [rule] win. *)
Definition dict_update (new rule : Rule) : Rule := rule ∪ new.

(** Truth value of an [Optional[Dict]]: [None] and the empty dict are false. *)
Definition truthy (r : option Rule) : bool :=
  match r with
  | Some d => negb (bool_decide (d = ∅))
  | None => false
  end.

(** Directive exclusivity of one rule. *)
Definition exclusive (r : Rule) : bool := negb (has_key "block" r && has_key "route" r).

(** Closes an equation between closed terms by evaluating both sides. *)
Ltac by_eval :=
  lazymatch goal with
  | |- @eq ?T _ ?r => vm_cast_no_check (@eq_refl T r)
  end.

(* ===================================================================== *)
(** ** Stateful code that can raise *)
(* ===================================================================== *)

(** A method that mutates a state of type [S] and returns an [A] or raises:
    the state it leaves behind is returned in both cases. *)
Definition M (S A : Type) : Type := S -> result A * S.

#[global] Instance M_ret {S} : MRet (M S) := fun A a s => (Ok a, s).

#[global] Instance M_bind {S} : MBind (M S) := fun A B f m s =>
  match m s with
  | (Ok a, s') => f a s'
  | (Raise e, s') => (Raise e, s')
  end.

Definition raise {S A} (e : exn) : M S A := fun s => (Raise e, s).
Definition get_state {S} : M S S := fun s => (Ok s, s).
Definition put_state {S} (s : S) : M S unit := fun _ => (Ok tt, s).

(** [try: m except Exception: handler] *)
Definition try_except {S A} (m : M S A) (handler : exn -> M S A) : M S A := fun s =>
  match m s with
  | (Ok a, s') => (Ok a, s')
  | (Raise e, s') => handler e s'
  end.

(** Run [m] on a component of the state. *)
Definition zoom {S T A} (proj : S -> T) (upd : S -> T -> S) (m : M T A) : M S A := fun s =>
  match m (proj s) with
  | (r, t') => (r, upd s t')
  end.

(** [for x in xs: body(x)] *)
Fixpoint for_each {S X} (xs : list X) (body : X -> M S unit) : M S unit :=
  match xs with
  | [] => mret tt
  | x :: rest => body x ≫= fun _ => for_each rest body
  end.

(* ===================================================================== *)
(** ** The policy store: [trie.py] *)
(* ===================================================================== *)

Module Trie.

(** [class TrieNode]: [children] keyed by one label, optional [rule]. *)
#[warnings="-register-all"]
Inductive TrieNode := mkNode {
  rule : option Rule;
  children : gmap string TrieNode
}.

(** [TrieNode()] *)
Definition TrieNode_new : TrieNode := mkNode None ∅.

#[global] Instance TrieNode_inhabited : Inhabited TrieNode := populate TrieNode_new.

(** [domain.split(".")[::-1]] *)
Definition labels_of (domain : string) : list string :=
  rev (PyStr.split "."%char domain).

(** *** Paths inside one tree *)

(** The node reached from [cur] along [labels], when every label is a
    child of the node before it. *)
Fixpoint node_at (labels : list string) (cur : TrieNode) : option TrieNode :=
  match labels with
  | [] => Some cur
  | l :: ls =>
      match children cur !! l with
      | Some child => node_at ls child
      | None => None
      end
  end.

(** The [rule] attribute of the node at [labels] ([None] also when there
    is no such node). *)
Definition rule_at (labels : list string) (cur : TrieNode) : option Rule :=
  match node_at labels cur with
  | Some n => rule n
  | None => None
  end.

(** The loop shared by [insert] and [cow_insert]: create the missing
    nodes along [labels], then [cur.rule = rule] at the end. *)
Fixpoint insert_path (labels : list string) (r : Rule) (cur : TrieNode) : TrieNode :=
  match labels with
  | [] => mkNode (Some r) (children cur)
  | l :: ls =>
      let child := default TrieNode_new (children cur !! l) in
      mkNode (rule cur) (<[l := insert_path ls r child]> (children cur))
  end.

(** [node.rule = r] for the node at [labels]; a tree without that node is
    left as it is. *)
Fixpoint set_rule (labels : list string) (r : option Rule) (cur : TrieNode) : TrieNode :=
  match labels with
  | [] => mkNode r (children cur)
  | l :: ls =>
      match children cur !! l with
      | Some child => mkNode (rule cur) (<[l := set_rule ls r child]> (children cur))
      | None => cur
      end
  end.

(** *** [DomainTrie.lookup] *)

(** The local variables of the loop; [ls_path] is the path of [current]
    from the root, by which the returned node is identified. *)
Record LookupState := mkLookupState {
  ls_current : TrieNode;
  ls_path : list string;
  ls_matched : option Rule;
  ls_wildcard : option Rule;
  ls_exact_len : nat
}.

(** [for i, label in enumerate(labels)], started at index [i]. *)
Fixpoint lookup_loop (labels : list string) (i : nat) (st : LookupState) : LookupState :=
  match labels with
  | [] => st
  | label :: rest =>
      let current := ls_current st in
      (* if "*" in current.children: wildcard_rule = current.children["*"].rule *)
      let wildcard_rule :=
        match children current !! "*" with
        | Some w => rule w
        | None => ls_wildcard st
        end in
      match children current !! label with
      | Some child =>
          if truthy (rule child)
          then lookup_loop rest (S i)
                 (mkLookupState child (ls_path st ++ [label]) (rule child)
                    wildcard_rule (S i))
          else lookup_loop rest (S i)
                 (mkLookupState child (ls_path st ++ [label]) (ls_matched st)
                    wildcard_rule (ls_exact_len st))
      | None =>
          (* break *)
          mkLookupState current (ls_path st) (ls_matched st) wildcard_rule
            (ls_exact_len st)
      end
  end.

Definition lookup_init (root : TrieNode) : LookupState :=
  mkLookupState root [] None None 0.

(** The three [return]s after the loop: the rule, and the path of
    [current]. *)
Definition lookup_return (depth : nat) (st : LookupState) : Rule * list string :=
  if truthy (ls_matched st) && bool_decide (depth = ls_exact_len st)
  then (default ∅ (ls_matched st), ls_path st)
  else if truthy (ls_wildcard st)
  then (default ∅ (ls_wildcard st), ls_path st)
  else (∅, ls_path st).

(** [lookup] on one tree. *)
Definition lookup_node (root : TrieNode) (domain : string)
  : result (Rule * list string) :=
  if PyStr.is_empty domain then Raise (ValueError "Domain is empty.")
  else
    let labels := labels_of domain in
    Ok (lookup_return (length labels) (lookup_loop labels 0 (lookup_init root))).

(** [_domain_exits] on one tree. *)
Definition domain_exists_node (root : TrieNode) (domain : string) : bool :=
  match node_at (labels_of domain) root with
  | Some cur => bool_decide (is_Some (rule cur))
  | None => false
  end.

(** *** The [DomainTrie] object *)

(** The arguments of one call of the update callback:
    [(domain, old_action, new_action, old_value, new_value)]. *)
Record UpdateCall := mkUpdateCall {
  uc_domain : Value;
  uc_old_action : string;
  uc_new_action : string;
  uc_old_value : Value;
  uc_new_value : Value
}.

(** A root [TrieNode], with everything below it, is one heap object:
    [copy.deepcopy] shares nothing between the copy and the original, so
    two roots never have a node in common.  [heap] holds every root object
    that was ever published, at the address given by its position;
    [root] is the pointer [self.root].  An object only a coroutine's local
    variable refers to is not in the heap yet. *)
Record DomainTrie := mkDomainTrie {
  heap : list TrieNode;
  root : nat;
  update_cb : option (UpdateCall -> result unit)
}.

(** [DomainTrie()] *)
Definition DomainTrie_new : DomainTrie := mkDomainTrie [TrieNode_new] 0 None.

(** The object [self.root] points to. *)
Definition root_node (t : DomainTrie) : TrieNode := heap t !!! root t.

(** A [TrieNode] reference: the root object it belongs to and its path. *)
Record NodeRef := mkNodeRef {
  ref_addr : nat;
  ref_path : list string
}.

(** [copy.deepcopy]: the same value, owned by nobody else. *)
Definition deepcopy {A} (a : A) : A := a.

(** [self.root = new_root]: the new object is published at a fresh
    address, every older object stays where it is. *)
Definition swap_root (t : DomainTrie) (new_root : TrieNode) : DomainTrie :=
  mkDomainTrie (heap t ++ [new_root]) (length (heap t)) (update_cb t).

(** [node.rule = r], in place in the object the node belongs to. *)
Definition assign_rule (t : DomainTrie) (node : NodeRef) (r : option Rule) : DomainTrie :=
  mkDomainTrie
    (<[ref_addr node := set_rule (ref_path node) r (heap t !!! ref_addr node)]> (heap t))
    (root t) (update_cb t).

Definition add_update_cb (t : DomainTrie) (cb : UpdateCall -> result unit) : DomainTrie :=
  mkDomainTrie (heap t) (root t) (Some cb).

Definition lookup (t : DomainTrie) (domain : string) : result (Rule * NodeRef) :=
  match lookup_node (root_node t) domain with
  | Ok (r, path) => Ok (r, mkNodeRef (root t) path)
  | Raise e => Raise e
  end.

(** [insert]: the start-up insertion, in place in the live root. *)
Definition insert (t : DomainTrie) (domain : string) (r : Rule) : DomainTrie :=
  mkDomainTrie
    (<[root t := insert_path (labels_of domain) r (root_node t)]> (heap t))
    (root t) (update_cb t).

Definition _domain_exits (t : DomainTrie) (domain : string) : bool :=
  domain_exists_node (root_node t) domain.

(** [purge_trie]: [self.root = TrieNode()] *)
Definition purge_trie (t : DomainTrie) : DomainTrie := swap_root t TrieNode_new.

(** *** [_cow_update] *)

(** [d[k]], raising [KeyError] for a missing key. *)
Definition getitem (k : string) (d : Rule) : result Value :=
  match d !! k with
  | Some v => Ok v
  | None => Raise (KeyError k)
  end.

(** What [_cow_update] decides before it touches the node: the callback
    call it makes, if any, and the merged rule. *)
Inductive Conflict := BlockToRoute | RouteToBlock | NoConflict.

Definition conflict_of (existing_rule rule : Rule) : Conflict :=
  if has_key "block" existing_rule && has_key "route" rule then BlockToRoute
  else if has_key "route" existing_rule && has_key "block" rule then RouteToBlock
  else NoConflict.

(** The arguments of [await self.update_cb(...)]; the subscripts raise
    [KeyError] when the key is missing. *)
Definition update_call (c : Conflict) (existing_rule rule : Rule)
  : option (result UpdateCall) :=
  match c with
  | BlockToRoute =>
      Some (match getitem "domain" existing_rule with
            | Raise e => Raise e
            | Ok domain =>
                match getitem "route" rule with
                | Raise e => Raise e
                | Ok new_value =>
                    Ok (mkUpdateCall domain "block" "route" (VStr "") new_value)
                end
            end)
  | RouteToBlock =>
      Some (match getitem "domain" existing_rule with
            | Raise e => Raise e
            | Ok domain =>
                match getitem "route" existing_rule with
                | Raise e => Raise e
                | Ok old_value =>
                    Ok (mkUpdateCall domain "route" "block" old_value (VStr ""))
                end
            end)
  | NoConflict => None
  end.

(** [new_rule] after the [del] of the branch taken and [new_rule |= rule]. *)
Definition merged_rule (existing_rule rule : Rule) : Rule :=
  let new_rule := deepcopy existing_rule in
  let new_rule :=
    match conflict_of existing_rule rule with
    | BlockToRoute => delete "block" new_rule
    | RouteToBlock => delete "route" new_rule
    | NoConflict => new_rule
    end in
  dict_update new_rule rule.

(** The part of [_cow_update] up to and including the awaited callback:
    the calls made, and whether an exception left the coroutine. *)
Definition run_update_cb (t : DomainTrie) (existing_rule rule : Rule)
  : result unit * list UpdateCall :=
  match update_cb t, update_call (conflict_of existing_rule rule) existing_rule rule with
  | Some cb, Some (Ok call) => (cb call, [call])
  | Some cb, Some (Raise e) => (Raise e, [])
  | _, _ => (Ok tt, [])
  end.

Definition _cow_update (t : DomainTrie) (existing_rule rule : Rule) (node : NodeRef)
  : result unit * DomainTrie * list UpdateCall :=
  match run_update_cb t existing_rule rule with
  | (Raise e, calls) => (Raise e, t, calls)
  | (Ok _, calls) =>
      (* async with self.lock: node.rule = new_rule *)
      (Ok tt, assign_rule t node (Some (merged_rule existing_rule rule)), calls)
  end.

(** *** [cow_insert] *)

Definition cow_insert (t : DomainTrie) (domain : string) (rule : Rule)
  : result unit * DomainTrie * list UpdateCall :=
  match lookup t domain with
  | Raise e => (Raise e, t, [])
  | Ok (existing_rule, node) =>
      (* if existing_rule and node: a TrieNode object is always true *)
      if truthy (Some existing_rule)
      then _cow_update t existing_rule rule node
      else
        let new_root := deepcopy (root_node t) in
        let new_root := insert_path (labels_of domain) rule new_root in
        (Ok tt, swap_root t new_root, [])
  end.

(** *** [cow_remove] *)

(** [set(cur.rule.keys()) - {"domain", "dbr"}] is empty. *)
Definition no_remaining_keys (r : Rule) : bool :=
  bool_decide (dom r ∖ ({["domain"; "dbr"]} : gset string) = ∅).

Definition cow_remove (t : DomainTrie) (domain : string) (directive : option string)
  : result bool * DomainTrie :=
  if negb (_domain_exits t domain)
  then (Raise (Exception (domain +:+ " is not found in the trie")), t)
  else
    let new_root := deepcopy (root_node t) in
    let labels := labels_of domain in
    match node_at labels new_root with
    | None => (Ok false, t)
    | Some cur =>
        match rule cur with
        | None => (Raise (Exception "rule is not supposed to be None"), t)
        | Some r =>
            match directive with
            | None =>
                (Ok true, swap_root t (set_rule labels None new_root))
            | Some d =>
                if has_key d r
                then
                  let r' := delete d r in
                  let new_rule := if no_remaining_keys r' then None else Some r' in
                  (Ok true, swap_root t (set_rule labels new_rule new_root))
                else (Ok false, t)
            end
        end
    end.

(** *** The precedence of section 4.1, stated on its own *)

(** The [rule] attributes of the ["*"] children seen along the traversed
    path, the one nearest to the root first. *)
Fixpoint star_rules (labels : list string) (cur : TrieNode) : list (option Rule) :=
  match labels with
  | [] => []
  | l :: ls =>
      match children cur !! "*" with Some w => [rule w] | None => [] end
      ++ match children cur !! l with Some c => star_rules ls c | None => [] end
  end.

Definition rule_or_empty (o : option (option Rule)) : Rule :=
  match o with
  | Some (Some w) => w
  | _ => ∅
  end.

(** The precedence as the specification words it: the rule stored at the
    full label path; otherwise the deepest wildcard rule seen; otherwise
    the empty rule. *)
Definition spec_precedence (root : TrieNode) (labels : list string) : Rule :=
  if truthy (rule_at labels root) then default ∅ (rule_at labels root)
  else rule_or_empty (last (List.filter truthy (star_rules labels root))).

(** The precedence [lookup] computes: the wildcard candidate is what the
    deepest ["*"] child seen holds, a rule or not. *)
Definition code_precedence (root : TrieNode) (labels : list string) : Rule :=
  if truthy (rule_at labels root) then default ∅ (rule_at labels root)
  else rule_or_empty (last (star_rules labels root)).

(** *** The shape of a mutation *)

(** The root pointer designates an allocated object. *)
Definition wf (t : DomainTrie) : Prop := root t < length (heap t).

(** A copy-on-write step: the root pointer moves to an object allocated
    by the step, and every object allocated before is what it was, so a
    reader that holds one of them sees no change. *)
Definition cow_step (t t' : DomainTrie) : Prop :=
  root t' = length (heap t)
  /\ length (heap t') = S (length (heap t))
  /\ forall a, a < length (heap t) -> heap t' !! a = heap t !! a.

(** An assignment in place: the root pointer and every other object stay,
    and in the live tree the rule at [path] becomes [r] while every other
    rule and every node stays. *)
Definition assign_step (path : list string) (r : Rule) (t t' : DomainTrie) : Prop :=
  root t' = root t
  /\ length (heap t') = length (heap t)
  /\ (forall a, a <> root t -> heap t' !! a = heap t !! a)
  /\ (forall p, rule_at p (root_node t') =
                 if decide (p = path) then Some r else rule_at p (root_node t))
  /\ (forall p, is_Some (node_at p (root_node t')) <-> is_Some (node_at p (root_node t))).

(** Every rule stored in a tree satisfies [P]. *)
Definition all_rules (P : Rule -> Prop) (n : TrieNode) : Prop :=
  forall labels r, rule_at labels n = Some r -> P r.

End Trie.

(* ===================================================================== *)
(** ** [ipaddress.ip_address] (Python standard library) *)
(* ===================================================================== *)

(** The sources call [ipaddress.ip_address(s)] only to see whether it
    raises [ValueError].  The recognisers below follow the library's
    [IPv4Address] and [IPv6Address] constructors for a [str] argument and
    return whether the constructor succeeds. *)
Module IpAddress.
Import PyStr.

(** [int(s, 10)] for a string of ASCII digits. *)
Fixpoint int10 (s : string) (acc : N) : N :=
  match s with
  | EmptyString => acc
  | String a s' => int10 s' (10 * acc + (N_of_ascii a - 48))%N
  end.

(** [_parse_octet] does not raise. *)
Definition parse_octet_ok (octet_str : string) : bool :=
  if is_empty octet_str then false
  else if negb (forallb_str is_ascii_digit octet_str) then false
  else if 3 <? String.length octet_str then false
  else if negb (String.eqb octet_str "0") && startswith "0" octet_str then false
  else (int10 octet_str 0 <=? 255)%N.

(** [IPv4Address._ip_int_from_string] does not raise. *)
Definition ipv4_from_string_ok (ip_str : string) : bool :=
  negb (is_empty ip_str)
  && (length (split "."%char ip_str) =? 4)
  && forallb parse_octet_ok (split "."%char ip_str).

(** [IPv4Address(address)] does not raise. *)
Definition IPv4Address_ok (address : string) : bool :=
  negb (contains_char "/"%char address) && ipv4_from_string_ok address.

Definition is_hex_digit (c : ascii) : bool :=
  is_ascii_digit c
  || ((65 <=? code c) && (code c <=? 70))
  || ((97 <=? code c) && (code c <=? 102)).

(** [_parse_hextet] does not raise ([int("", 16)] raises). *)
Definition parse_hextet_ok (hextet_str : string) : bool :=
  forallb_str is_hex_digit hextet_str
  && (String.length hextet_str <=? 4)
  && negb (is_empty hextet_str).

(** The indices [i] in [range(1, len(parts) - 1)] with [parts[i]] empty. *)
Definition inner_empty (parts : list string) : list nat :=
  filter (fun i => is_empty (nth i parts "x") = true) (seq 1 (length parts - 2)).

(** [IPv6Address._ip_int_from_string] does not raise.  An IPv4-style last
    part is replaced by two hextets, as the library does; their digits do
    not matter for validity, so ["0"] stands for both. *)
Definition ipv6_from_string_ok (ip_str : string) : bool :=
  if is_empty ip_str then false
  else
    let parts := split ":"%char ip_str in
    if length parts <? 3 then false
    else
      let last_part := List.last parts "" in
      let parts' :=
        if contains_char "."%char last_part
        then if IPv4Address_ok last_part
             then Some (removelast parts ++ ["0"; "0"])
             else None
        else Some parts in
      match parts' with
      | None => false
      | Some parts =>
          if 9 <? length parts then false
          else
            let n := length parts in
            let first_empty := is_empty (nth 0 parts "x") in
            let last_empty := is_empty (List.last parts "x") in
            match inner_empty parts with
            | _ :: _ :: _ => false
            | [skip_index] =>
                let parts_hi := skip_index in
                let parts_lo := n - skip_index - 1 in
                let parts_hi' := if first_empty then parts_hi - 1 else parts_hi in
                let parts_lo' := if last_empty then parts_lo - 1 else parts_lo in
                if first_empty && negb (parts_hi' =? 0) then false
                else if last_empty && negb (parts_lo' =? 0) then false
                else if 8 - (parts_hi' + parts_lo') <? 1 then false
                else forallb parse_hextet_ok (firstn parts_hi' parts)
                     && forallb parse_hextet_ok (skipn (n - parts_lo') parts)
            | [] =>
                if negb (n =? 8) then false
                else if first_empty then false
                else if last_empty then false
                else forallb parse_hextet_ok parts
            end
      end.

(** [IPv6Address(address)] does not raise: no ['/'], a well-formed scope
    id after ['%'] if there is one, and a well-formed address before. *)
Definition IPv6Address_ok (address : string) : bool :=
  negb (contains_char "/"%char address)
  && match find_from "%"%char 0 address with
     | None => ipv6_from_string_ok address
     | Some i =>
         let scope_id := drop (S i) address in
         negb (is_empty scope_id)
         && negb (contains_char "%"%char scope_id)
         && ipv6_from_string_ok (take i address)
     end.

(** [ipaddress.ip_address(address)] returns instead of raising
    [ValueError]. *)
Definition ip_address_ok (address : string) : bool :=
  IPv4Address_ok address || IPv6Address_ok address.

End IpAddress.

(* ===================================================================== *)
(** ** Start-up rules: [config.py] *)
(* ===================================================================== *)

(** [_parse_file] sorts the lines by directive and hands the text after
    ['='] of each line to the handler of its directive; the handlers and
    [_merge_rules] are embedded here. *)
Module Config.
Import PyStr.

Record ConfigManager := mkConfigManager {
  server_rule : list Rule;
  static_rule : list Rule;
  block_rule : list Rule;
  route_rule : list Rule;
  default_upstreams : list string;
  rules : list Rule            (* config["rules"] *)
}.

Definition ConfigManager_new : ConfigManager := mkConfigManager [] [] [] [] [] [].

(** The common start of the four handlers: the text between the first
    character and the second ['/'], stripped, and the stripped rest. *)
Definition split_value (value : string) : option (string * string) :=
  match find_from "/"%char 1 value with
  | None => None
  | Some second_slash =>
      Some (strip (slice 1 second_slash value), strip (drop (S second_slash) value))
  end.

Definition _parse_block_line (c : ConfigManager) (value : string) : result ConfigManager :=
  match split_value value with
  | None => Raise (ValueError "Missing '/'.")
  | Some (domain, _) =>
      if is_empty domain then Raise (ValueError "Empty domain in block directive.")
      else
        let rule : Rule :=
          {[ "domain" := VStr domain; "block" := VStr ""; "dbr" := VBool true ]} in
        Ok (mkConfigManager (server_rule c) (static_rule c) (block_rule c ++ [rule])
              (route_rule c) (default_upstreams c) (rules c))
  end.

Definition _parse_route_line (c : ConfigManager) (value : string) : result ConfigManager :=
  match split_value value with
  | None => Raise (ValueError "Wrong format, missing '/'.")
  | Some (domain, gw) =>
      if is_empty domain then Raise (ValueError "Empty domain in route directive.")
      else if is_empty gw then Raise (ValueError "Empty gateway in route directive.")
      else if IpAddress.ip_address_ok gw
      then
        let rule : Rule :=
          {[ "domain" := VStr domain; "route" := VStr gw; "dbr" := VBool true ]} in
        Ok (mkConfigManager (server_rule c) (static_rule c) (block_rule c)
              (route_rule c ++ [rule]) (default_upstreams c) (rules c))
      else Raise (ValueError "Invalid gateway in route directive.")
  end.

Definition _parse_address_line (c : ConfigManager) (value : string) : result ConfigManager :=
  match split_value value with
  | None => Raise (ValueError "Missing '/'.")
  | Some (domain, ip) =>
      if is_empty domain then Raise (ValueError "Empty domain in address directive.")
      else if is_empty ip then Raise (ValueError "Empty ip in address directive.")
      else if IpAddress.ip_address_ok ip
      then
        let rule : Rule := {[ "domain" := VStr domain; "address" := VStr ip ]} in
        Ok (mkConfigManager (server_rule c) (static_rule c ++ [rule]) (block_rule c)
              (route_rule c) (default_upstreams c) (rules c))
      else Raise (ValueError "Invalid static ip address.")
  end.

Definition _parse_domain_server (c : ConfigManager) (value : string) : result ConfigManager :=
  match split_value value with
  | None => Raise (ValueError "Empty domain in server directive.")
  | Some (domain, upstream) =>
      if is_empty domain then Raise (ValueError "Empty domain in server directive.")
      else if is_empty upstream then Raise (ValueError "Empty upstream in server directive.")
      else if IpAddress.ip_address_ok upstream
      then
        let rule : Rule := {[ "domain" := VStr domain; "upstream" := VList [upstream] ]} in
        Ok (mkConfigManager (server_rule c ++ [rule]) (static_rule c) (block_rule c)
              (route_rule c) (default_upstreams c) (rules c))
      else Raise (ValueError "Invalid upstream in server directive.")
  end.

(** The inner loop of [_merge_rules]: the first index whose rule has the
    same ["domain"]; [existing["domain"]] raises for a rule without it. *)
Fixpoint find_domain (domain : Value) (existing : list Rule) (i : nat)
  : result (option nat) :=
  match existing with
  | [] => Ok None
  | e :: rest =>
      match e !! "domain" with
      | None => Raise (KeyError "domain")
      | Some d =>
          if bool_decide (d = domain) then Ok (Some i)
          else find_domain domain rest (S i)
      end
  end.

(** One round of the outer loop: [config["rules"][index] |= rule] or
    [config["rules"].append(rule)]. *)
Definition merge_one (acc : list Rule) (rule : Rule) : result (list Rule) :=
  match rule !! "domain" with
  | None =>
      match acc with
      | [] => Ok (acc ++ [rule])
      | _ :: _ => Raise (KeyError "domain")
      end
  | Some domain =>
      match find_domain domain acc 0 with
      | Raise e => Raise e
      | Ok (Some index) => Ok (alter (fun e => dict_update e rule) index acc)
      | Ok None => Ok (acc ++ [rule])
      end
  end.

Fixpoint merge_all (acc : list Rule) (all_lists : list Rule) : result (list Rule) :=
  match all_lists with
  | [] => Ok acc
  | rule :: rest =>
      match merge_one acc rule with
      | Raise e => Raise e
      | Ok acc' => merge_all acc' rest
      end
  end.

(** *** The dicts the lists share with [config["rules"]]

    [config["rules"].append(rule)] puts into [config["rules"]] the very
    dict the parsed list holds, and [config["rules"][index] |= rule]
    updates the dict at [index] in place: a rule that was appended is,
    from then on, one dict seen from two lists, and what is merged into it
    later shows in the parsed list too.  The dicts of the four lists are
    new ones made by the line handlers, and [config["rules"]] holds none
    of them when the merge starts ([parse_file] runs it once, on a new
    manager, whose [config["rules"]] is empty). *)

(** Whether a round of the loop appends its rule. *)
Definition appended (acc : list Rule) (rule : Rule) : bool :=
  match rule !! "domain" with
  | None => match acc with [] => true | _ :: _ => false end
  | Some domain =>
      match find_domain domain acc 0 with
      | Ok None => true
      | _ => false
      end
  end.

(** For every rule of [all_lists], the index of [config["rules"]] at
    which it was appended, if it was. *)
Fixpoint merge_places (acc : list Rule) (all_lists : list Rule) : list (option nat) :=
  match all_lists with
  | [] => []
  | rule :: rest =>
      (if appended acc rule then Some (length acc) else None)
      :: match merge_one acc rule with
         | Ok acc' => merge_places acc' rest
         | Raise _ => []
         end
  end.

(** What a dict of a parsed list holds after the loop. *)
Definition shared_rule (merged : list Rule) (rule : Rule) (place : option nat) : Rule :=
  match place with
  | Some index => default rule (merged !! index)
  | None => rule
  end.

(** [_merge_rules] *)
Definition _merge_rules (c : ConfigManager) : result ConfigManager :=
  let all_lists := server_rule c ++ static_rule c ++ block_rule c ++ route_rule c in
  match merge_all (rules c) all_lists with
  | Raise e => Raise e
  | Ok merged =>
      let shared :=
        zip_with (shared_rule merged) all_lists (merge_places (rules c) all_lists) in
      let n1 := length (server_rule c) in
      let n2 := length (static_rule c) in
      let n3 := length (block_rule c) in
      Ok (mkConfigManager
            (firstn n1 shared)
            (firstn n2 (skipn n1 shared))
            (firstn n3 (skipn (n1 + n2) shared))
            (skipn (n1 + n2 + n3) shared)
            (default_upstreams c) merged)
  end.

(** [get_rules] *)
Definition get_rules (c : ConfigManager) : list Rule := rules c.

(** [get_static_records] *)
Definition get_static_records (c : ConfigManager) : list Rule := static_rule c.

(** What a merge is measured by: the ["domain"] entries of a list of
    rules, and a list [merged] that has, for every rule of [rules], a
    rule of the same domain with at least the keys of that rule. *)
Definition domains (rules : list Rule) : list (option Value) :=
  map (fun r : Rule => r !! "domain") rules.

Definition covers (rules merged : list Rule) : Prop :=
  forall r, r ∈ rules ->
    exists m, m ∈ merged /\ m !! "domain" = r !! "domain"
              /\ forall k, has_key k r = true -> has_key k m = true.

End Config.

(* ===================================================================== *)
(** ** DNS messages *)
(* ===================================================================== *)

(** What the sources read and write of a [dns.message.Message]. *)
Module Dns.

(** [dns.rdatatype] *)
Definition A : Z := 1%Z.
Definition AAAA : Z := 28%Z.

(** [dns.rcode] *)
Definition NOERROR : Z := 0%Z.
Definition SERVFAIL : Z := 2%Z.
Definition NXDOMAIN : Z := 3%Z.

Record Question := mkQuestion {
  q_name : string;          (* name.to_text() *)
  q_rdtype : Z
}.

Record RRset := mkRRset {
  rr_name : string;
  rr_rdtype : Z;
  rr_ttl : Z;
  rr_addresses : list string   (* rr.address of the records *)
}.

Record Message := mkMessage {
  id : Z;
  question : list Question;
  rcode : Z;
  answer : list RRset
}.

(** [dns.message.make_response(query)] *)
Definition make_response (query : Message) : Message :=
  mkMessage (id query) (question query) NOERROR [].

(** [dns.message.make_query(name, rdtype)] for a name the library takes:
    the question holds the absolute name; the random id is not modelled. *)
Definition make_query (name : string) (rdtype : Z) : Message :=
  mkMessage 0%Z
    [mkQuestion (if PyStr.endswith_char "."%char name then name else name +:+ ".") rdtype]
    NOERROR [].

Definition set_rcode (m : Message) (rc : Z) : Message :=
  mkMessage (id m) (question m) rc (answer m).

Definition set_id (m : Message) (i : Z) : Message :=
  mkMessage i (question m) (rcode m) (answer m).

Definition append_answer (m : Message) (rr : RRset) : Message :=
  mkMessage (id m) (question m) (rcode m) (answer m ++ [rr]).

(** *** What is left to the library

    Three calls of dnspython whose outcome is not computed here: a run is
    given them, the way it is given the answers of the upstreams.
    - [from_wire_to_wire m] is [dns.message.from_wire(m.to_wire())], the
      message as it comes back from its wire form: the rrsets of one
      owner, class and type have become one rrset with the smallest of
      their TTLs, and the records of an rrset may be in another order.
    - [query_of name rdtype] is [dns.message.make_query(name, rdtype)],
      which raises for a text that is no domain name (an empty label, a
      label of more than 63 octets, a bad escape, ...).
    - [rrset_of name ttl text] is
      [dns.rrset.from_text(name, ttl, "IN", "A", text)], which raises for
      a name or an address text it does not take. *)
Record Library := mkLibrary {
  from_wire_to_wire : Message -> Message;
  query_of : string -> Z -> result Message;
  rrset_of : string -> Z -> string -> result RRset
}.

End Dns.

(* ===================================================================== *)
(** ** The response cache *)
(* ===================================================================== *)

(** Modelled from the spec: the bounded TTL map of section 4.2, which the
    forwarder takes from [cachetools.TLRUCache]; that class is not part of
    the sources.  An entry is kept with the deadline [ttu(key, value, now)]
    computed when it was stored; an entry whose deadline has passed is not
    found any more; [entries] is in least-recently-used order, oldest first,
    and a key occurs in it once.  Time is an integer number of seconds. *)
Module Cache.

Definition Key : Type := string * Z.          (* (qname, qtype) *)
Definition CacheValue : Type := Dns.Message * Z.   (* (response, ttl) *)

Record Entry := mkEntry {
  e_key : Key;
  e_value : CacheValue;
  e_expires : Z
}.

Record TLRUCache := mkTLRUCache {
  maxsize : Z;
  ttu : Key -> CacheValue -> Z -> Z;
  entries : list Entry
}.

Definition TLRUCache_new (maxsize : Z) (ttu : Key -> CacheValue -> Z -> Z) : TLRUCache :=
  mkTLRUCache maxsize ttu [].

Definition with_entries (c : TLRUCache) (es : list Entry) : TLRUCache :=
  mkTLRUCache (maxsize c) (ttu c) es.

Definition key_eqb (k1 k2 : Key) : bool := bool_decide (k1 = k2).

(** The entry stored under [k], expired or not. *)
Fixpoint find_entry (k : Key) (es : list Entry) : option Entry :=
  match es with
  | [] => None
  | e :: rest => if key_eqb (e_key e) k then Some e else find_entry k rest
  end.

Definition remove_key (k : Key) (es : list Entry) : list Entry :=
  List.filter (fun e => negb (key_eqb (e_key e) k)) es.

Definition live (now : Z) (e : Entry) : bool := (now <? e_expires e)%Z.

(** [key in cache] *)
Definition contains (c : TLRUCache) (now : Z) (k : Key) : bool :=
  match find_entry k (entries c) with
  | Some e => live now e
  | None => false
  end.

(** [cache[key]]: an expired or absent key raises [KeyError]; a key that
    is found becomes the most recently used one. *)
Definition getitem (now : Z) (k : Key) : M TLRUCache CacheValue := fun c =>
  match find_entry k (entries c) with
  | Some e =>
      if live now e
      then (Ok (e_value e), with_entries c (remove_key k (entries c) ++ [e]))
      else (Raise (KeyError "expired"), c)
  | None => (Raise (KeyError "missing"), c)
  end.

(** [cache.get(key)]: [None] instead of [KeyError]. *)
Definition get (now : Z) (k : Key) : M TLRUCache (option CacheValue) := fun c =>
  if contains c now k
  then (v ← getitem now k; mret (Some v)) c
  else (Ok None, c).

(** What [cache.get(key)] returns at time [now]. *)
Definition peek (c : TLRUCache) (now : Z) (k : Key) : option CacheValue :=
  match find_entry k (entries c) with
  | Some e => if live now e then Some (e_value e) else None
  | None => None
  end.

(** [cache.expire(now)]: the entries whose deadline has passed go. *)
Definition expire (now : Z) (c : TLRUCache) : TLRUCache :=
  with_entries c (List.filter (live now) (entries c)).

(** [while currsize + 1 > maxsize: popitem()]: the least recently used
    entries go until there is room for one more. *)
Fixpoint evict (maxsize : Z) (es : list Entry) : list Entry :=
  match es with
  | [] => []
  | _ :: rest =>
      if (Z.of_nat (length es) + 1 >? maxsize)%Z then evict maxsize rest else es
  end.

(** [cache[key] = value] at time [now]. *)
Definition setitem (now : Z) (k : Key) (v : CacheValue) : M TLRUCache unit := fun c =>
  let expires := ttu c k v now in
  if negb (now <? expires)%Z then (Ok tt, c)       (* an expired item is skipped *)
  else
    let c1 := expire now c in
    if (1 >? maxsize c1)%Z then (Raise (ValueError "value too large"), c1)
    else
      let es :=
        match find_entry k (entries c1) with
        | Some _ => remove_key k (entries c1)
        | None => evict (maxsize c1) (entries c1)
        end in
      (Ok tt, with_entries c1 (es ++ [mkEntry k v expires])).

(** [del cache[key]]: the entry goes; [KeyError] when there was none, and
    also, after the removal, when the entry had expired. *)
Definition delitem (now : Z) (k : Key) : M TLRUCache unit := fun c =>
  match find_entry k (entries c) with
  | None => (Raise (KeyError "missing"), c)
  | Some e =>
      let c' := with_entries c (remove_key k (entries c)) in
      if live now e then (Ok tt, c') else (Raise (KeyError "expired"), c')
  end.

(** [cache.pop(key)] as [_invalidate_cache] uses it: the value, or
    [KeyError]. *)
Definition pop (now : Z) (k : Key) : M TLRUCache CacheValue := fun c =>
  if contains c now k
  then (v ← getitem now k; _ ← delitem now k; mret v) c
  else (Raise (KeyError "missing"), c).

(** The items an iteration over the cache walks through.  The iterator
    holds its own list of items, which deleting a key does not change;
    on reaching an item it yields the key if the item has neither been
    removed nor expired by then.  The order of the walk (by deadline in
    the library) plays no part in what follows. *)
Definition iter_items (c : TLRUCache) : list Key := map e_key (entries c).

End Cache.

(* ===================================================================== *)
(** ** The DNS forwarder: [forward.py] *)
(* ===================================================================== *)

Module Forward.
Import Dns Cache.

(** What one upstream does with a query: [dns.asyncquery.udp] returns a
    response, times out, or raises something else. *)
Inductive UdpOutcome :=
| Response (m : Message)
| TimeoutError
| UdpError.

(** The effects a handler has outside the forwarder object, in the
    order in which they happen. *)
Inductive Event :=
| SendTo (m : Message)                       (* transport.sendto(m.to_wire(), client_addr) *)
| UpstreamQuery (upstream : string)          (* dns.asyncquery.udp(query, upstream) *)
| ResponseCb (rule : Rule) (ips : list string)  (* await self.response_cb(rule, ips) *)
| UpdateCb (call : Trie.UpdateCall).         (* await self.update_cb(...) *)

Record DNSForwarder := mkDNSForwarder {
  upstreams : list string;
  cache_ttl : Z;
  cache : TLRUCache;
  domain_trie : Trie.DomainTrie;
  response_cb : option (Rule -> list string -> result unit)
}.

Definition MAX_DNS_TTL : Z := 2147483647%Z.

(** [_my_ttu] *)
Definition _my_ttu (_key : Key) (value : CacheValue) (now : Z) : Z := (now + value.2)%Z.

(** [DNSForwarder(listen_addr, listen_port, upstreams, cache_size, cache_ttl)] *)
Definition DNSForwarder_new (upstreams : list string) (cache_size cache_ttl : Z) : DNSForwarder :=
  mkDNSForwarder upstreams cache_ttl (TLRUCache_new cache_size _my_ttu)
    Trie.DomainTrie_new None.

Definition with_cache (fw : DNSForwarder) (c : TLRUCache) : DNSForwarder :=
  mkDNSForwarder (upstreams fw) (cache_ttl fw) c (domain_trie fw) (response_cb fw).

Definition with_trie (fw : DNSForwarder) (t : Trie.DomainTrie) : DNSForwarder :=
  mkDNSForwarder (upstreams fw) (cache_ttl fw) (cache fw) t (response_cb fw).

Definition add_response_cb (fw : DNSForwarder) (cb : Rule -> list string -> result unit)
  : DNSForwarder :=
  mkDNSForwarder (upstreams fw) (cache_ttl fw) (cache fw) (domain_trie fw) (Some cb).

(** A cache method run on [self.cache]. *)
Definition on_cache {A} (m : M TLRUCache A) : M DNSForwarder A := zoom cache with_cache m.

(** *** [_add_cache] *)

(** The loop over [response.answer] that starts from [ttl]. *)
Fixpoint derive_ttl (ttl : Z) (answer : list RRset) : Z :=
  match answer with
  | [] => ttl
  | rrset :: rest =>
      if bool_decide (rr_rdtype rrset = A)
      then if (rr_ttl rrset >? ttl)%Z
           then derive_ttl (rr_ttl rrset) rest
           else derive_ttl ttl rest
      else derive_ttl ttl rest
  end.

(** The TTLs of the A rrsets of an answer section, and the largest of a
    default and a list of TTLs. *)
Definition a_ttls (answer : list RRset) : list Z :=
  map rr_ttl (List.filter (fun rrset => bool_decide (rr_rdtype rrset = A)) answer).

Definition max_ttl (default_ttl : Z) (ttls : list Z) : Z := foldr Z.max default_ttl ttls.

(** What section 4.2 asks for when no TTL is given: the largest TTL among
    the A rrsets of the answer section, and the default cache TTL when the
    answer has none. *)
Definition spec_entry_ttl (default_ttl : Z) (response : Message) : Z :=
  match a_ttls (answer response) with
  | [] => default_ttl
  | t :: ts => foldr Z.max t ts
  end.

(** The [ttl] the entry is stored with; [-1] is the default argument. *)
Definition cache_entry_ttl (fw : DNSForwarder) (response : Message) (ttl : Z) : Z :=
  if bool_decide (ttl = (-1)%Z) then derive_ttl (cache_ttl fw) (answer response) else ttl.

Definition _add_cache (now : Z) (qname : string) (qtype : Z) (response : Message) (ttl : Z)
  : M DNSForwarder unit := fun fw =>
  if negb (bool_decide (rcode response = NOERROR)) then (Ok tt, fw)
  else
    let ttl := cache_entry_ttl fw response ttl in
    on_cache (setitem now (qname, qtype) (response, ttl)) fw.

(** *** [purge_cache] *)

(** What is left of a cache answer when only pinned entries are kept. *)
Definition keep_pinned (max_ttl : Z) (o : option CacheValue) : option CacheValue :=
  match o with
  | Some v => if bool_decide (v.2 = max_ttl) then Some v else None
  | None => None
  end.

(** The body of the loop for one item of the walk; the time does not
    move while the purge runs. *)
Definition purge_step (now : Z) (max_ttl : Z) (key : Key) : M TLRUCache unit := fun c =>
  if contains c now key
  then (val ← getitem now key;
        if negb (bool_decide (val.2 = max_ttl)) then delitem now key else mret tt) c
  else (Ok tt, c).      (* the iterator passes over the item *)

Definition purge_cache (now : Z) : M DNSForwarder unit := fun fw =>
  on_cache (fun c => for_each (iter_items c) (purge_step now MAX_DNS_TTL) c) fw.

(** *** Handling one request *)

Record World := mkWorld {
  forwarder : DNSForwarder;
  events : list Event
}.

Definition on_forwarder {A} (m : M DNSForwarder A) : M World A :=
  zoom forwarder (fun w fw => mkWorld fw (events w)) m.

Definition emit (e : Event) : M World unit := fun w =>
  (Ok tt, mkWorld (forwarder w) (events w ++ [e])).

Definition lift_result {S A} (r : result A) : M S A := fun s => (r, s).

(** [_extract_A_records] *)
Definition _extract_A_records (resp : Message) : list string :=
  concat (map rr_addresses
            (List.filter (fun rrset => bool_decide (rr_rdtype rrset = A)) (answer resp))).

(** [_extract_A_records_with_ttl] *)
Definition _extract_A_records_with_ttl (resp : Message) : list (string * Z) :=
  concat (map (fun rrset => map (fun address => (address, rr_ttl rrset)) (rr_addresses rrset))
            (List.filter (fun rrset => bool_decide (rr_rdtype rrset = A)) (answer resp))).

(** [make_NXDOMAIN_response] *)
Definition make_NXDOMAIN_response (query : Message) : Message :=
  set_rcode (make_response query) NXDOMAIN.

(** [_forward_query]: the first upstream that answers wins; when none
    does, a SERVFAIL response is made. *)
Fixpoint _forward_query (net : Message -> string -> UdpOutcome) (query : Message)
    (upstreams : list string) : M World Message :=
  match upstreams with
  | [] => mret (set_rcode (make_response query) SERVFAIL)
  | upstream :: rest =>
      _ ← emit (UpstreamQuery upstream);
      match net query upstream with
      | Response r => mret r
      | TimeoutError | UdpError => _forward_query net query rest
      end
  end.

Fixpoint chars (s : string) : list string :=
  match s with
  | EmptyString => []
  | String a s' => String a EmptyString :: chars s'
  end.

(** What [for upstream in upstreams] walks through for the value of
    [rule.get("upstream", self.upstreams)]. *)
Definition upstreams_of (fw : DNSForwarder) (rule : Rule) : result (list string) :=
  match rule !! "upstream" with
  | None => Ok (upstreams fw)
  | Some (VList l) => Ok l
  | Some (VStr s) => Ok (chars s)
  | Some (VBool _) => Raise (TypeError "'bool' object is not iterable")
  end.

(** [qname] without its trailing dot. *)
Definition canonical_name (qname : string) : string :=
  if PyStr.endswith_char "."%char qname then PyStr.drop_last qname else qname.

(** The second half of [handle_request], from the choice of the upstreams
    on: forward, cache, call the policy engine, answer. *)
Definition forward_and_enforce (net : Message -> string -> UdpOutcome) (now' : Z)
    (query : Message) (qname : string) (qtype : Z) (rule : Rule) : M World unit :=
  w ← get_state;
  upstream ← lift_result (upstreams_of (forwarder w) rule);
  resp ← _forward_query net query upstream;
  _ ← on_forwarder (_add_cache now' qname qtype resp (-1)%Z);
  _ ← (if has_key "dbr" rule
       then
         let ips := _extract_A_records resp in
         match response_cb (forwarder w) with
         | Some cb => _ ← emit (ResponseCb rule ips); lift_result (cb rule ips)
         | None => raise (Exception "No policy engine registered")
         end
       else mret tt);
  if negb (has_key "block" rule) then emit (SendTo resp) else mret tt.

(** [handle_request].  [data] is what [dns.message.from_wire] makes of the
    datagram; [now] is the time of the cache lookup and [now'] the time
    at which the upstream's response is stored.  A cached response is not
    sent as it is stored but as it comes back from its wire form. *)
Definition handle_request (lib : Library) (net : Message -> string -> UdpOutcome)
    (now now' : Z) (data : result Message) : M World unit :=
  query ← lift_result data;
  let query_id := id query in
  q0 ← match question query with
       | q :: _ => mret q
       | [] => raise (IndexError "list index out of range")
       end;
  let qname := canonical_name (q_name q0) in
  let qtype := q_rdtype q0 in
  w ← get_state;
  found ← lift_result (Trie.lookup (domain_trie (forwarder w)) qname);
  let rule := found.1 in
  if bool_decide (qtype = AAAA)
  then emit (SendTo (make_response query))
  else
    cached_resp ← on_forwarder (on_cache (get now (qname, qtype)));
    answered ← match cached_resp with
               | Some cached =>
                   let resp := set_id (from_wire_to_wire lib cached.1) query_id in
                   if negb (has_key "block" rule)
                   then _ ← emit (SendTo resp); mret true
                   else mret false
               | None => mret false
               end;
    if answered : bool then mret tt
    else
      _ ← (if has_key "block" rule
           then emit (SendTo (make_NXDOMAIN_response query))
           else mret tt);
      forward_and_enforce net now' query qname qtype rule.

(** Runs [handle_request] up to the test of the query type, for a query
    whose first question is given by [Hq] and whose [lookup] by [Hl]. *)
Ltac start_request Hq Hl :=
  unfold handle_request; unfold mbind at 1, M_bind at 1, lift_result at 1;
  rewrite Hq; unfold mbind at 1, M_bind at 1; cbn [mret M_ret];
  unfold mbind at 1, M_bind at 1, get_state at 1;
  rewrite Hl; unfold mbind at 1, M_bind at 1, lift_result at 1; cbn [fst].

(** The messages sent to the client, in order. *)
Definition sent (es : list Event) : list Message :=
  omap (fun e => match e with SendTo m => Some m | _ => None end) es.

(** A computation that sends nothing to the client. *)
Definition quiet {A} (m : M World A) : Prop :=
  forall w, sent (events (m w).2) = sent (events w).

(** *** Called from outside *)

(** [build_domain_trie] *)
Fixpoint build_domain_trie (rules : list Rule) : M DNSForwarder unit :=
  match rules with
  | [] => mret tt
  | rule :: rest =>
      domain ← lift_result (Trie.getitem "domain" rule);
      match domain with
      | VStr d =>
          fw ← get_state;
          _ ← put_state (with_trie fw (Trie.insert (domain_trie fw) d rule));
          build_domain_trie rest
      | _ => raise (AttributeError "split")
      end
  end.

(** What [build_domain_trie] makes of a tree: a rule names its domain by
    a string under ["domain"], and the rules are inserted in order. *)
Definition has_str_domain (rule : Rule) : bool :=
  match rule !! "domain" with Some (VStr _) => true | _ => false end.

Definition domain_of (rule : Rule) : string :=
  match rule !! "domain" with Some (VStr d) => d | _ => EmptyString end.

Definition inserted (rules : list Rule) (n : Trie.TrieNode) : Trie.TrieNode :=
  foldl (fun n rule => Trie.insert_path (Trie.labels_of (domain_of rule)) rule n) n rules.

(** The body of the loop of [add_static_cache].  The query is made of
    the domain and the rrset of the address text by the library, and
    either call can raise. *)
Definition add_one_static (lib : Library) (now : Z) (static : Rule)
  : M DNSForwarder unit :=
  match static !! "domain" with
  | Some (VStr domain) =>
      if PyStr.is_empty domain then raise (ValueError "")
      else
        query ← lift_result (query_of lib domain A);
        let resp := make_response query in
        address ← lift_result (Trie.getitem "address" static);
        match address with
        | VStr a =>
            rrset ← lift_result (rrset_of lib (domain +:+ ".") 3600%Z a);
            _add_cache now domain A (append_answer resp rrset) MAX_DNS_TTL
        | _ => raise (Exception "dns.exception.SyntaxError")
        end
  | Some _ => raise (TypeError "domain")
  | None => raise (ValueError "")
  end.

(** [add_static_cache]: whatever is raised ends the loop and is logged. *)
Definition add_static_cache (lib : Library) (now : Z) (statics : list Rule)
  : M DNSForwarder unit :=
  try_except (for_each statics (add_one_static lib now)) (fun _ => mret tt).

End Forward.

(* ===================================================================== *)
(** ** Live rule edits: [policy_service.py] *)
(* ===================================================================== *)

Module PolicyService.
Import PyStr Forward.

(** [_is_valid_ip] *)
Definition _is_valid_ip (ip : string) : bool := IpAddress.ip_address_ok ip.

(** The three checks of one label in [_is_valid_domain]. *)
Definition valid_label (label : string) : bool :=
  negb (is_empty label || (63 <? String.length label))
  && forallb_str (fun c => isalnum c || Ascii.eqb c "-"%char) label
  && negb (startswith "-" label || endswith_char "-"%char label).

(** [_is_valid_domain] *)
Definition _is_valid_domain (domain : string) : bool :=
  if 253 <? String.length domain then false
  else
    let domain := if startswith "*." domain then drop 2 domain else domain in
    forallb valid_label (split "."%char domain).

(** [_validate_rule_params] *)
Definition _validate_rule_params (directive domain value : string) : bool :=
  if is_empty domain || negb (_is_valid_domain domain) then false
  else if negb (bool_decide (directive ∈ ["block"; "route"; "server"; "address"])) then false
  else if String.eqb directive "block" then true
  else _is_valid_ip value.

(** [_create_rule_dict], for a [value] that is a string. *)
Definition _create_rule_dict (directive domain value : string) : Rule :=
  let rule : Rule := {[ "domain" := VStr domain ]} in
  if String.eqb directive "block"
  then <["dbr" := VBool true]> (<["block" := VStr ""]> rule)
  else if String.eqb directive "route"
  then <["dbr" := VBool true]> (<["route" := VStr value]> rule)
  else if String.eqb directive "server"
  then <["upstream" := VList [value]]> rule
  else if String.eqb directive "address"
  then <["address" := VStr value]> rule
  else rule.

(** A trie method run on [self.forwarder.domain_trie]; the calls of the
    update callback are recorded as events. *)
Definition run_cow_insert (domain : string) (rule : Rule) : M World unit := fun w =>
  match Trie.cow_insert (domain_trie (forwarder w)) domain rule with
  | (r, t', calls) =>
      (r, mkWorld (with_trie (forwarder w) t') (events w ++ map UpdateCb calls))
  end.

Definition run_cow_remove (domain : string) (directive : option string) : M World bool :=
  fun w =>
  match Trie.cow_remove (domain_trie (forwarder w)) domain directive with
  | (r, t') => (r, mkWorld (with_trie (forwarder w) t') (events w))
  end.

(** [add_rule] *)
Definition add_rule (lib : Dns.Library) (now : Z) (directive domain value : string)
  : M World bool :=
  if negb (_validate_rule_params directive domain value) then mret false
  else
    let rule := _create_rule_dict directive domain value in
    _ ← run_cow_insert domain rule;
    _ ← (if has_key "address" rule
         then on_forwarder (add_static_cache lib now [rule])
         else mret tt);
    mret true.

(** [_invalidate_cache] *)
Definition _invalidate_cache (now : Z) (domain : string) : M DNSForwarder bool :=
  try_except (_ ← on_cache (Cache.pop now (domain, Dns.A)); mret true)
             (fun _ => mret false).

(** [remove_rule].  [_invalidate_cache] is an ordinary method, so
    [await self._invalidate_cache(domain)] raises [TypeError] once the
    method has returned; the [except] clause answers [False]. *)
Definition remove_rule (now : Z) (domain : string) (directive : option string)
  : M World bool :=
  try_except
    (found ← run_cow_remove domain directive;
     _ ← (if found : bool
          then _ ← on_forwarder (_invalidate_cache now domain);
               raise (TypeError "object bool can't be used in 'await' expression")
          else mret tt);
     mret found)
    (fun _ => mret false).

(** [purge] (the debugging print left out) *)
Definition purge (now : Z) : M World bool :=
  try_except
    (w ← get_state;
     _ ← put_state (mkWorld (with_trie (forwarder w) (Trie.purge_trie (domain_trie (forwarder w))))
                      (events w));
     _ ← on_forwarder (purge_cache now);
     mret true)
    (fun _ => mret false).

(** [batch_build] *)
Definition batch_build (rules : list Rule) : M World bool :=
  try_except
    (w ← get_state;
     _ ← put_state (mkWorld (with_trie (forwarder w) (Trie.purge_trie (domain_trie (forwarder w))))
                      (events w));
     _ ← on_forwarder (build_domain_trie rules);
     mret true)
    (fun _ => mret false).

End PolicyService.

(* ===================================================================== *)
(** ** The policy engine's callbacks: [policy_engine.py] *)
(* ===================================================================== *)

Module PolicyEngine.
Import Dns Cache Forward.

(** [sub in s] for two strings. *)
Fixpoint contains (sub s : string) : bool :=
  PyStr.startswith sub s
  || match s with
     | EmptyString => false
     | String _ s' => contains sub s'
     end.

(** One entry of the [commands] list handed to [AsyncNBApiClient.batch]. *)
Record BatchCommand := mkBatchCommand {
  bc_ips : list string;
  bc_action : string;
  bc_type : string
}.

(** The requests the engine sends to the controller through
    [AsyncNBApiClient]. *)
Inductive NbCall :=
| NbRoute (nexthop : Value) (ips : list string)     (* route(nexthop, ips) *)
| NbBlock (ips : list string)                        (* block(ips) *)
| NbBatch (commands : list BatchCommand).            (* batch(commands) *)

(** [self.nb_api_client]: [None] until [_start_nb_api_client] has run;
    a request returns the controller's answer or raises. *)
Definition NbClient : Type := NbCall -> result unit.

(** [__on_dns_policy], the callback registered with [add_response_cb]:
    whether it raises, and the requests it sends.  What a request
    answers or raises is logged and goes no further. *)
Definition __on_dns_policy (nb_api_client : option NbClient) (rule : Rule)
    (ips : list string) : result unit * list NbCall :=
  match nb_api_client with
  | None => (Raise (Exception "NB Api client is None"), [])
  | Some _ =>
      if has_key "route" rule
      then match Trie.getitem "route" rule with
           | Ok nexthop => (Ok tt, [NbRoute nexthop ips])
           | Raise _ => (Ok tt, [])
           end
      else if has_key "block" rule then (Ok tt, [NbBlock ips])
      else (Ok tt, [])
  end.

(** [__on_rule_udpate], the callback registered with [add_update_cb]: the
    requests it sends; it reads the cache through [get], takes the
    addresses from the cached response as it comes back from its wire
    form, and raises nothing, every exception being logged inside it.  A
    domain that is no string is the key of no cache entry. *)
Definition __on_rule_udpate (lib : Library) (nb_api_client : option NbClient)
    (now : Z) (call : Trie.UpdateCall) : M DNSForwarder (list NbCall) := fun fw =>
  match Trie.uc_domain call with
  | VStr domain =>
      match on_cache (get now (domain, A)) fw with
      | (Ok (Some cached), fw') =>
          match nb_api_client with
          | None => (Ok [], fw')
          | Some _ =>
              let resp := from_wire_to_wire lib cached.1 in
              let ips := _extract_A_records resp in
              if String.eqb "block" (Trie.uc_old_action call)
                 && String.eqb "route" (Trie.uc_new_action call)
              then (Ok [NbRoute (Trie.uc_new_value call) ips], fw')
              else if contains "route" (Trie.uc_old_action call)
                      && contains "block" (Trie.uc_new_action call)
              then (Ok [NbBatch [mkBatchCommand ips "block" "flow";
                                 mkBatchCommand ips "remove" "route"]], fw')
              else (Ok [], fw')
          end
      | (_, fw') => (Ok [], fw')
      end
  | _ => (Ok [], fw)
  end.

End PolicyEngine.

(* ===================================================================== *)
(** ** Concrete runs *)
(* ===================================================================== *)

(** Rules and states that single out particular paths of the code; the
    rules are the ones the REST handler and the configuration handlers
    build. *)
Module Scenario.
Import Trie.

(** *** The library in the runs below

    One way the library can behave, given in full for the inputs of the
    runs: non-empty domain names whose labels are made of letters, digits,
    [-], [_] and [*], and address texts without blanks. *)

(** A record read back from the wire joins the rrset of its owner and
    type when the section has one, which takes the smaller of the two
    TTLs and no record twice; otherwise it opens a new rrset. *)
Fixpoint add_record (name : string) (rdtype ttl : Z) (address : string)
    (section : list Dns.RRset) : list Dns.RRset :=
  match section with
  | [] => [Dns.mkRRset name rdtype ttl [address]]
  | rrset :: rest =>
      if bool_decide (Dns.rr_name rrset = name)
         && bool_decide (Dns.rr_rdtype rrset = rdtype)
      then Dns.mkRRset name rdtype (Z.min (Dns.rr_ttl rrset) ttl)
             (if bool_decide (address ∈ Dns.rr_addresses rrset)
              then Dns.rr_addresses rrset
              else Dns.rr_addresses rrset ++ [address]) :: rest
      else rrset :: add_record name rdtype ttl address rest
  end.

Definition add_rrset (section : list Dns.RRset) (rrset : Dns.RRset) : list Dns.RRset :=
  foldl (fun section address =>
           add_record (Dns.rr_name rrset) (Dns.rr_rdtype rrset) (Dns.rr_ttl rrset)
             address section)
    section (Dns.rr_addresses rrset).

(** [dns.message.from_wire(m.to_wire())] when the records of every rrset
    are written in the order they are in (the library draws the order at
    random). *)
Definition reparse (m : Dns.Message) : Dns.Message :=
  Dns.mkMessage (Dns.id m) (Dns.question m) (Dns.rcode m)
    (foldl add_rrset [] (Dns.answer m)).

(** A name the library takes: no empty label and no label of more than
    63 characters; one trailing dot is the root. *)
Definition name_ok (name : string) : bool :=
  forallb (fun label =>
             negb (PyStr.is_empty label) && (String.length label <=? 63)%nat)
    (PyStr.split "."%char
       (if PyStr.endswith_char "."%char name then PyStr.drop_last name else name)).

Definition plain_library : Dns.Library :=
  Dns.mkLibrary
    reparse
    (fun name rdtype =>
       if name_ok name then Ok (Dns.make_query name rdtype)
       else Raise (Exception "dns.name.EmptyLabel"))
    (fun name ttl text =>
       if name_ok name && IpAddress.ipv4_from_string_ok text
       then Ok (Dns.mkRRset name Dns.A ttl [text])
       else Raise (Exception "dns.exception.SyntaxError")).

Definition route_com : Rule := PolicyService._create_rule_dict "route" "*.com" "10.0.0.1".
Definition block_example_wild : Rule :=
  PolicyService._create_rule_dict "block" "*.example.com" "".
Definition block_example : Rule := PolicyService._create_rule_dict "block" "example.com" "".

(** The rules of [test/test_trie.py], inserted at start-up. *)
Definition action (a : string) (extra : list (string * Value)) : Rule :=
  list_to_map (("action", VStr a) :: extra).

Definition test_trie : DomainTrie :=
  foldl (fun t '(domain, rule) => insert t domain rule) DomainTrie_new
    [("example.com", action "block" []);
     ("*.example.com", action "route" [("gw", VStr "192.168.1.1")]);
     ("api.example.com", action "route" [("port", VStr "8080")]);
     ("google.com", action "route" [("upstreams", VList ["8.8.8.8"; "8.8.4.4"])]);
     ("test.org", action "block" []);
     ("sub.partial.com", action "block" []);
     ("*.multi.level.com", action "block" [("level", VStr "third")]);
     ("*.level.com", action "block" [("level", VStr "second")])].

(** The rule [lookup] returns, or [None] when it raises. *)
Definition looked_up (t : DomainTrie) (domain : string) : option Rule :=
  match lookup t domain with
  | Ok (r, _) => Some r
  | Raise _ => None
  end.

(** The trie part of a state. *)
Definition after_insert (t : DomainTrie) (domain : string) (rule : Rule) : DomainTrie :=
  (cow_insert t domain rule).1.2.

Definition after_remove (t : DomainTrie) (domain : string) (directive : option string)
  : DomainTrie :=
  (cow_remove t domain directive).2.

(** [cow_insert("*.example.com", block)], [cow_insert("*.com", route)],
    then [cow_remove("*.example.com")]: the ["*"] node under
    [example.com] stays in the trie, without a rule. *)
Definition two_wildcards : DomainTrie :=
  after_insert (after_insert DomainTrie_new "*.example.com" block_example_wild)
    "*.com" route_com.

Definition removed_wildcard : DomainTrie :=
  after_remove two_wildcards "*.example.com" None.

(** A trie that holds the rule for ["*.com"] only. *)
Definition only_com : DomainTrie := after_insert DomainTrie_new "*.com" route_com.

(** A second rule for ["*.com"], with another next hop. *)
Definition route_com_2 : Rule := PolicyService._create_rule_dict "route" "*.com" "10.0.0.2".

(** The configuration lines [block=/x.com/] and [route=/x.com/10.0.0.1],
    merged and loaded into a new forwarder. *)
Definition conflicting_config : result Config.ConfigManager :=
  match Config._parse_block_line Config.ConfigManager_new "/x.com/" with
  | Raise e => Raise e
  | Ok c =>
      match Config._parse_route_line c "/x.com/10.0.0.1" with
      | Raise e => Raise e
      | Ok c => Config._merge_rules c
      end
  end.

Definition loaded_forwarder : result unit * Forward.DNSForwarder :=
  match conflicting_config with
  | Raise e => (Raise e, Forward.DNSForwarder_new ["8.8.8.8"] 10000 900)
  | Ok c =>
      Forward.build_domain_trie (Config.get_rules c)
        (Forward.DNSForwarder_new ["8.8.8.8"] 10000 900)
  end.

Definition x_com_rule : Rule :=
  {[ "domain" := VStr "x.com"; "block" := VStr ""; "dbr" := VBool true;
     "route" := VStr "10.0.0.1" ]}.

(** A forwarder with the defaults of [DNSForwarder.__init__]
    ([cache_size=10000], [cache_ttl=900]). *)
Definition default_forwarder : Forward.DNSForwarder :=
  Forward.DNSForwarder_new ["8.8.8.8"] 10000 900.

(** A NOERROR response whose answer section has two A rrsets, with TTLs
    60 and 300. *)
Definition two_rrsets : Dns.Message :=
  Dns.mkMessage 7 [Dns.mkQuestion "example.com." Dns.A] Dns.NOERROR
    [Dns.mkRRset "example.com." Dns.A 60 ["93.184.216.34"];
     Dns.mkRRset "example.com." Dns.A 300 ["93.184.216.35"]].

(** A forwarder whose rule for ["ads.example.com"] is a block rule and
    whose cache holds an answer for that name; a query for it; upstreams
    that answer. *)
Definition block_ads : Rule := PolicyService._create_rule_dict "block" "ads.example.com" "".

Definition ads_query : Dns.Message :=
  Dns.mkMessage 42 [Dns.mkQuestion "ads.example.com." Dns.A] Dns.NOERROR [].

Definition ads_answer : Dns.Message :=
  Dns.mkMessage 9 [Dns.mkQuestion "ads.example.com." Dns.A] Dns.NOERROR
    [Dns.mkRRset "ads.example.com." Dns.A 120 ["203.0.113.7"]].

Definition ads_forwarder : Forward.DNSForwarder :=
  let fw := Forward.with_trie default_forwarder
              (Trie.insert Trie.DomainTrie_new "ads.example.com" block_ads) in
  let fw := Forward.add_response_cb fw (fun _ _ => Ok tt) in
  (Forward._add_cache 0 "ads.example.com" Dns.A ads_answer (-1) fw).2.

Definition ads_world : Forward.World := Forward.mkWorld ads_forwarder [].

Definition answering_net (_ : Dns.Message) (_ : string) : Forward.UdpOutcome :=
  Forward.Response ads_answer.

Definition failing_net (_ : Dns.Message) (_ : string) : Forward.UdpOutcome :=
  Forward.TimeoutError.

(** A cache with one pinned entry, stored by [add_static_cache] for an
    [address] rule, and one entry stored for an upstream's answer. *)
Definition router_static : Rule :=
  PolicyService._create_rule_dict "address" "router.my" "192.168.1.1".

Definition mixed_cache_forwarder : Forward.DNSForwarder :=
  let fw := (Forward.add_static_cache plain_library 0 [router_static]
               default_forwarder).2 in
  (Forward._add_cache 5 "example.com" Dns.A two_rrsets (-1) fw).2.

(** Upstreams of which ["8.8.8.8"] times out and every other answers. *)
Definition second_answers (_ : Dns.Message) (upstream : string) : Forward.UdpOutcome :=
  if String.eqb upstream "8.8.8.8" then Forward.TimeoutError
  else Forward.Response ads_answer.

(** An AAAA query; an A query for a name without a rule; an A query for
    a name with a cached answer. *)
Definition aaaa_query : Dns.Message :=
  Dns.mkMessage 43 [Dns.mkQuestion "ads.example.com." Dns.AAAA] Dns.NOERROR [].

Definition other_query : Dns.Message :=
  Dns.mkMessage 44 [Dns.mkQuestion "www.example.org." Dns.A] Dns.NOERROR [].

Definition example_query : Dns.Message :=
  Dns.mkMessage 46 [Dns.mkQuestion "example.com." Dns.A] Dns.NOERROR [].

Definition example_answer : Dns.Message :=
  Dns.mkMessage 7 [Dns.mkQuestion "example.com." Dns.A] Dns.NOERROR
    [Dns.mkRRset "example.com." Dns.A 300 ["93.184.216.34"]].

Definition cached_forwarder : Forward.DNSForwarder :=
  (Forward._add_cache 0 "example.com" Dns.A example_answer (-1) default_forwarder).2.

(** A forwarder with a route rule for ["x.com"] and no policy engine
    registered; a query for that name. *)
Definition route_x : Rule := PolicyService._create_rule_dict "route" "x.com" "10.0.0.1".

Definition routed_forwarder : Forward.DNSForwarder :=
  Forward.with_trie default_forwarder (Trie.insert Trie.DomainTrie_new "x.com" route_x).

Definition x_query : Dns.Message :=
  Dns.mkMessage 45 [Dns.mkQuestion "x.com." Dns.A] Dns.NOERROR [].

(** The static record of the configuration line [address=/printer.my/::1],
    which [_parse_address_line] accepts. *)
Definition printer_static : Rule :=
  {[ "domain" := VStr "printer.my"; "address" := VStr "::1" ]}.

Definition nas_static : Rule :=
  PolicyService._create_rule_dict "address" "nas.my" "192.168.1.2".

(** What the handlers make of the lines [server=/x.com/1.1.1.3],
    [address=/router.my/192.168.1.1], [block=/x.com/], [block=/*.ads.net/]
    and [route=/x.com/10.0.0.1], before the merge. *)
Definition parsed_config : Config.ConfigManager :=
  Config.mkConfigManager
    [ {[ "domain" := VStr "x.com"; "upstream" := VList ["1.1.1.3"] ]} ]
    [ {[ "domain" := VStr "router.my"; "address" := VStr "192.168.1.1" ]} ]
    [ {[ "domain" := VStr "x.com"; "block" := VStr ""; "dbr" := VBool true ]};
      {[ "domain" := VStr "*.ads.net"; "block" := VStr ""; "dbr" := VBool true ]} ]
    [ {[ "domain" := VStr "x.com"; "route" := VStr "10.0.0.1"; "dbr" := VBool true ]} ]
    ["8.8.8.8"] [].

(** The forwarder with the route rule for ["x.com"], with the policy
    engine's callback registered and a controller that refuses every
    request. *)
Definition refusing_controller : PolicyEngine.NbClient :=
  fun _ => Raise (Exception "connection refused").

Definition engine_forwarder : Forward.DNSForwarder :=
  Forward.add_response_cb routed_forwarder
    (fun rule ips => (PolicyEngine.__on_dns_policy (Some refusing_controller) rule ips).1).

End Scenario.

(* ===================================================================== *)
(** * Properties *)
(* ===================================================================== *)

(** ** Paths, insertion and assignment inside one tree *)

Module TrieFacts.
Import Trie.

Lemma truthy_Some (o : option Rule) :
  truthy o = true -> exists r, o = Some r /\ r <> ∅.
Proof.
  destruct o as [r|]; simpl; [|discriminate].
  intros H. exists r. split; [reflexivity|].
  apply negb_true_iff, bool_decide_eq_false in H. exact H.
Qed.

Lemma truthy_nonempty (r : Rule) : r <> ∅ -> truthy (Some r) = true.
Proof.
  intros H. simpl. apply negb_true_iff, bool_decide_eq_false. exact H.
Qed.

Lemma rule_at_nil n : rule_at [] n = rule n.
Proof. reflexivity. Qed.

Lemma rule_at_cons l ls n :
  rule_at (l :: ls) n =
  match children n !! l with Some c => rule_at ls c | None => None end.
Proof. unfold rule_at. simpl. destruct (children n !! l); reflexivity. Qed.

Lemma rule_at_new p : rule_at p TrieNode_new = None.
Proof. destruct p as [|l ls]; [reflexivity|]. rewrite rule_at_cons. reflexivity. Qed.

Lemma node_at_app p q n :
  node_at (p ++ q) n = node_at p n ≫= node_at q.
Proof.
  revert n. induction p as [|l p IH]; intros n; simpl; [reflexivity|].
  destruct (children n !! l); [apply IH | reflexivity].
Qed.

(** After [insert_path] the rule sits at the end of the path and every
    other rule is where it was. *)
Lemma rule_at_insert_path l r p n :
  rule_at p (insert_path l r n) = if decide (p = l) then Some r else rule_at p n.
Proof.
  revert p n. induction l as [|a l IH]; intros p n.
  - destruct p as [|x p].
    + reflexivity.
    + rewrite decide_False by discriminate. rewrite !rule_at_cons. reflexivity.
  - destruct p as [|x p].
    + rewrite decide_False by discriminate. reflexivity.
    + rewrite !rule_at_cons. cbn [insert_path children].
      destruct (decide (x = a)) as [->|Hxa].
      * rewrite lookup_insert_eq, IH.
        destruct (decide (p = l)) as [->|Hpl].
        -- rewrite decide_True by reflexivity. reflexivity.
        -- rewrite decide_False by congruence.
           destruct (children n !! a); simpl; [reflexivity | apply rule_at_new].
      * rewrite lookup_insert_ne by congruence.
        rewrite decide_False by congruence. reflexivity.
Qed.

Lemma node_at_insert_path_is_Some l r n : is_Some (node_at l (insert_path l r n)).
Proof.
  revert n. induction l as [|a l IH]; intros n; simpl; [eauto|].
  rewrite lookup_insert_eq. apply IH.
Qed.

(** [set_rule] changes the rule of the node at the path, when there is
    one, and nothing else. *)
Lemma rule_at_set_rule l r p n :
  is_Some (node_at l n) ->
  rule_at p (set_rule l r n) = if decide (p = l) then r else rule_at p n.
Proof.
  revert p n. induction l as [|a l IH]; intros p n Hn.
  - destruct p as [|x p].
    + reflexivity.
    + rewrite decide_False by discriminate. rewrite !rule_at_cons. reflexivity.
  - cbn [node_at] in Hn. cbn [set_rule].
    destruct (children n !! a) as [c|] eqn:Hc; [|by destruct Hn].
    destruct p as [|x p].
    + rewrite decide_False by discriminate. reflexivity.
    + rewrite !rule_at_cons. cbn [children].
      destruct (decide (x = a)) as [->|Hxa].
      * rewrite lookup_insert_eq, IH, Hc by exact Hn.
        destruct (decide (p = l)) as [->|Hpl].
        -- rewrite decide_True by reflexivity. reflexivity.
        -- rewrite decide_False by congruence. reflexivity.
      * rewrite lookup_insert_ne by congruence.
        rewrite decide_False by congruence. reflexivity.
Qed.

Lemma set_rule_absent l r n : node_at l n = None -> set_rule l r n = n.
Proof.
  revert n. induction l as [|a l IH]; intros n Hn; simpl in *; [discriminate|].
  destruct (children n !! a) as [c|] eqn:Hc; [|reflexivity].
  rewrite (IH c Hn). destruct n as [rn cn]; simpl in *. f_equal.
  apply insert_id. exact Hc.
Qed.

(** The nodes of the tree are the same before and after [set_rule]. *)
Lemma node_at_set_rule_is_Some l r p n :
  is_Some (node_at p (set_rule l r n)) <-> is_Some (node_at p n).
Proof.
  revert l n. induction p as [|x p IH]; intros l n; simpl.
  - split; eauto.
  - destruct l as [|a l]; simpl; [reflexivity|].
    destruct (children n !! a) as [c|] eqn:Hc; simpl; [|reflexivity].
    destruct (decide (x = a)) as [->|Hxa].
    + rewrite lookup_insert_eq, Hc. apply IH.
    + rewrite lookup_insert_ne by congruence. reflexivity.
Qed.

(** *** The loop of [lookup] *)

(** The wildcard candidate after the loop is what the deepest ["*"]
    child seen holds. *)
Lemma lookup_loop_wildcard labels i st :
  ls_wildcard (lookup_loop labels i st) =
  default (ls_wildcard st) (last (star_rules labels (ls_current st))).
Proof.
  revert i st. induction labels as [|l ls IH]; intros i st; [reflexivity|].
  cbn [lookup_loop star_rules].
  destruct (children (ls_current st) !! l) as [child|] eqn:Hc.
  - rewrite last_app.
    destruct (truthy (rule child)); rewrite IH; cbn [ls_wildcard ls_current];
      destruct (last (star_rules ls child)); try reflexivity;
      destruct (children (ls_current st) !! "*"); reflexivity.
  - rewrite app_nil_r. cbn [ls_wildcard].
    destruct (children (ls_current st) !! "*"); reflexivity.
Qed.

(** A full traversal that ends on a node with a rule records that rule
    and the full depth. *)
Lemma lookup_loop_exact labels i st :
  labels <> [] ->
  truthy (rule_at labels (ls_current st)) = true ->
  ls_matched (lookup_loop labels i st) = rule_at labels (ls_current st)
  /\ ls_exact_len (lookup_loop labels i st) = i + length labels
  /\ ls_path (lookup_loop labels i st) = ls_path st ++ labels.
Proof.
  revert i st. induction labels as [|l ls IH]; intros i st Hne Ht; [congruence|].
  rewrite rule_at_cons in Ht. rewrite rule_at_cons. cbn [lookup_loop].
  destruct (children (ls_current st) !! l) as [child|] eqn:Hc; [|discriminate].
  destruct ls as [|l' ls'].
  - change (rule_at [] child) with (rule child) in *. rewrite Ht. cbn. repeat split; lia.
  - destruct (truthy (rule child));
      match goal with
      | |- context [lookup_loop _ _ ?s] =>
          destruct (IH (S i) s ltac:(discriminate) Ht) as (Hm & He & Hp)
      end;
      rewrite Hm, He, Hp; cbn [ls_current ls_path length];
      rewrite <- app_assoc; repeat split; lia.
Qed.

(** The recorded depth reaches the full depth only in that case. *)
Lemma lookup_loop_exact_len labels i st :
  ls_exact_len st <= i ->
  ls_exact_len (lookup_loop labels i st) <= i + length labels
  /\ (labels <> [] ->
      ls_exact_len (lookup_loop labels i st) = i + length labels ->
      truthy (rule_at labels (ls_current st)) = true).
Proof.
  revert i st. induction labels as [|l ls IH]; intros i st Hle.
  - cbn. split; [lia|congruence].
  - cbn [lookup_loop length]. rewrite rule_at_cons.
    destruct (children (ls_current st) !! l) as [child|] eqn:Hc.
    + destruct (truthy (rule child)) eqn:Htc.
      * destruct (IH (S i) (mkLookupState child (ls_path st ++ [l]) (rule child)
                    (match children (ls_current st) !! "*" with
                     | Some w => rule w | None => ls_wildcard st end) (S i)))
          as [Hb He]; [cbn; lia|].
        split; [lia|]. intros _ Heq.
        destruct ls as [|l' ls']; [exact Htc|].
        apply He; [discriminate|]. cbn [length] in *. lia.
      * destruct (IH (S i) (mkLookupState child (ls_path st ++ [l]) (ls_matched st)
                    (match children (ls_current st) !! "*" with
                     | Some w => rule w | None => ls_wildcard st end)
                    (ls_exact_len st)))
          as [Hb He]; [cbn; lia|].
        split; [lia|]. intros _ Heq.
        destruct ls as [|l' ls'].
        -- cbn in Heq. lia.
        -- apply He; [discriminate|]. cbn [length] in *. lia.
    + cbn. split; [lia|]. intros _ Heq. lia.
Qed.

Lemma split_nonempty sep s : PyStr.split sep s <> [].
Proof.
  destruct s as [|a s]; cbn; [discriminate|].
  destruct (Ascii.eqb a sep); [discriminate|].
  destruct (PyStr.split sep s); discriminate.
Qed.

Lemma labels_of_nonempty domain : labels_of domain <> [].
Proof.
  unfold labels_of. intros H. apply (f_equal (@length _)) in H.
  rewrite length_rev in H. destruct (PyStr.split "." domain) eqn:E; [|discriminate].
  exact (split_nonempty _ _ E).
Qed.

(** What [lookup] returns, for every tree and every non-empty domain. *)
Lemma lookup_node_precedence root domain :
  domain <> EmptyString ->
  exists path,
    lookup_node root domain = Ok (code_precedence root (labels_of domain), path).
Proof.
  intros Hd. unfold lookup_node.
  destruct domain as [|a s]; [congruence|]. cbn [PyStr.is_empty].
  set (labels := labels_of (String a s)).
  assert (Hne : labels <> []) by apply labels_of_nonempty.
  unfold lookup_return, code_precedence.
  pose proof (lookup_loop_wildcard labels 0 (lookup_init root)) as Hw.
  cbn [lookup_init ls_wildcard ls_current] in Hw.
  destruct (truthy (rule_at labels root)) eqn:Ht.
  - destruct (lookup_loop_exact labels 0 (lookup_init root) Hne Ht) as (Hm & He & Hp).
    cbn [lookup_init ls_current] in Hm. rewrite Hm, He, Ht.
    rewrite bool_decide_eq_true_2 by reflexivity. cbn [andb]. eauto.
  - destruct (lookup_loop_exact_len labels 0 (lookup_init root)) as [_ He]; [cbn; lia|].
    cbn [lookup_init ls_current] in He.
    destruct (bool_decide (length labels = ls_exact_len (lookup_loop labels 0 (lookup_init root))))
      eqn:Hb.
    + apply bool_decide_eq_true in Hb. rewrite He in Ht; [discriminate|exact Hne|].
      symmetry. exact Hb.
    + rewrite andb_false_r. rewrite Hw.
      destruct (last (star_rules labels root)) as [[w|]|]; cbn.
      * destruct (bool_decide (w = ∅)) eqn:Hwe; cbn; [|eauto].
        apply bool_decide_eq_true in Hwe. subst w. eauto.
      * eauto.
      * eauto.
Qed.

(** [lookup] follows the precedence of the specification whenever the
    deepest ["*"] child seen holds a rule (or no ["*"] child holds one). *)
Lemma code_precedence_spec root labels :
  (forall o, last (star_rules labels root) = Some o -> truthy o = false ->
             List.filter truthy (star_rules labels root) = []) ->
  code_precedence root labels = spec_precedence root labels.
Proof.
  intros H. unfold code_precedence, spec_precedence.
  destruct (truthy (rule_at labels root)); [reflexivity|].
  destruct (last (star_rules labels root)) as [o|] eqn:Hl.
  - destruct (truthy o) eqn:Ho.
    + apply last_Some in Hl as [l' Hl]. rewrite Hl.
      rewrite List.filter_app. cbn [List.filter]. rewrite Ho.
      rewrite last_snoc. reflexivity.
    + rewrite (H o eq_refl Ho). cbn.
      destruct o as [w|]; [|reflexivity]. cbn in Ho.
      apply negb_false_iff, bool_decide_eq_true in Ho. subst. reflexivity.
  - apply last_None in Hl. rewrite Hl. reflexivity.
Qed.

(** The path [lookup] returns is the path of a node of the tree. *)
Lemma lookup_loop_path root labels i st :
  node_at (ls_path st) root = Some (ls_current st) ->
  node_at (ls_path (lookup_loop labels i st)) root
  = Some (ls_current (lookup_loop labels i st)).
Proof.
  revert i st. induction labels as [|l ls IH]; intros i st Hst; [exact Hst|].
  cbn [lookup_loop].
  destruct (children (ls_current st) !! l) as [child|] eqn:Hc; [|exact Hst].
  destruct (truthy (rule child)); apply IH; cbn [ls_path ls_current];
    rewrite node_at_app, Hst; cbn; rewrite Hc; reflexivity.
Qed.

Lemma lookup_node_path root domain r path :
  lookup_node root domain = Ok (r, path) -> is_Some (node_at path root).
Proof.
  unfold lookup_node. destruct (PyStr.is_empty domain); [discriminate|].
  intros H. injection H as H.
  pose proof (lookup_loop_path root (labels_of domain) 0 (lookup_init root) eq_refl) as Hp.
  unfold lookup_return in H.
  repeat match type of H with (if ?b then _ else _) = _ => destruct b end;
    injection H as _ <-; rewrite Hp; eauto.
Qed.

Lemma lookup_ref t domain r node :
  lookup t domain = Ok (r, node) ->
  ref_addr node = root t /\ is_Some (node_at (ref_path node) (root_node t)).
Proof.
  unfold lookup. destruct (lookup_node (root_node t) domain) as [[r' path]|e] eqn:E;
    [|discriminate].
  intros H. injection H as <- <-. split; [reflexivity|].
  exact (lookup_node_path _ _ _ _ E).
Qed.

(** *** The two kinds of mutation *)

Lemma root_node_swap_root t n : root_node (swap_root t n) = n.
Proof.
  unfold root_node, swap_root. cbn [heap root].
  apply list_lookup_total_middle. reflexivity.
Qed.

Lemma swap_root_cow_step t n : cow_step t (swap_root t n).
Proof.
  unfold cow_step, swap_root. cbn [heap root]. repeat split.
  - rewrite length_app. cbn. lia.
  - intros a Ha. apply lookup_app_l. exact Ha.
Qed.

Lemma root_node_assign_rule t path r :
  wf t ->
  root_node (assign_rule t (mkNodeRef (root t) path) r) = set_rule path r (root_node t).
Proof.
  intros Hwf. unfold root_node, assign_rule. cbn [heap root ref_addr ref_path].
  apply list_lookup_total_insert_eq. exact Hwf.
Qed.

Lemma assign_rule_assign_step t path r :
  wf t -> is_Some (node_at path (root_node t)) ->
  assign_step path r t (assign_rule t (mkNodeRef (root t) path) (Some r)).
Proof.
  intros Hwf Hn. unfold assign_step. rewrite root_node_assign_rule by exact Hwf.
  unfold assign_rule. cbn [heap root ref_addr ref_path]. repeat split.
  - apply length_insert.
  - intros a Ha. apply list_lookup_insert_ne. congruence.
  - intros p. apply rule_at_set_rule. exact Hn.
  - apply node_at_set_rule_is_Some.
  - apply node_at_set_rule_is_Some.
Qed.

(** An object allocated before a copy-on-write step is the same after it. *)
Lemma cow_step_snapshot t t' a :
  cow_step t t' -> a < length (heap t) -> heap t' !!! a = heap t !!! a.
Proof.
  intros (_ & _ & Hold) Ha. rewrite !list_lookup_total_alt, (Hold _ Ha). reflexivity.
Qed.

(** [cow_remove] either swaps in a changed copy and answers [True], or
    leaves the trie alone. *)
Lemma cow_remove_shape t domain directive res t' :
  cow_remove t domain directive = (res, t') ->
  (res = Ok true /\ cow_step t t') \/ (res <> Ok true /\ t' = t).
Proof.
  unfold cow_remove.
  destruct (negb (_domain_exits t domain)).
  { intros H. injection H as <- <-. right. split; [discriminate|reflexivity]. }
  unfold deepcopy.
  destruct (node_at (labels_of domain) (root_node t)) as [cur|].
  2:{ intros H. injection H as <- <-. right. split; [discriminate|reflexivity]. }
  destruct (rule cur) as [r|].
  2:{ intros H. injection H as <- <-. right. split; [discriminate|reflexivity]. }
  destruct directive as [d|].
  - destruct (has_key d r).
    + intros H. injection H as <- <-. left. split; [reflexivity|apply swap_root_cow_step].
    + intros H. injection H as <- <-. right. split; [discriminate|reflexivity].
  - intros H. injection H as <- <-. left. split; [reflexivity|apply swap_root_cow_step].
Qed.

(** [cow_insert] follows what [lookup] answers: an assignment in place for
    a rule, a swapped-in copy for none. *)
Lemma cow_insert_shape t domain rule res t' calls :
  wf t ->
  cow_insert t domain rule = (res, t', calls) ->
  match lookup t domain with
  | Raise e => res = Raise e /\ t' = t
  | Ok (existing_rule, node) =>
      if truthy (Some existing_rule)
      then (res = Ok tt
            /\ assign_step (ref_path node) (merged_rule existing_rule rule) t t')
           \/ (res <> Ok tt /\ t' = t)
      else res = Ok tt
           /\ cow_step t t'
           /\ root_node t' = insert_path (labels_of domain) rule (root_node t)
  end.
Proof.
  intros Hwf. unfold cow_insert.
  destruct (lookup t domain) as [[existing_rule node]|e] eqn:Hl.
  2:{ intros H. injection H as <- <- _. split; reflexivity. }
  destruct (lookup_ref _ _ _ _ Hl) as [Haddr Hnode].
  destruct (truthy (Some existing_rule)).
  - unfold _cow_update.
    destruct (run_update_cb t existing_rule rule) as [[[]|e] cs].
    + intros H. injection H as <- <- _. left. split; [reflexivity|].
      destruct node as [addr path]. cbn [ref_addr ref_path] in *. subst addr.
      apply assign_rule_assign_step; assumption.
    + intros H. injection H as <- <- _. right. split; [discriminate|reflexivity].
  - unfold deepcopy. intros H. injection H as <- <- _.
    split; [reflexivity|]. split; [apply swap_root_cow_step|apply root_node_swap_root].
Qed.

(** *** Directive exclusivity at run time *)

Lemma has_key_dict_update k (new rule : Rule) :
  has_key k (dict_update new rule) = has_key k rule || has_key k new.
Proof.
  unfold has_key, dict_update. rewrite lookup_union.
  destruct (rule !! k) as [v|], (new !! k) as [v'|]; reflexivity.
Qed.

Lemma has_key_delete k k' (r : Rule) :
  has_key k (delete k' r) = if decide (k = k') then false else has_key k r.
Proof.
  unfold has_key. destruct (decide (k = k')) as [->|Hne].
  - rewrite lookup_delete_eq. reflexivity.
  - rewrite lookup_delete_ne by congruence. reflexivity.
Qed.

(** The merge of [_cow_update] keeps [block] and [route] apart. *)
Lemma merged_rule_exclusive existing_rule rule :
  exclusive existing_rule = true -> exclusive rule = true ->
  exclusive (merged_rule existing_rule rule) = true.
Proof.
  unfold exclusive, merged_rule, conflict_of, deepcopy.
  destruct (has_key "block" existing_rule) eqn:Eb, (has_key "route" existing_rule) eqn:Er,
           (has_key "block" rule) eqn:Rb, (has_key "route" rule) eqn:Rr;
    cbn; try discriminate; intros _ _;
    rewrite !has_key_dict_update, ?has_key_delete, ?Eb, ?Er, ?Rb, ?Rr; reflexivity.
Qed.

(** Every wildcard candidate is the rule attribute of a node. *)
Lemma star_rules_stored labels n o :
  o ∈ star_rules labels n -> exists p, rule_at p n = o.
Proof.
  revert n. induction labels as [|l ls IH]; intros n; cbn [star_rules].
  - intros H. apply elem_of_nil in H. contradiction.
  - rewrite elem_of_app. intros [H|H].
    + destruct (children n !! "*") as [w|] eqn:Ew;
        [|apply elem_of_nil in H; contradiction].
      apply list_elem_of_singleton in H. subst o. exists ["*"].
      rewrite rule_at_cons, Ew. reflexivity.
    + destruct (children n !! l) as [c|] eqn:Ec;
        [|apply elem_of_nil in H; contradiction].
      destruct (IH c H) as [p Hp]. exists (l :: p). rewrite rule_at_cons, Ec. exact Hp.
Qed.

(** What [lookup] answers is the empty rule or a rule of the trie. *)
Lemma code_precedence_stored root labels :
  code_precedence root labels = ∅
  \/ exists p, rule_at p root = Some (code_precedence root labels).
Proof.
  unfold code_precedence.
  destruct (truthy (rule_at labels root)) eqn:Ht.
  - apply truthy_Some in Ht as (r & Hr & _). right. exists labels. rewrite Hr. reflexivity.
  - destruct (last (star_rules labels root)) as [[w|]|] eqn:El; cbn; [|left; reflexivity..].
    right. apply last_Some_elem_of, star_rules_stored in El. exact El.
Qed.

Lemma lookup_stored t domain r node :
  lookup t domain = Ok (r, node) ->
  r = ∅ \/ exists p, rule_at p (root_node t) = Some r.
Proof.
  unfold lookup.
  destruct (lookup_node (root_node t) domain) as [[r' path]|e] eqn:E; [|discriminate].
  intros H. injection H as <- _.
  assert (Hd : domain <> EmptyString).
  { intros ->. discriminate E. }
  destruct (lookup_node_precedence (root_node t) domain Hd) as [path' Hp].
  rewrite Hp in E. injection E as <- _. apply code_precedence_stored.
Qed.

(** [cow_insert] of a rule that keeps the directives apart, into a trie
    whose rules all do, gives a trie whose rules all do: the run-time path
    maintains the exclusivity that the start-up merge does not establish. *)
Lemma cow_insert_keeps_exclusive t domain rule res t' calls :
  wf t ->
  all_rules (fun r => exclusive r = true) (root_node t) ->
  exclusive rule = true ->
  cow_insert t domain rule = (res, t', calls) ->
  all_rules (fun r => exclusive r = true) (root_node t').
Proof.
  intros Hwf Hall Hrule Hrun.
  pose proof (cow_insert_shape _ _ _ _ _ _ Hwf Hrun) as Hshape.
  destruct (lookup t domain) as [[existing_rule node]|e] eqn:Hl.
  2:{ destruct Hshape as [_ ->]. exact Hall. }
  destruct (truthy (Some existing_rule)) eqn:Ht.
  - destruct Hshape as [[_ (_ & _ & _ & Hrules & _)]|[_ ->]]; [|exact Hall].
    intros p r. rewrite Hrules.
    destruct (decide (p = ref_path node)); [|apply Hall].
    intros H. injection H as <-. apply merged_rule_exclusive; [|exact Hrule].
    destruct (lookup_stored _ _ _ _ Hl) as [->|[p' Hp']]; [reflexivity|].
    exact (Hall _ _ Hp').
  - destruct Hshape as (_ & _ & Hroot). intros p r. rewrite Hroot, rule_at_insert_path.
    destruct (decide (p = labels_of domain)); [|apply Hall].
    intros H. injection H as <-. exact Hrule.
Qed.

(** *** Insert, then look up: the cases that work *)

Lemma lookup_node_exact root domain r :
  domain <> EmptyString ->
  rule_at (labels_of domain) root = Some r -> r <> ∅ ->
  lookup_node root domain = Ok (r, labels_of domain).
Proof.
  intros Hd Hr Hne. unfold lookup_node.
  destruct domain as [|a s]; [congruence|]. cbn [PyStr.is_empty].
  assert (Ht : truthy (rule_at (labels_of (String a s)) (ls_current (lookup_init root))) = true).
  { cbn [lookup_init ls_current]. rewrite Hr. apply truthy_nonempty, Hne. }
  destruct (lookup_loop_exact _ 0 (lookup_init root) (labels_of_nonempty _) Ht)
    as (Hm & He & Hp).
  unfold lookup_return. rewrite Hm, He, Hp, Ht.
  rewrite bool_decide_eq_true_2 by reflexivity.
  cbn [lookup_init ls_current ls_path andb app]. rewrite Hr. reflexivity.
Qed.

Lemma merged_rule_nonempty existing_rule rule :
  existing_rule <> ∅ -> merged_rule existing_rule rule <> ∅.
Proof.
  intros Hne Hm. unfold merged_rule, dict_update, deepcopy in Hm.
  apply map_positive_l in Hm as Hr. subst rule.
  rewrite (left_id_L ∅ (∪)) in Hm.
  unfold conflict_of in Hm. cbn in Hm.
  rewrite !andb_false_r in Hm. contradiction.
Qed.

(** When [lookup] finds nothing for the domain, the inserted rule is what
    the next [lookup] returns. *)
Lemma cow_insert_lookup_new t domain rule node :
  rule <> ∅ ->
  lookup t domain = Ok (∅, node) ->
  exists t' node',
    cow_insert t domain rule = (Ok tt, t', [])
    /\ lookup t' domain = Ok (rule, node').
Proof.
  intros Hne Hl.
  assert (Hd : domain <> EmptyString).
  { intros ->. unfold lookup, lookup_node in Hl. discriminate Hl. }
  unfold cow_insert. rewrite Hl. cbn [truthy].
  rewrite bool_decide_eq_true_2 by reflexivity. cbn [negb].
  eexists _, _. split; [reflexivity|].
  unfold lookup. rewrite root_node_swap_root.
  rewrite (lookup_node_exact _ domain rule Hd); [reflexivity| |exact Hne].
  rewrite rule_at_insert_path, decide_True by reflexivity. reflexivity.
Qed.

(** When a rule is stored at exactly the domain, the merge of section 4.1
    of that rule and the inserted one is what the next [lookup] returns
    (the update callback, if one is called, returning normally). *)
Lemma cow_insert_lookup_exact t domain rule existing_rule :
  wf t ->
  domain <> EmptyString ->
  rule_at (labels_of domain) (root_node t) = Some existing_rule ->
  existing_rule <> ∅ ->
  (run_update_cb t existing_rule rule).1 = Ok tt ->
  exists t' node' calls,
    cow_insert t domain rule = (Ok tt, t', calls)
    /\ lookup t' domain = Ok (merged_rule existing_rule rule, node').
Proof.
  intros Hwf Hd Hr Hne Hcb.
  pose proof (lookup_node_exact _ _ _ Hd Hr Hne) as Hl.
  unfold cow_insert, lookup. rewrite Hl.
  rewrite (truthy_nonempty _ Hne). unfold _cow_update.
  destruct (run_update_cb t existing_rule rule) as [r cs]. cbn in Hcb. subst r.
  eexists _, _, _. split; [reflexivity|].
  rewrite root_node_assign_rule by exact Hwf.
  rewrite (lookup_node_exact _ domain (merged_rule existing_rule rule) Hd);
    [reflexivity| |apply merged_rule_nonempty, Hne].
  rewrite rule_at_set_rule, decide_True by (reflexivity || (unfold rule_at in Hr;
    destruct (node_at (labels_of domain) (root_node t)); [eauto|discriminate])).
  reflexivity.
Qed.

End TrieFacts.

(** ** The policy store *)

Module TrieClaims.
Import Trie TrieFacts Scenario.


(** *** Lookup precedence *)

(** The expectations of [test/test_trie.py] that go through [lookup]:
    exact matches, wildcard matches at several depths, the exact rule
    before the wildcard, no match, and the empty domain. *)
Example lookup_as_the_tests_expect :
  map (looked_up test_trie)
    ["example.com"; "api.example.com"; "www.example.com"; "deep.sub.example.com";
     "unknown.com"; "partial.com"; "other.partial.com";
     "test.multi.level.com"; "direct.level.com"; "test.other.level.com"; ""]
  = [Some (action "block" []);
     Some (action "route" [("port", VStr "8080")]);
     Some (action "route" [("gw", VStr "192.168.1.1")]);
     Some (action "route" [("gw", VStr "192.168.1.1")]);
     Some ∅; Some ∅; Some ∅;
     Some (action "block" [("level", VStr "third")]);
     Some (action "block" [("level", VStr "second")]);
     Some (action "block" [("level", VStr "second")]);
     None].
Proof. by_eval. Qed.

(** C1 (code defect).  The precedence of section 4.1 asks for the deepest
    wildcard rule seen; [lookup] takes what the deepest ["*"] child seen
    holds, even when that is no rule.  After ["*.example.com"] and
    ["*.com"] were inserted and ["*.example.com"] was removed again, the
    ["*"] node under [example.com] is still there, empty; for
    ["www.example.com"] no exact rule exists, the rule of ["*.com"] was
    seen on the way and the precedence gives it, but [lookup] returns the
    empty rule. *)
Theorem lookup_shadowed_wildcard :
  cow_remove two_wildcards "*.example.com" None = (Ok true, removed_wildcard)
  /\ rule_at (labels_of "www.example.com") (root_node removed_wildcard) = None
  /\ rule_at ["com"; "*"] (root_node removed_wildcard) = Some route_com
  /\ star_rules (labels_of "www.example.com") (root_node removed_wildcard)
     = [Some route_com; None]
  /\ spec_precedence (root_node removed_wildcard) (labels_of "www.example.com")
     = route_com
  /\ lookup removed_wildcard "www.example.com" = Ok (∅, mkNodeRef 3 ["com"; "example"]).
Proof. repeat split; by_eval. Qed.

(** *** Insert, then look up *)

(** C7 (code defect).  [cow_insert] decides between "update" and "insert"
    with [lookup], which also answers with a wildcard rule.  In a trie
    that holds only ["*.com"], no rule is stored for ["example.com"];
    [cow_insert("example.com", block)] nevertheless takes the update path
    with the rule of ["*.com"] and the node [com] where the traversal
    stopped: the merged rule lands on [com], no node is made for
    [example.com], and the following [lookup("example.com")] still returns
    the rule of ["*.com"], not the inserted one. *)
Theorem cow_insert_under_wildcard :
  rule_at (labels_of "example.com") (root_node only_com) = None
  /\ cow_insert only_com "example.com" block_example
     = (Ok tt, after_insert only_com "example.com" block_example, [])
  /\ node_at (labels_of "example.com")
       (root_node (after_insert only_com "example.com" block_example)) = None
  /\ rule_at ["com"] (root_node (after_insert only_com "example.com" block_example))
     = Some block_example
  /\ lookup (after_insert only_com "example.com" block_example) "example.com"
     = Ok (route_com, mkNodeRef 1 ["com"])
  /\ route_com <> block_example.
Proof.
  repeat split; try by_eval.
  intros H. apply (f_equal (fun r : Rule => r !! "route")) in H.
  vm_compute in H. discriminate H.
Qed.

(** *** Directive exclusivity *)

(** C5 (code defect).  [_merge_rules] joins the rules of one domain with
    [|=] and never drops a directive, as [_cow_update] does.  From the
    lines [block=/x.com/] and [route=/x.com/10.0.0.1] it makes one rule
    with both [block] and [route], and [build_domain_trie] stores it. *)
Theorem startup_merge_keeps_block_and_route :
  exists fw,
    loaded_forwarder = (Ok tt, fw)
    /\ rule_at (labels_of "x.com") (root_node (Forward.domain_trie fw)) = Some x_com_rule
    /\ has_key "block" x_com_rule = true
    /\ has_key "route" x_com_rule = true
    /\ exclusive x_com_rule = false.
Proof.
  eexists. split; [vm_compute; reflexivity|].
  repeat split; by_eval.
Qed.

(** *** Removing what is not there *)

(** C8, as stated, fails: for a domain that is not in the trie [cow_remove]
    does not return [False]; it raises. *)
Lemma cow_remove_absent_counterexample :
  _domain_exits DomainTrie_new "x.com" = false
  /\ (cow_remove DomainTrie_new "x.com" None).1 <> Ok false.
Proof.
  split; [by_eval|]. intros H. vm_compute in H. discriminate H.
Qed.

(** C8 (amended).  For every domain without a rule in the trie (no node at
    its path, or a node without a rule) and every directive, [cow_remove]
    raises the exception that says so and leaves the trie as it is;
    [PolicyService.remove_rule] turns the exception into the not-found
    answer [False], with no change to the forwarder. *)
Theorem cow_remove_absent_raises (t : DomainTrie) (domain : string)
    (directive : option string) :
  _domain_exits t domain = false ->
  cow_remove t domain directive
  = (Raise (Exception (domain +:+ " is not found in the trie")), t)
  /\ forall now w, Forward.domain_trie (Forward.forwarder w) = t ->
       PolicyService.remove_rule now domain directive w = (Ok false, w).
Proof.
  intros Hex.
  assert (Hrm : cow_remove t domain directive
                = (Raise (Exception (domain +:+ " is not found in the trie")), t)).
  { unfold cow_remove. rewrite Hex. reflexivity. }
  split; [exact Hrm|].
  intros now w Ht. subst t.
  unfold PolicyService.remove_rule, try_except, PolicyService.run_cow_remove.
  unfold mbind, M_bind. rewrite Hrm.
  destruct w as [fw evs]. destruct fw. reflexivity.
Qed.

(** The theorem at the empty trie. *)
Lemma cow_remove_absent_raises_witness :
  cow_remove DomainTrie_new "x.com" (Some "block")
  = (Raise (Exception ("x.com" +:+ " is not found in the trie")), DomainTrie_new)
  /\ forall now w, Forward.domain_trie (Forward.forwarder w) = DomainTrie_new ->
       PolicyService.remove_rule now "x.com" (Some "block") w = (Ok false, w).
Proof.
  apply (cow_remove_absent_raises DomainTrie_new "x.com" (Some "block")).
  vm_compute. reflexivity.
Defined.

(** *** Copy-on-write *)

(** C2, as stated, fails: a [cow_insert] for a domain that has a rule goes
    through [_cow_update], which copies the rule, not the trie.  The root
    pointer stays where it was and the object it points to, which a reader
    may hold, is changed in place. *)
Lemma cow_insert_in_place_counterexample :
  wf only_com
  /\ ~ (after_insert only_com "*.com" route_com_2 = only_com
        \/ cow_step only_com (after_insert only_com "*.com" route_com_2))
  /\ root (after_insert only_com "*.com" route_com_2) = root only_com
  /\ rule_at ["com"; "*"] (heap only_com !!! root only_com) = Some route_com
  /\ rule_at ["com"; "*"] (heap (after_insert only_com "*.com" route_com_2) !!! root only_com)
     = Some route_com_2.
Proof.
  split; [vm_compute; lia|]. split; [|repeat split; by_eval].
  intros [H|[H _]].
  - apply (f_equal (fun t => rule_at ["com"; "*"] (root_node t) ≫= (.!! "route"))) in H.
    vm_compute in H. discriminate H.
  - vm_compute in H. discriminate H.
Qed.

(** C2 (amended).  A runtime mutation is one of two steps.  [cow_remove]
    that removes something, and [cow_insert] for a domain for which
    [lookup] finds no rule, deep-copy the trie, change the copy and swap the
    root pointer: the new root is a new object, holding what [insert] would
    have made in the second case, and every object that existed before is
    unchanged.  [cow_insert] for a domain for which [lookup] finds a rule
    leaves the root pointer alone and, in the live trie, assigns the merged
    rule to the node [lookup] returned: that one rule changes, every other
    rule and every node stays (the operation running without another
    mutation in between).  Any other outcome leaves the trie as it
    was.  A lookup reads the object the root pointer designates, so it
    sees the trie before or after one such step. *)
Theorem cow_mutation_steps (t : DomainTrie) :
  wf t ->
  (forall domain directive res t',
     cow_remove t domain directive = (res, t') ->
     (res = Ok true /\ cow_step t t') \/ (res <> Ok true /\ t' = t))
  /\ (forall domain rule res t' calls,
        cow_insert t domain rule = (res, t', calls) ->
        match lookup t domain with
        | Raise e => res = Raise e /\ t' = t
        | Ok (existing_rule, node) =>
            if truthy (Some existing_rule)
            then (res = Ok tt
                  /\ assign_step (ref_path node) (merged_rule existing_rule rule) t t')
                 \/ (res <> Ok tt /\ t' = t)
            else res = Ok tt
                 /\ cow_step t t'
                 /\ root_node t' = insert_path (labels_of domain) rule (root_node t)
        end)
  /\ (forall t', cow_step t t' ->
        forall domain,
          lookup_node (heap t' !!! root t) domain = lookup_node (root_node t) domain).
Proof.
  intros Hwf. split; [|split].
  - intros domain directive res t'. apply cow_remove_shape.
  - intros domain rule res t' calls. apply cow_insert_shape, Hwf.
  - intros t' Hstep domain. rewrite (cow_step_snapshot t t' (root t) Hstep Hwf).
    reflexivity.
Qed.

(** The theorem at the trie that holds the rule for ["*.com"]. *)
Lemma cow_mutation_steps_witness :
  (forall domain directive res t',
     cow_remove only_com domain directive = (res, t') ->
     (res = Ok true /\ cow_step only_com t') \/ (res <> Ok true /\ t' = only_com))
  /\ (forall domain rule res t' calls,
        cow_insert only_com domain rule = (res, t', calls) ->
        match lookup only_com domain with
        | Raise e => res = Raise e /\ t' = only_com
        | Ok (existing_rule, node) =>
            if truthy (Some existing_rule)
            then (res = Ok tt
                  /\ assign_step (ref_path node) (merged_rule existing_rule rule)
                       only_com t')
                 \/ (res <> Ok tt /\ t' = only_com)
            else res = Ok tt
                 /\ cow_step only_com t'
                 /\ root_node t' = insert_path (labels_of domain) rule (root_node only_com)
        end)
  /\ (forall t', cow_step only_com t' ->
        forall domain,
          lookup_node (heap t' !!! root only_com) domain
          = lookup_node (root_node only_com) domain).
Proof.
  apply (cow_mutation_steps only_com). vm_compute. lia.
Defined.

End TrieClaims.

(** ** The response cache *)

Module CacheFacts.
Import Dns Cache.

Lemma key_eqb_refl k : key_eqb k k = true.
Proof. apply bool_decide_eq_true_2. reflexivity. Qed.

Lemma key_eqb_ne k k' : k <> k' -> key_eqb k k' = false.
Proof. intros H. apply bool_decide_eq_false_2. exact H. Qed.

Lemma find_entry_key k es e : find_entry k es = Some e -> e_key e = k.
Proof.
  induction es as [|x es IH]; cbn; [discriminate|].
  destruct (key_eqb (e_key x) k) eqn:E; [|exact IH].
  intros H. injection H as <-. apply bool_decide_eq_true in E. exact E.
Qed.

Lemma find_entry_None k es : k ∉ map e_key es -> find_entry k es = None.
Proof.
  induction es as [|x es IH]; cbn; [reflexivity|].
  intros H. apply not_elem_of_cons in H as [H1 H2].
  rewrite key_eqb_ne by congruence. apply IH, H2.
Qed.

Lemma find_entry_app k es1 es2 :
  find_entry k (es1 ++ es2)
  = match find_entry k es1 with Some e => Some e | None => find_entry k es2 end.
Proof.
  induction es1 as [|x es1 IH]; cbn; [reflexivity|].
  destruct (key_eqb (e_key x) k); [reflexivity|exact IH].
Qed.

Lemma find_entry_remove_key_eq k es : find_entry k (remove_key k es) = None.
Proof.
  induction es as [|x es IH]; cbn; [reflexivity|].
  destruct (key_eqb (e_key x) k) eqn:E; cbn; [exact IH|]. rewrite E. exact IH.
Qed.

Lemma find_entry_remove_key_ne k k' es :
  k' <> k -> find_entry k' (remove_key k es) = find_entry k' es.
Proof.
  intros Hne. induction es as [|x es IH]; cbn; [reflexivity|].
  destruct (key_eqb (e_key x) k) eqn:E; cbn.
  - apply bool_decide_eq_true in E. rewrite key_eqb_ne by congruence. exact IH.
  - destruct (key_eqb (e_key x) k'); [reflexivity|exact IH].
Qed.

Lemma find_entry_filter_live now k es e :
  find_entry k es = Some e -> live now e = true ->
  find_entry k (List.filter (live now) es) = Some e.
Proof.
  induction es as [|x es IH]; cbn; [discriminate|].
  destruct (key_eqb (e_key x) k) eqn:E.
  - intros H Hl. injection H as ->. rewrite Hl. cbn. rewrite E. reflexivity.
  - intros H Hl. destruct (live now x); cbn; [rewrite E|]; apply IH; assumption.
Qed.

Lemma find_entry_evict_None k mx es :
  find_entry k es = None -> find_entry k (evict mx es) = None.
Proof.
  induction es as [|x es IH]; [reflexivity|].
  intros H. cbn [evict].
  destruct (Z.of_nat (length (x :: es)) + 1 >? mx)%Z; [|exact H].
  apply IH. cbn in H. destruct (key_eqb (e_key x) k); [discriminate|exact H].
Qed.

(** [get] answers [peek] and changes no answer. *)
Lemma getitem_peek now k c e :
  find_entry k (entries c) = Some e -> live now e = true ->
  exists c', getitem now k c = (Ok (e_value e), c')
             /\ maxsize c' = maxsize c /\ ttu c' = ttu c
             /\ forall k', find_entry k' (entries c') = find_entry k' (entries c).
Proof.
  intros Hf Hl. unfold getitem. rewrite Hf, Hl. eexists. split; [reflexivity|].
  cbn. repeat split. intros k'. rewrite find_entry_app.
  destruct (decide (k' = k)) as [->|Hne].
  - rewrite find_entry_remove_key_eq. cbn.
    rewrite (find_entry_key _ _ _ Hf), key_eqb_refl. symmetry. exact Hf.
  - rewrite find_entry_remove_key_ne by exact Hne.
    destruct (find_entry k' (entries c)); [reflexivity|]. cbn.
    rewrite (find_entry_key _ _ _ Hf), key_eqb_ne by congruence. reflexivity.
Qed.

Lemma get_peek now k c : (get now k c).1 = Ok (peek c now k).
Proof.
  unfold get, contains, peek.
  destruct (find_entry k (entries c)) as [e|] eqn:Hf; [|reflexivity].
  destruct (live now e) eqn:Hl; [|reflexivity].
  destruct (getitem_peek now k c e Hf Hl) as (c' & Hg & _).
  unfold mbind, M_bind. rewrite Hg. reflexivity.
Qed.

Lemma get_keeps now k c k' : peek (get now k c).2 now k' = peek c now k'.
Proof.
  unfold get, contains.
  destruct (find_entry k (entries c)) as [e|] eqn:Hf; [|reflexivity].
  destruct (live now e) eqn:Hl; [|reflexivity].
  destruct (getitem_peek now k c e Hf Hl) as (c' & Hg & _ & _ & Hfind).
  unfold mbind, M_bind. rewrite Hg. cbn. unfold peek. rewrite Hfind. reflexivity.
Qed.

(** Storing an entry whose deadline is in the future, in a cache with
    room for at least one entry. *)
Lemma setitem_find now k v c :
  (now <? ttu c k v now)%Z = true ->
  (1 <= maxsize c)%Z ->
  exists c', setitem now k v c = (Ok tt, c')
             /\ find_entry k (entries c') = Some (mkEntry k v (ttu c k v now))
             /\ maxsize c' = maxsize c /\ ttu c' = ttu c.
Proof.
  intros Hlt Hsize. unfold setitem. rewrite Hlt. cbn [negb].
  assert (Hms : (1 >? maxsize (expire now c))%Z = false).
  { cbn. rewrite Z.gtb_ltb. apply Z.ltb_ge. exact Hsize. }
  rewrite Hms.
  destruct (find_entry k (entries (expire now c))) eqn:E;
    (eexists; split; [reflexivity|]; cbn [entries with_entries maxsize ttu expire];
     split; [|split; reflexivity]; rewrite find_entry_app).
  - rewrite find_entry_remove_key_eq. cbn. rewrite key_eqb_refl. reflexivity.
  - rewrite (find_entry_evict_None _ _ _ E). cbn. rewrite key_eqb_refl. reflexivity.
Qed.

End CacheFacts.

Module PurgeFacts.
Import Dns Cache Forward CacheFacts.

Lemma keep_pinned_idem mx o : keep_pinned mx (keep_pinned mx o) = keep_pinned mx o.
Proof.
  destruct o as [v|]; cbn; [|reflexivity].
  destruct (bool_decide (v.2 = mx)) eqn:E; cbn; [rewrite E|]; reflexivity.
Qed.

(** One round of the loop of [purge_cache] does not raise; it removes the
    key when its entry is live and not pinned, and touches no other key. *)
Lemma purge_step_peek now mx k c :
  exists c', purge_step now mx k c = (Ok tt, c')
             /\ maxsize c' = maxsize c /\ ttu c' = ttu c
             /\ forall k', peek c' now k'
                           = if decide (k' = k) then keep_pinned mx (peek c now k)
                             else peek c now k'.
Proof.
  unfold purge_step, contains, peek.
  destruct (find_entry k (entries c)) as [e|] eqn:Hf.
  2:{ exists c. repeat split. intros k'.
      destruct (decide (k' = k)) as [->|Hne]; [rewrite Hf|]; reflexivity. }
  destruct (live now e) eqn:Hl.
  2:{ exists c. repeat split. intros k'.
      destruct (decide (k' = k)) as [->|Hne]; [rewrite Hf, Hl|]; reflexivity. }
  destruct (getitem_peek now k c e Hf Hl) as (c1 & Hg & Hm & Ht & Hfind).
  unfold mbind, M_bind. rewrite Hg. cbn [keep_pinned].
  destruct (bool_decide ((e_value e).2 = mx)) eqn:Hpin; cbn [negb].
  - exists c1. repeat split; try assumption. intros k'. rewrite Hfind.
    destruct (decide (k' = k)) as [->|Hne]; [rewrite Hf, Hl|]; reflexivity.
  - unfold delitem. rewrite Hfind, Hf, Hl. eexists. split; [reflexivity|].
    cbn. repeat split; try assumption. intros k'.
    destruct (decide (k' = k)) as [->|Hne].
    + rewrite find_entry_remove_key_eq. reflexivity.
    + rewrite find_entry_remove_key_ne by exact Hne. rewrite Hfind. reflexivity.
Qed.

(** The whole loop, over any list of keys. *)
Lemma purge_loop_peek now mx keys c :
  exists c', for_each keys (purge_step now mx) c = (Ok tt, c')
             /\ maxsize c' = maxsize c /\ ttu c' = ttu c
             /\ forall k', peek c' now k'
                           = if decide (k' ∈ keys) then keep_pinned mx (peek c now k')
                             else peek c now k'.
Proof.
  revert c. induction keys as [|k keys IH]; intros c.
  - exists c. repeat split.
  - destruct (purge_step_peek now mx k c) as (c1 & Hs & Hm1 & Ht1 & Hp1).
    destruct (IH c1) as (c2 & Hl & Hm2 & Ht2 & Hp2).
    exists c2. cbn [for_each]. unfold mbind, M_bind. rewrite Hs.
    split; [exact Hl|]. split; [congruence|]. split; [congruence|].
    intros k'. rewrite Hp2, Hp1.
    destruct (decide (k' = k)) as [->|Hne].
    + rewrite (decide_True (P := k ∈ k :: keys)) by (apply elem_of_cons; left; reflexivity).
      destruct (decide (k ∈ keys)); [apply keep_pinned_idem|reflexivity].
    + destruct (decide (k' ∈ keys)) as [Hin|Hnin].
      * rewrite (decide_True (P := k' ∈ k :: keys)) by (apply elem_of_cons; right; exact Hin).
        reflexivity.
      * rewrite (decide_False (P := k' ∈ k :: keys)); [reflexivity|].
        intros H. apply elem_of_cons in H as [H|H]; contradiction.
Qed.

End PurgeFacts.

(** ** The forwarder *)

Module ForwardFacts.
Import Dns Cache Forward CacheFacts.

Lemma max_ttl_init a b l : max_ttl (Z.max a b) l = Z.max b (max_ttl a l).
Proof.
  unfold max_ttl. induction l as [|x l IH]; cbn; [lia|]. rewrite IH. lia.
Qed.

(** The loop of [_add_cache] computes the largest of the start value and
    the TTLs of the A rrsets. *)
Lemma derive_ttl_max ttl answer : derive_ttl ttl answer = max_ttl ttl (a_ttls answer).
Proof.
  revert ttl. induction answer as [|rrset rest IH]; intros ttl; [reflexivity|].
  cbn [derive_ttl]. unfold a_ttls. cbn [List.filter].
  destruct (bool_decide (rr_rdtype rrset = A)); [|apply IH].
  cbn [map]. change (max_ttl ttl (rr_ttl rrset :: ?l)) with (Z.max (rr_ttl rrset) (max_ttl ttl l)).
  fold (a_ttls rest). rewrite <- max_ttl_init.
  destruct (rr_ttl rrset >? ttl)%Z eqn:E; rewrite IH; f_equal; lia.
Qed.

Lemma max_ttl_ge_default d l : (d <= max_ttl d l)%Z.
Proof. unfold max_ttl. induction l as [|x l IH]; cbn; lia. Qed.

Lemma max_ttl_ge_each d l : Forall (fun x => (x <= max_ttl d l)%Z) l.
Proof.
  unfold max_ttl. induction l as [|x l IH]; constructor; cbn; [lia|].
  eapply Forall_impl; [exact IH|]. cbn. intros; lia.
Qed.

Lemma max_ttl_elem d l : max_ttl d l ∈ d :: l.
Proof.
  unfold max_ttl. induction l as [|x l IH]; cbn.
  - apply elem_of_cons. left. reflexivity.
  - destruct (Z.max_spec x (foldr Z.max d l)) as [[_ ->]|[_ ->]].
    + apply elem_of_cons in IH as [IH|IH]; rewrite !elem_of_cons; [left|right; right];
        assumption.
    + rewrite !elem_of_cons. right. left. reflexivity.
Qed.

(** The TTL of the loop is the larger of the default and the TTL section
    4.2 gives. *)
Lemma cache_entry_ttl_spec fw response :
  cache_entry_ttl fw response (-1)
  = Z.max (cache_ttl fw) (spec_entry_ttl (cache_ttl fw) response).
Proof.
  unfold cache_entry_ttl, spec_entry_ttl.
  rewrite bool_decide_eq_true_2 by reflexivity. rewrite derive_ttl_max.
  unfold max_ttl. destruct (a_ttls (answer response)) as [|t ts]; cbn [foldr]; [lia|].
  induction ts as [|x ts IH]; cbn [foldr]; lia.
Qed.

(** *** What [_add_cache] stores *)

Lemma add_cache_not_noerror now qname qtype response ttl fw :
  rcode response <> NOERROR ->
  _add_cache now qname qtype response ttl fw = (Ok tt, fw).
Proof.
  intros Hr. unfold _add_cache. rewrite bool_decide_eq_false_2 by exact Hr.
  reflexivity.
Qed.

(** A NOERROR response is stored with the TTL [cache_entry_ttl] and the
    deadline [now] plus that TTL, and is found until the deadline. *)
Lemma add_cache_stores now qname qtype response ttl fw :
  rcode response = NOERROR ->
  ttu (cache fw) = _my_ttu ->
  (1 <= maxsize (cache fw))%Z ->
  (0 < cache_entry_ttl fw response ttl)%Z ->
  let ttl' := cache_entry_ttl fw response ttl in
  exists c',
    _add_cache now qname qtype response ttl fw = (Ok tt, with_cache fw c')
    /\ maxsize c' = maxsize (cache fw) /\ ttu c' = _my_ttu
    /\ find_entry (qname, qtype) (entries c')
       = Some (mkEntry (qname, qtype) (response, ttl') (now + ttl'))
    /\ forall now', (now' < now + ttl')%Z ->
         peek c' now' (qname, qtype) = Some (response, ttl').
Proof.
  intros Hrc Httu Hsize Hpos ttl'.
  unfold _add_cache. rewrite bool_decide_eq_true_2 by exact Hrc. cbn [negb].
  fold ttl'.
  assert (Hlt : (now <? ttu (cache fw) (qname, qtype) (response, ttl') now)%Z = true).
  { rewrite Httu. unfold _my_ttu. cbn [snd]. apply Z.ltb_lt. lia. }
  destruct (setitem_find now (qname, qtype) (response, ttl') (cache fw) Hlt Hsize)
    as (c' & Hset & Hfind & Hms & Ht).
  rewrite Httu in Hfind, Ht. unfold _my_ttu in Hfind. cbn [snd] in Hfind.
  unfold on_cache, zoom. rewrite Hset.
  exists c'. split; [reflexivity|]. split; [exact Hms|]. split; [exact Ht|].
  split; [exact Hfind|].
  intros now' Hnow. unfold peek. rewrite Hfind. unfold live. cbn [e_expires e_value].
  replace (now' <? now + ttl')%Z with true by (symmetry; apply Z.ltb_lt; lia).
  reflexivity.
Qed.

(** *** What reaches the client *)

Lemma sent_app es1 es2 : sent (es1 ++ es2) = sent es1 ++ sent es2.
Proof. unfold sent. apply omap_app. Qed.

Lemma quiet_ret {A} (a : A) : quiet (mret a).
Proof. intros w. reflexivity. Qed.

Lemma quiet_raise {A} e : quiet (@raise World A e).
Proof. intros w. reflexivity. Qed.

Lemma quiet_lift_result {A} (r : result A) : quiet (lift_result r).
Proof. intros w. reflexivity. Qed.

Lemma quiet_get_state : quiet get_state.
Proof. intros w. reflexivity. Qed.

Lemma quiet_on_forwarder {A} (m : M DNSForwarder A) : quiet (on_forwarder m).
Proof.
  intros w. unfold on_forwarder, zoom. destruct (m (forwarder w)). reflexivity.
Qed.

Lemma quiet_bind {A B} (m : M World A) (f : A -> M World B) :
  quiet m -> (forall a, quiet (f a)) -> quiet (m ≫= f).
Proof.
  intros Hm Hf w. unfold mbind, M_bind. specialize (Hm w).
  destruct (m w) as [[a|e] w1]; cbn in *; [|exact Hm].
  rewrite Hf. exact Hm.
Qed.

Lemma quiet_emit e : (forall m, e <> SendTo m) -> quiet (emit e).
Proof.
  intros He w. unfold emit. cbn. rewrite sent_app. cbn.
  destruct e; try (rewrite app_nil_r; reflexivity). exfalso. eapply He. reflexivity.
Qed.

Lemma quiet_forward_query net query ups : quiet (_forward_query net query ups).
Proof.
  induction ups as [|u ups IH]; cbn [_forward_query]; [apply quiet_ret|].
  apply quiet_bind; [apply quiet_emit; discriminate|].
  intros _. destruct (net query u); [apply quiet_ret|exact IH|exact IH].
Qed.

Lemma on_forwarder_on_cache_fst {A} (m : M TLRUCache A) w :
  (on_forwarder (on_cache m) w).1 = (m (cache (forwarder w))).1.
Proof. unfold on_forwarder, on_cache, zoom. destruct (m _). reflexivity. Qed.

(** Under a block rule the second half of [handle_request] sends nothing. *)
Lemma quiet_forward_and_enforce net now' query qname qtype rule :
  has_key "block" rule = true ->
  quiet (forward_and_enforce net now' query qname qtype rule).
Proof.
  intros Hb. unfold forward_and_enforce.
  apply quiet_bind; [apply quiet_get_state|]. intros w.
  apply quiet_bind; [apply quiet_lift_result|]. intros upstream.
  apply quiet_bind; [apply quiet_forward_query|]. intros resp.
  apply quiet_bind; [apply quiet_on_forwarder|]. intros _.
  apply quiet_bind.
  - destruct (has_key "dbr" rule); [|apply quiet_ret].
    destruct (response_cb (forwarder w)); [|apply quiet_raise].
    apply quiet_bind; [apply quiet_emit; discriminate|].
    intros _. apply quiet_lift_result.
  - intros _. rewrite Hb. apply quiet_ret.
Qed.

(** When every upstream fails, [_forward_query] makes the SERVFAIL
    response. *)
Lemma forward_query_all_fail net query ups w :
  Forall (fun u => forall m, net query u <> Response m) ups ->
  (_forward_query net query ups w).1 = Ok (set_rcode (make_response query) SERVFAIL).
Proof.
  revert w. induction ups as [|u ups IH]; intros w Hall; [reflexivity|].
  apply Forall_cons in Hall as [Hu Hall]. cbn [_forward_query].
  unfold mbind, M_bind, emit.
  destruct (net query u) as [m| |]; [exfalso; eapply Hu; reflexivity| |]; apply IH, Hall.
Qed.

End ForwardFacts.

Module ForwardClaims.
Import Dns Cache Forward CacheFacts PurgeFacts ForwardFacts Scenario.

(** *** Blocked names *)

(** C3.  For a query of a type other than AAAA (an A query in particular)
    whose name [lookup] answers with a rule that contains [block],
    [handle_request] sends exactly one message to the client, the NXDOMAIN
    response made from the query: nothing from the cache and nothing from
    an upstream, whatever the cache holds, whatever the upstreams answer
    and even when the handler raises afterwards. *)
Theorem blocked_query_gets_only_nxdomain (lib : Library)
    (net : Message -> string -> UdpOutcome) (now now' : Z) (query : Message)
    (q : Question) (qs : list Question) (w : World) (rule : Rule) (node : Trie.NodeRef) :
  question query = q :: qs ->
  q_rdtype q <> AAAA ->
  Trie.lookup (domain_trie (forwarder w)) (canonical_name (q_name q)) = Ok (rule, node) ->
  has_key "block" rule = true ->
  sent (events (handle_request lib net now now' (Ok query) w).2)
  = sent (events w) ++ [make_NXDOMAIN_response query]
  /\ rcode (make_NXDOMAIN_response query) = NXDOMAIN.
Proof.
  intros Hq Hty Hl Hb. split; [|reflexivity].
  unfold handle_request. unfold mbind at 1, M_bind at 1, lift_result at 1.
  rewrite Hq. unfold mbind at 1, M_bind at 1. cbn [mret M_ret].
  unfold mbind at 1, M_bind at 1, get_state at 1.
  rewrite Hl. unfold mbind at 1, M_bind at 1, lift_result at 1. cbn [fst].
  rewrite bool_decide_eq_false_2 by exact Hty.
  unfold mbind at 1, M_bind at 1.
  set (key := (canonical_name (q_name q), q_rdtype q)).
  pose proof (quiet_on_forwarder (on_cache (get now key)) w) as Hc.
  pose proof (on_forwarder_on_cache_fst (get now key) w) as Hr.
  destruct (on_forwarder (on_cache (get now key)) w) as [r w1].
  cbn [fst snd] in Hc, Hr. rewrite get_peek in Hr. subst r.
  rewrite Hb. cbn [negb].
  unfold mbind at 1, M_bind at 1.
  destruct (peek (cache (forwarder w)) now key) as [cached|];
    cbn [mret M_ret];
    unfold mbind at 1, M_bind at 1, emit at 1;
    rewrite (quiet_forward_and_enforce net now' query _ _ rule Hb);
    cbn [events]; rewrite sent_app, Hc; reflexivity.
Qed.

(** The theorem at a query for ["ads.example.com"], blocked, cached and
    answered by the upstream. *)
Lemma blocked_query_gets_only_nxdomain_witness :
  sent (events (handle_request plain_library answering_net 10 11 (Ok ads_query)
                  ads_world).2)
  = sent (events ads_world) ++ [make_NXDOMAIN_response ads_query]
  /\ rcode (make_NXDOMAIN_response ads_query) = NXDOMAIN.
Proof.
  apply (blocked_query_gets_only_nxdomain plain_library answering_net 10 11 ads_query
           (mkQuestion "ads.example.com." A) [] ads_world block_ads
           (Trie.mkNodeRef 0 ["com"; "example"; "ads"])).
  - reflexivity.
  - discriminate.
  - vm_compute. reflexivity.
  - vm_compute. reflexivity.
Defined.

(** The cache of that run does hold an answer for the name, and the
    upstream does answer; the client still gets the NXDOMAIN response
    alone, and the policy engine gets the resolved address. *)
Example blocked_query_with_cache_hit :
  peek (cache ads_forwarder) 10 ("ads.example.com", A) = Some (ads_answer, 900%Z)
  /\ events (handle_request plain_library answering_net 10 11 (Ok ads_query)
               ads_world).2
     = [SendTo (make_NXDOMAIN_response ads_query);
        UpstreamQuery "8.8.8.8";
        ResponseCb block_ads ["203.0.113.7"]].
Proof. split; by_eval. Qed.

(** *** The TTL of a cached response *)

(** C4 (code defect).  Section 4.2 derives the TTL of an entry from the
    response: the largest TTL among the A rrsets of the answer.  The loop
    of [_add_cache] starts from the default cache TTL and replaces it only
    by a larger TTL of an A rrset (under the comment "use the shorter
    ttl"), so what is stored is the larger of the default and the TTL of
    the section.  For the response with rrsets of TTLs 60 and 300, cached
    at time 1000 by a forwarder with the default of 900 s, the section
    gives the TTL 300 and the deadline 1300; the entry is stored with the
    TTL 900 and the deadline 1900, and at time 1300 the cache still answers
    with it. *)
Theorem add_cache_default_ttl_floor :
  a_ttls (answer two_rrsets) = [60%Z; 300%Z]
  /\ cache_ttl default_forwarder = 900%Z
  /\ spec_entry_ttl (cache_ttl default_forwarder) two_rrsets = 300%Z
  /\ cache_entry_ttl default_forwarder two_rrsets (-1) = 900%Z
  /\ entries
       (cache (_add_cache 1000 "example.com" A two_rrsets (-1) default_forwarder).2)
     = [mkEntry ("example.com", A) (two_rrsets, 900%Z) 1900]
  /\ peek (cache (_add_cache 1000 "example.com" A two_rrsets (-1) default_forwarder).2)
       1300 ("example.com", A)
     = Some (two_rrsets, 900%Z)
  /\ (1900 <> 1000 + spec_entry_ttl (cache_ttl default_forwarder) two_rrsets)%Z
  /\ (forall fw response,
        cache_entry_ttl fw response (-1)
        = Z.max (cache_ttl fw) (spec_entry_ttl (cache_ttl fw) response)).
Proof.
  repeat split; try by_eval.
  - intros H. vm_compute in H. discriminate H.
  - intros fw response. apply cache_entry_ttl_spec.
Qed.

(** *** Responses that are not cached *)

(** C10.  [_add_cache] leaves the forwarder, and so the cache, exactly as
    it was whenever the response's rcode is not NOERROR, whatever TTL is
    passed; this covers the SERVFAIL response [_forward_query] makes when
    every upstream fails, and every NXDOMAIN response. *)
Theorem add_cache_skips_failures (fw : DNSForwarder) (now : Z) (qname : string)
    (qtype : Z) (response : Message) (ttl : Z) :
  rcode response <> NOERROR ->
  _add_cache now qname qtype response ttl fw = (Ok tt, fw)
  /\ (forall net query ups w,
        Forall (fun u => forall m, net query u <> Response m) ups ->
        exists resp,
          (_forward_query net query ups w).1 = Ok resp
          /\ rcode resp = SERVFAIL
          /\ _add_cache now qname qtype resp ttl fw = (Ok tt, fw))
  /\ (forall query,
        _add_cache now qname qtype (make_NXDOMAIN_response query) ttl fw = (Ok tt, fw))
  /\ (forall resp, rcode resp = NXDOMAIN ->
        _add_cache now qname qtype resp ttl fw = (Ok tt, fw)).
Proof.
  assert (Hskip : forall r, rcode r <> NOERROR ->
                            _add_cache now qname qtype r ttl fw = (Ok tt, fw)).
  { intros r Hr. unfold _add_cache. rewrite bool_decide_eq_false_2 by exact Hr.
    reflexivity. }
  intros Hrc. split; [exact (Hskip _ Hrc)|]. split; [|split].
  - intros net query ups w Hall. eexists. split; [apply forward_query_all_fail, Hall|].
    split; [reflexivity|]. apply Hskip. discriminate.
  - intros query. apply Hskip. discriminate.
  - intros resp Hr. apply Hskip. rewrite Hr. discriminate.
Qed.

(** The theorem at the SERVFAIL response to the query for
    ["ads.example.com"]. *)
Lemma add_cache_skips_failures_witness :
  let servfail := set_rcode (make_response ads_query) SERVFAIL in
  _add_cache 10 "ads.example.com" A servfail (-1) ads_forwarder = (Ok tt, ads_forwarder)
  /\ (forall net query ups w,
        Forall (fun u => forall m, net query u <> Response m) ups ->
        exists resp,
          (_forward_query net query ups w).1 = Ok resp
          /\ rcode resp = SERVFAIL
          /\ _add_cache 10 "ads.example.com" A resp (-1) ads_forwarder = (Ok tt, ads_forwarder))
  /\ (forall query,
        _add_cache 10 "ads.example.com" A (make_NXDOMAIN_response query) (-1) ads_forwarder
        = (Ok tt, ads_forwarder))
  /\ (forall resp, rcode resp = NXDOMAIN ->
        _add_cache 10 "ads.example.com" A resp (-1) ads_forwarder = (Ok tt, ads_forwarder)).
Proof.
  apply (add_cache_skips_failures ads_forwarder 10 "ads.example.com" A
           (set_rcode (make_response ads_query) SERVFAIL) (-1)).
  vm_compute. discriminate.
Defined.

(** *** Purging *)

(** C6.  [purge_cache] returns without raising, and afterwards the cache
    answers for a key exactly when it answered before with an entry whose
    TTL is the sentinel [MAX_DNS_TTL], with the same value: every pinned
    entry is kept, every other entry is gone.  The rest of the forwarder
    is untouched.  (The time does not move while the purge runs.) *)
Theorem purge_cache_keeps_exactly_pinned (fw : DNSForwarder) (now : Z) :
  MAX_DNS_TTL = (2 ^ 31 - 1)%Z
  /\ exists fw',
       purge_cache now fw = (Ok tt, fw')
       /\ (forall k v,
             peek (cache fw') now k = Some v
             <-> peek (cache fw) now k = Some v /\ v.2 = MAX_DNS_TTL)
       /\ domain_trie fw' = domain_trie fw
       /\ upstreams fw' = upstreams fw
       /\ cache_ttl fw' = cache_ttl fw.
Proof.
  split; [reflexivity|].
  unfold purge_cache, on_cache, zoom.
  destruct (purge_loop_peek now MAX_DNS_TTL (iter_items (cache fw)) (cache fw))
    as (c' & Hrun & _ & _ & Hpeek).
  rewrite Hrun. eexists. split; [reflexivity|].
  cbn [cache with_cache domain_trie upstreams cache_ttl].
  split; [|repeat split].
  intros k v. rewrite Hpeek.
  assert (Hk : (if decide (k ∈ iter_items (cache fw))
                then keep_pinned MAX_DNS_TTL (peek (cache fw) now k)
                else peek (cache fw) now k)
               = keep_pinned MAX_DNS_TTL (peek (cache fw) now k)).
  { destruct (decide (k ∈ iter_items (cache fw))) as [Hin|Hnin]; [reflexivity|].
    unfold peek, iter_items in *. rewrite (find_entry_None _ _ Hnin). reflexivity. }
  rewrite Hk. unfold keep_pinned.
  destruct (peek (cache fw) now k) as [v'|]; [|split; [discriminate|intros [H _]; discriminate]].
  destruct (bool_decide (v'.2 = MAX_DNS_TTL)) eqn:E.
  - apply bool_decide_eq_true in E. split.
    + intros H. injection H as <-. split; [reflexivity|exact E].
    + intros [H _]. exact H.
  - apply bool_decide_eq_false in E. split; [discriminate|].
    intros [H1 H2]. injection H1 as <-. contradiction.
Qed.

(** A purge at time 10 of a cache with a pinned entry for ["router.my"]
    and an ordinary entry for ["example.com"]. *)
Example purge_mixed_cache :
  map e_key (entries (cache mixed_cache_forwarder))
  = [("router.my", A); ("example.com", A)]
  /\ (purge_cache 10 mixed_cache_forwarder).1 = Ok tt
  /\ map (fun e => (e_key e, (e_value e).2))
         (entries (cache (purge_cache 10 mixed_cache_forwarder).2))
     = [(("router.my", A), MAX_DNS_TTL)].
Proof. repeat split; by_eval. Qed.

End ForwardClaims.

(** ** Live rule edits *)

Module ServiceClaims.
Import Forward PolicyService Scenario.

Lemma add_static_cache_ok lib now statics fw :
  (add_static_cache lib now statics fw).1 = Ok tt.
Proof.
  unfold add_static_cache, try_except.
  destruct (for_each statics (add_one_static lib now) fw) as [[[]|e] fw']; reflexivity.
Qed.

Lemma validate_block domain value :
  PyStr.is_empty domain = false -> _is_valid_domain domain = true ->
  _validate_rule_params "block" domain value = true.
Proof.
  intros Hne Hv. unfold _validate_rule_params. rewrite Hne, Hv. reflexivity.
Qed.

Lemma validate_valued directive domain value :
  PyStr.is_empty domain = false -> _is_valid_domain domain = true ->
  directive ∈ ["route"; "server"; "address"] ->
  _validate_rule_params directive domain value = IpAddress.ip_address_ok value.
Proof.
  intros Hne Hv Hd. unfold _validate_rule_params. rewrite Hne, Hv. cbn [negb orb].
  rewrite !elem_of_cons in Hd.
  destruct Hd as [->|[->|[->|Hd]]]; [reflexivity..|].
  apply elem_of_nil in Hd. contradiction.
Qed.

(** C9, as stated, fails: the value is checked with
    [ipaddress.ip_address], which takes IPv6 literals as well.  ["::1"] is
    no IPv4 literal, and [add_rule] succeeds with it. *)
Lemma add_rule_ipv6_counterexample :
  IpAddress.IPv4Address_ok "::1" = false
  /\ _is_valid_ip "::1" = true
  /\ _validate_rule_params "route" "x.com" "::1" = true
  /\ forall lib,
       (add_rule lib 0 "route" "x.com" "::1" (mkWorld default_forwarder [])).1 = Ok true.
Proof. repeat split; try intros lib; by_eval. Qed.

(** C9 (amended).  REST rule addition, for a valid domain, checks the
    value of the [route], [server] and [address] directives with
    [ipaddress.ip_address], that is as an IPv4 or IPv6 literal: a value
    that is neither makes [add_rule] answer [False] and change nothing,
    and a value that is one never makes it answer [False].  For [block] no
    value is required: every value passes. *)
Theorem add_rule_validates_ip (domain : string) :
  PyStr.is_empty domain = false ->
  _is_valid_domain domain = true ->
  (forall value, _validate_rule_params "block" domain value = true)
  /\ (forall directive value,
        directive ∈ ["route"; "server"; "address"] ->
        _validate_rule_params directive domain value
        = (IpAddress.IPv4Address_ok value || IpAddress.IPv6Address_ok value))
  /\ (forall lib directive value now w,
        directive ∈ ["route"; "server"; "address"] ->
        IpAddress.ip_address_ok value = false ->
        add_rule lib now directive domain value w = (Ok false, w))
  /\ (forall lib directive value now w,
        directive = "block"
        \/ (directive ∈ ["route"; "server"; "address"]
            /\ IpAddress.ip_address_ok value = true) ->
        (add_rule lib now directive domain value w).1 <> Ok false).
Proof.
  intros Hne Hv. split; [|split; [|split]].
  - intros value. apply validate_block; assumption.
  - intros directive value Hd. apply validate_valued; assumption.
  - intros lib directive value now w Hd Hip. unfold add_rule.
    rewrite (validate_valued directive domain value Hne Hv Hd), Hip. reflexivity.
  - intros lib directive value now w Hd.
    assert (Hval : _validate_rule_params directive domain value = true).
    { destruct Hd as [->|[Hd Hip]]; [apply validate_block; assumption|].
      rewrite (validate_valued directive domain value Hne Hv Hd). exact Hip. }
    unfold add_rule. rewrite Hval. cbn [negb].
    unfold mbind at 1, M_bind at 1.
    destruct (run_cow_insert domain (_create_rule_dict directive domain value) w)
      as [[[]|e] w1]; [|discriminate].
    unfold mbind at 1, M_bind at 1.
    destruct (has_key "address" (_create_rule_dict directive domain value)).
    + pose proof (add_static_cache_ok lib now
                    [_create_rule_dict directive domain value] (forwarder w1)) as Hs.
      unfold on_forwarder, zoom.
      destruct (add_static_cache lib now [_create_rule_dict directive domain value]
                  (forwarder w1)) as [r fw']. cbn in Hs. subst r. discriminate.
    + discriminate.
Qed.

(** The theorem at the domain ["x.com"]. *)
Lemma add_rule_validates_ip_witness :
  (forall value, _validate_rule_params "block" "x.com" value = true)
  /\ (forall directive value,
        directive ∈ ["route"; "server"; "address"] ->
        _validate_rule_params directive "x.com" value
        = (IpAddress.IPv4Address_ok value || IpAddress.IPv6Address_ok value))
  /\ (forall lib directive value now w,
        directive ∈ ["route"; "server"; "address"] ->
        IpAddress.ip_address_ok value = false ->
        add_rule lib now directive "x.com" value w = (Ok false, w))
  /\ (forall lib directive value now w,
        directive = "block"
        \/ (directive ∈ ["route"; "server"; "address"]
            /\ IpAddress.ip_address_ok value = true) ->
        (add_rule lib now directive "x.com" value w).1 <> Ok false).
Proof.
  apply (add_rule_validates_ip "x.com"); vm_compute; reflexivity.
Defined.

(** Values [add_rule] turns down, and values it takes. *)
Example add_rule_values :
  map IpAddress.ip_address_ok
    ["10.0.0.1"; "::1"; "fe80::1%eth0"; "::ffff:1.2.3.4"; "1:2:3:4:5:6:7:8";
     "256.1.1.1"; "01.2.3.4"; "1.2.3"; "gateway"; ""; "1::2::3"; "1.2.3.4/24"]
  = [true; true; true; true; true; false; false; false; false; false; false; false]
  /\ (forall lib,
        (add_rule lib 0 "route" "x.com" "gateway" (mkWorld default_forwarder [])).1
        = Ok false)
  /\ (forall lib,
        (add_rule lib 0 "block" "x.com" "" (mkWorld default_forwarder [])).1 = Ok true).
Proof. repeat split; try intros lib; by_eval. Qed.

End ServiceClaims.

(* ===================================================================== *)
(** ** More on the policy store *)
(* ===================================================================== *)

Module TrieMore.
Import Trie TrieFacts Scenario.

(** A rule held by a ["*"] child seen on the way down sits at the path of
    a proper ancestor of the domain, followed by ["*"]. *)
Lemma star_rules_prefix labels n o :
  o ∈ star_rules labels n ->
  exists p q, labels = p ++ q /\ q <> [] /\ rule_at (p ++ ["*"]) n = o.
Proof.
  revert n. induction labels as [|l ls IH]; intros n; cbn [star_rules].
  - intros H. apply elem_of_nil in H. destruct H.
  - intros H. apply elem_of_app in H as [H|H].
    + destruct (children n !! "*") as [w|] eqn:Ew.
      * apply list_elem_of_singleton in H. subst o. exists [], (l :: ls).
        split; [reflexivity|]. split; [discriminate|].
        cbn [app]. rewrite rule_at_cons, Ew. reflexivity.
      * apply elem_of_nil in H. destruct H.
    + destruct (children n !! l) as [c|] eqn:Ec.
      * apply IH in H as (p & q & -> & Hq & Hr). exists (l :: p), q.
        split; [reflexivity|]. split; [exact Hq|].
        change ((l :: p) ++ ["*"]) with (l :: (p ++ ["*"])).
        rewrite rule_at_cons, Ec. exact Hr.
      * apply elem_of_nil in H. destruct H.
Qed.

Lemma root_node_insert t domain r :
  wf t ->
  root_node (insert t domain r) = insert_path (labels_of domain) r (root_node t).
Proof.
  intros Hwf. unfold root_node, insert. cbn [heap root].
  apply list_lookup_total_insert_eq. exact Hwf.
Qed.

Lemma domain_exists_rule_at n domain :
  domain_exists_node n domain = bool_decide (is_Some (rule_at (labels_of domain) n)).
Proof.
  unfold domain_exists_node, rule_at.
  destruct (node_at (labels_of domain) n) as [cur|]; [reflexivity|].
  symmetry. apply bool_decide_eq_false. intros [x Hx]. discriminate Hx.
Qed.

Lemma lookup_empty_domain t : lookup t "" = Raise (ValueError "Domain is empty.").
Proof. reflexivity. Qed.

Lemma lookup_nonempty_ok t domain :
  domain <> EmptyString -> exists r node, lookup t domain = Ok (r, node).
Proof.
  intros Hd.
  destruct (lookup_node_precedence (root_node t) domain Hd) as [path Hp].
  unfold lookup. rewrite Hp. eauto.
Qed.

(** *** Lookup *)

(** X1.  For every trie and every non-empty domain, [lookup] returns
    without raising; the rule it returns is the one stored at the full
    label path of the domain when that rule is a non-empty dict, otherwise
    what the deepest ["*"] child seen on the way down holds when that is a
    non-empty dict, otherwise the empty dict.  The node it returns belongs
    to the tree the root pointer designates. *)
Theorem lookup_follows_precedence (t : DomainTrie) (domain : string) :
  domain <> EmptyString ->
  exists node,
    lookup t domain = Ok (code_precedence (root_node t) (labels_of domain), node)
    /\ ref_addr node = root t
    /\ is_Some (node_at (ref_path node) (root_node t)).
Proof.
  intros Hd.
  destruct (lookup_node_precedence (root_node t) domain Hd) as [path Hp].
  exists (mkNodeRef (root t) path).
  assert (Hl : lookup t domain
               = Ok (code_precedence (root_node t) (labels_of domain),
                     mkNodeRef (root t) path)).
  { unfold lookup. rewrite Hp. reflexivity. }
  split; [exact Hl|]. exact (lookup_ref _ _ _ _ Hl).
Qed.

(** The theorem at the trie of [test/test_trie.py] and a name under its
    wildcard. *)
Lemma lookup_follows_precedence_witness :
  exists node,
    lookup test_trie "www.example.com"
    = Ok (code_precedence (root_node test_trie) (labels_of "www.example.com"), node)
    /\ ref_addr node = root test_trie
    /\ is_Some (node_at (ref_path node) (root_node test_trie)).
Proof. apply (lookup_follows_precedence test_trie "www.example.com"). discriminate. Defined.

(** X2.  A rule [lookup] returns applies to the domain: it is the empty
    dict, or the rule stored at the domain's own label path, or a rule
    stored at ["*"] under a proper ancestor of the domain (["*.p"] for a
    suffix [p] of the domain).  [lookup] never returns a rule of another
    branch of the trie. *)
Theorem lookup_rule_matches_domain (t : DomainTrie) (domain : string) (r : Rule)
    (node : NodeRef) :
  lookup t domain = Ok (r, node) ->
  r = ∅
  \/ rule_at (labels_of domain) (root_node t) = Some r
  \/ exists p q, labels_of domain = p ++ q /\ q <> []
                 /\ rule_at (p ++ ["*"]) (root_node t) = Some r.
Proof.
  intros Hl.
  assert (Hd : domain <> EmptyString).
  { intros ->. discriminate Hl. }
  destruct (lookup_node_precedence (root_node t) domain Hd) as [path Hp].
  unfold lookup in Hl. rewrite Hp in Hl. injection Hl as <- _.
  unfold code_precedence.
  destruct (truthy (rule_at (labels_of domain) (root_node t))) eqn:Ht.
  - apply truthy_Some in Ht as (r & Hr & _). right. left. rewrite Hr. reflexivity.
  - destruct (last (star_rules (labels_of domain) (root_node t))) as [[w|]|] eqn:El;
      cbn; [|left; reflexivity..].
    right. right. apply last_Some_elem_of, star_rules_prefix in El. exact El.
Qed.

Lemma lookup_rule_matches_domain_witness :
  action "route" [("gw", VStr "192.168.1.1")] = ∅
  \/ rule_at (labels_of "www.example.com") (root_node test_trie)
     = Some (action "route" [("gw", VStr "192.168.1.1")])
  \/ exists p q, labels_of "www.example.com" = p ++ q /\ q <> []
                 /\ rule_at (p ++ ["*"]) (root_node test_trie)
                    = Some (action "route" [("gw", VStr "192.168.1.1")]).
Proof.
  apply (lookup_rule_matches_domain test_trie "www.example.com" _
           (mkNodeRef 0 ["com"; "example"])).
  by_eval.
Defined.

(** *** Start-up insertion *)

(** X3.  [insert] stores the rule at the domain's label path of the live
    tree, in place: the root pointer does not move and no other object
    changes, every other rule stays, and a following [lookup] of the
    domain returns the rule (a non-empty dict) with the node at the
    domain's path, whatever wildcard rules the trie holds. *)
Theorem insert_then_lookup (t : DomainTrie) (domain : string) (r : Rule) :
  wf t -> domain <> EmptyString -> r <> ∅ ->
  lookup (insert t domain r) domain = Ok (r, mkNodeRef (root t) (labels_of domain))
  /\ (forall p, p <> labels_of domain ->
        rule_at p (root_node (insert t domain r)) = rule_at p (root_node t))
  /\ root (insert t domain r) = root t
  /\ (forall a, a <> root t -> heap (insert t domain r) !! a = heap t !! a).
Proof.
  intros Hwf Hd Hne. split; [|split; [|split]].
  - unfold lookup. rewrite root_node_insert by exact Hwf.
    rewrite (lookup_node_exact _ domain r Hd); [reflexivity| |exact Hne].
    rewrite rule_at_insert_path, decide_True by reflexivity. reflexivity.
  - intros p Hp. rewrite root_node_insert by exact Hwf.
    rewrite rule_at_insert_path, decide_False by exact Hp. reflexivity.
  - reflexivity.
  - intros a Ha. unfold insert. cbn [heap].
    apply list_lookup_insert_ne. congruence.
Qed.

Lemma insert_then_lookup_witness :
  lookup (insert only_com "example.com" block_example) "example.com"
  = Ok (block_example, mkNodeRef (root only_com) (labels_of "example.com"))
  /\ (forall p, p <> labels_of "example.com" ->
        rule_at p (root_node (insert only_com "example.com" block_example))
        = rule_at p (root_node only_com))
  /\ root (insert only_com "example.com" block_example) = root only_com
  /\ (forall a, a <> root only_com ->
        heap (insert only_com "example.com" block_example) !! a = heap only_com !! a).
Proof.
  apply (insert_then_lookup only_com "example.com" block_example).
  - vm_compute. lia.
  - discriminate.
  - intros H. apply (f_equal (fun m : Rule => m !! "domain")) in H. vm_compute in H.
    discriminate H.
Defined.

(** *** Run-time insertion *)

(** X4.  When [lookup] finds no rule for the domain, [cow_insert] of a
    non-empty rule does not call the update callback and publishes a new
    tree in which the rule sits at the domain's path and every other rule
    is as before; the tree that was live before is left untouched, and a
    following [lookup] of the domain returns the inserted rule. *)
Theorem cow_insert_fresh_then_lookup (t : DomainTrie) (domain : string) (rule : Rule)
    (node : NodeRef) :
  wf t -> rule <> ∅ ->
  lookup t domain = Ok (∅, node) ->
  exists t',
    cow_insert t domain rule = (Ok tt, t', [])
    /\ lookup t' domain = Ok (rule, mkNodeRef (root t') (labels_of domain))
    /\ cow_step t t'
    /\ heap t' !!! root t = root_node t
    /\ (forall p, p <> labels_of domain ->
          rule_at p (root_node t') = rule_at p (root_node t)).
Proof.
  intros Hwf Hne Hl.
  assert (Hd : domain <> EmptyString).
  { intros ->. discriminate Hl. }
  unfold cow_insert. rewrite Hl. cbn [truthy].
  rewrite bool_decide_eq_true_2 by reflexivity. cbn [negb]. unfold deepcopy.
  eexists. split; [reflexivity|].
  split; [|split; [|split]].
  - unfold lookup. rewrite root_node_swap_root.
    rewrite (lookup_node_exact _ domain rule Hd); [reflexivity| |exact Hne].
    rewrite rule_at_insert_path, decide_True by reflexivity. reflexivity.
  - apply swap_root_cow_step.
  - apply (cow_step_snapshot t); [apply swap_root_cow_step|exact Hwf].
  - intros p Hp. rewrite root_node_swap_root.
    rewrite rule_at_insert_path, decide_False by exact Hp. reflexivity.
Qed.

Lemma cow_insert_fresh_then_lookup_witness :
  exists t',
    cow_insert DomainTrie_new "*.com" route_com = (Ok tt, t', [])
    /\ lookup t' "*.com" = Ok (route_com, mkNodeRef (root t') (labels_of "*.com"))
    /\ cow_step DomainTrie_new t'
    /\ heap t' !!! root DomainTrie_new = root_node DomainTrie_new
    /\ (forall p, p <> labels_of "*.com" ->
          rule_at p (root_node t') = rule_at p (root_node DomainTrie_new)).
Proof.
  apply (cow_insert_fresh_then_lookup DomainTrie_new "*.com" route_com (mkNodeRef 0 [])).
  - vm_compute. lia.
  - intros H. apply (f_equal (fun m : Rule => m !! "domain")) in H. vm_compute in H.
    discriminate H.
  - by_eval.
Defined.

(** The merge [_cow_update] makes: the entries of the new rule win, and
    every other key but a dropped [block] or [route] keeps its value. *)
Lemma merged_rule_new_wins existing_rule rule k v :
  rule !! k = Some v -> merged_rule existing_rule rule !! k = Some v.
Proof.
  intros H. unfold merged_rule, dict_update. apply lookup_union_Some_l. exact H.
Qed.

Lemma merged_rule_keeps existing_rule rule k :
  rule !! k = None -> k <> "block" -> k <> "route" ->
  merged_rule existing_rule rule !! k = existing_rule !! k.
Proof.
  intros H Hb Hr. unfold merged_rule, dict_update, deepcopy.
  rewrite lookup_union_r by exact H.
  destruct (conflict_of existing_rule rule); [| |reflexivity].
  - apply lookup_delete_ne. congruence.
  - apply lookup_delete_ne. congruence.
Qed.

(** X5.  When a non-empty rule is stored at exactly the domain,
    [cow_insert] (the update callback, if it is called, returning
    normally) replaces it in place, in the live tree, by the merge of the
    two, and a following [lookup] of the domain returns the merge: every
    entry of the new rule is in it, every other key of the old rule but
    [block] and [route] keeps its value, and the merge of two rules that
    keep [block] and [route] apart keeps them apart. *)
Theorem cow_insert_update_then_lookup (t : DomainTrie) (domain : string)
    (rule existing_rule : Rule) :
  wf t -> domain <> EmptyString ->
  rule_at (labels_of domain) (root_node t) = Some existing_rule ->
  existing_rule <> ∅ ->
  (run_update_cb t existing_rule rule).1 = Ok tt ->
  exists t' calls new_rule,
    cow_insert t domain rule = (Ok tt, t', calls)
    /\ lookup t' domain = Ok (new_rule, mkNodeRef (root t) (labels_of domain))
    /\ root t' = root t
    /\ (forall k v, rule !! k = Some v -> new_rule !! k = Some v)
    /\ (forall k, rule !! k = None -> k <> "block" -> k <> "route" ->
          new_rule !! k = existing_rule !! k)
    /\ (exclusive existing_rule = true -> exclusive rule = true ->
        exclusive new_rule = true).
Proof.
  intros Hwf Hd Hr Hne Hcb.
  pose proof (lookup_node_exact _ _ _ Hd Hr Hne) as Hl.
  unfold cow_insert, lookup. rewrite Hl.
  rewrite (truthy_nonempty _ Hne). unfold _cow_update.
  destruct (run_update_cb t existing_rule rule) as [r cs]. cbn in Hcb. subst r.
  eexists _, cs, (merged_rule existing_rule rule). split; [reflexivity|].
  split; [|split; [reflexivity|split; [|split]]].
  - rewrite root_node_assign_rule by exact Hwf.
    rewrite (lookup_node_exact _ domain (merged_rule existing_rule rule) Hd);
      [reflexivity| |apply merged_rule_nonempty, Hne].
    rewrite rule_at_set_rule, decide_True by (reflexivity || (unfold rule_at in Hr;
      destruct (node_at (labels_of domain) (root_node t)); [eauto|discriminate])).
    reflexivity.
  - intros k v. apply merged_rule_new_wins.
  - intros k. apply merged_rule_keeps.
  - apply merged_rule_exclusive.
Qed.

Lemma cow_insert_update_then_lookup_witness :
  exists t' calls new_rule,
    cow_insert only_com "*.com" route_com_2 = (Ok tt, t', calls)
    /\ lookup t' "*.com" = Ok (new_rule, mkNodeRef (root only_com) (labels_of "*.com"))
    /\ root t' = root only_com
    /\ (forall k v, route_com_2 !! k = Some v -> new_rule !! k = Some v)
    /\ (forall k, route_com_2 !! k = None -> k <> "block" -> k <> "route" ->
          new_rule !! k = route_com !! k)
    /\ (exclusive route_com = true -> exclusive route_com_2 = true ->
        exclusive new_rule = true).
Proof.
  apply (cow_insert_update_then_lookup only_com "*.com" route_com_2 route_com).
  - vm_compute. lia.
  - discriminate.
  - by_eval.
  - intros H. apply (f_equal (fun m : Rule => m !! "domain")) in H. vm_compute in H.
    discriminate H.
  - reflexivity.
Defined.

(** X6.  With an update callback registered, a [cow_insert] that turns the
    [block] rule stored at the domain into a [route] rule awaits the
    callback once, with the stored rule's domain, the actions ["block"]
    and ["route"], an empty old value and the new next hop, before it
    touches the rule: when the callback raises, the exception leaves
    [cow_insert] and the trie is as it was; when the stored rule has no
    ["domain"] entry, [KeyError] is raised before any call.  The turn from
    [route] to [block] is the mirror image, with the old next hop as old
    value.  Without a conflict the callback is not called. *)
Theorem cow_insert_awaits_callback_first (t : DomainTrie) (domain : string)
    (rule existing_rule : Rule) (cb : UpdateCall -> result unit) :
  wf t -> domain <> EmptyString ->
  rule_at (labels_of domain) (root_node t) = Some existing_rule ->
  existing_rule <> ∅ ->
  update_cb t = Some cb ->
  let node := mkNodeRef (root t) (labels_of domain) in
  let updated := assign_rule t node (Some (merged_rule existing_rule rule)) in
  (forall d v,
     has_key "block" existing_rule = true ->
     existing_rule !! "domain" = Some d -> rule !! "route" = Some v ->
     let call := mkUpdateCall d "block" "route" (VStr "") v in
     cow_insert t domain rule
     = match cb call with
       | Ok _ => (Ok tt, updated, [call])
       | Raise e => (Raise e, t, [call])
       end)
  /\ (forall d v,
        has_key "block" existing_rule && has_key "route" rule = false ->
        has_key "block" rule = true ->
        existing_rule !! "domain" = Some d -> existing_rule !! "route" = Some v ->
        let call := mkUpdateCall d "route" "block" v (VStr "") in
        cow_insert t domain rule
        = match cb call with
          | Ok _ => (Ok tt, updated, [call])
          | Raise e => (Raise e, t, [call])
          end)
  /\ (has_key "block" existing_rule = true -> has_key "route" rule = true ->
      existing_rule !! "domain" = None ->
      cow_insert t domain rule = (Raise (KeyError "domain"), t, []))
  /\ (conflict_of existing_rule rule = NoConflict ->
      cow_insert t domain rule = (Ok tt, updated, [])).
Proof.
  intros Hwf Hd Hr Hne Hcb node updated.
  pose proof (lookup_node_exact _ _ _ Hd Hr Hne) as Hl.
  assert (Hrun : cow_insert t domain rule
                 = match run_update_cb t existing_rule rule with
                   | (Raise e, calls) => (Raise e, t, calls)
                   | (Ok _, calls) => (Ok tt, updated, calls)
                   end).
  { unfold cow_insert, lookup. rewrite Hl. rewrite (truthy_nonempty _ Hne).
    reflexivity. }
  rewrite Hrun. unfold run_update_cb. rewrite Hcb.
  split; [|split; [|split]].
  - intros d v Hb Hdom Hroute.
    assert (Hk : has_key "route" rule = true).
    { apply bool_decide_eq_true. rewrite Hroute. eauto. }
    unfold conflict_of. rewrite Hb, Hk. cbn [andb update_call].
    unfold getitem. rewrite Hdom, Hroute.
    destruct (cb _); reflexivity.
  - intros d v Hnot Hb Hdom Hroute.
    assert (Hk : has_key "route" existing_rule = true).
    { apply bool_decide_eq_true. rewrite Hroute. eauto. }
    unfold conflict_of. rewrite Hnot, Hk, Hb. cbn [andb update_call].
    unfold getitem. rewrite Hdom, Hroute.
    destruct (cb _); reflexivity.
  - intros Hb Hk Hdom.
    unfold conflict_of. rewrite Hb, Hk. cbn [andb update_call].
    unfold getitem. rewrite Hdom. reflexivity.
  - intros Hc. rewrite Hc. reflexivity.
Qed.

Lemma cow_insert_awaits_callback_first_witness :
  let t := add_update_cb only_com (fun _ => Raise (Exception "controller")) in
  let cb : UpdateCall -> result unit := fun _ => Raise (Exception "controller") in
  let rule := PolicyService._create_rule_dict "block" "*.com" "" in
  let node := mkNodeRef (root t) (labels_of "*.com") in
  let updated := assign_rule t node (Some (merged_rule route_com rule)) in
  (forall d v,
     has_key "block" route_com = true ->
     route_com !! "domain" = Some d -> rule !! "route" = Some v ->
     let call := mkUpdateCall d "block" "route" (VStr "") v in
     cow_insert t "*.com" rule
     = match cb call with
       | Ok _ => (Ok tt, updated, [call])
       | Raise e => (Raise e, t, [call])
       end)
  /\ (forall d v,
        has_key "block" route_com && has_key "route" rule = false ->
        has_key "block" rule = true ->
        route_com !! "domain" = Some d -> route_com !! "route" = Some v ->
        let call := mkUpdateCall d "route" "block" v (VStr "") in
        cow_insert t "*.com" rule
        = match cb call with
          | Ok _ => (Ok tt, updated, [call])
          | Raise e => (Raise e, t, [call])
          end)
  /\ (has_key "block" route_com = true -> has_key "route" rule = true ->
      route_com !! "domain" = None ->
      cow_insert t "*.com" rule = (Raise (KeyError "domain"), t, []))
  /\ (conflict_of route_com rule = NoConflict ->
      cow_insert t "*.com" rule = (Ok tt, updated, [])).
Proof.
  intros t cb rule.
  apply (cow_insert_awaits_callback_first t "*.com" rule route_com cb).
  - vm_compute. lia.
  - discriminate.
  - by_eval.
  - intros H. apply (f_equal (fun m : Rule => m !! "domain")) in H. vm_compute in H.
    discriminate H.
  - reflexivity.
Defined.

(** *** Removal *)

Lemma has_key_dom k (r : Rule) : has_key k r = true <-> k ∈ dom r.
Proof.
  unfold has_key. rewrite bool_decide_eq_true. symmetry. apply elem_of_dom.
Qed.

Lemma no_remaining_keys_delete d (r : Rule) :
  no_remaining_keys (delete d r) = true
  <-> forall k, has_key k r = true -> k = d \/ k = "domain" \/ k = "dbr".
Proof.
  unfold no_remaining_keys. rewrite bool_decide_eq_true, dom_delete_L. split.
  - intros H k Hk. apply has_key_dom in Hk.
    destruct (decide (k = d)) as [->|Hne]; [left; reflexivity|right].
    destruct (decide (k = "domain")) as [->|Hne1]; [left; reflexivity|right].
    destruct (decide (k = "dbr")) as [->|Hne2]; [reflexivity|exfalso].
    assert (Hin : k ∈ (dom r ∖ {[d]}) ∖ ({["domain"; "dbr"]} : gset string)).
    { apply elem_of_difference. split.
      - apply elem_of_difference. split; [exact Hk|].
        rewrite elem_of_singleton. exact Hne.
      - rewrite elem_of_union, !elem_of_singleton. intros [?|?]; congruence. }
    rewrite H in Hin. apply elem_of_empty in Hin. exact Hin.
  - intros H. apply set_eq. intros k. split.
    + intros Hin. apply elem_of_difference in Hin as [Hin Hnot].
      apply elem_of_difference in Hin as [Hin Hd]. rewrite elem_of_singleton in Hd.
      apply has_key_dom in Hin. exfalso.
      destruct (H k Hin) as [->|[->| ->]]; [congruence| |];
        apply Hnot; rewrite elem_of_union, !elem_of_singleton; auto.
    + intros Hin. apply elem_of_empty in Hin. destruct Hin.
Qed.

(** X7.  [cow_remove] without a directive, for a domain that has a rule,
    returns [True] and publishes a new tree in which the rule of the
    domain is gone and every other rule is as before; no node is removed,
    the node of the domain stays without a rule.  The tree that was live
    before is untouched.  Afterwards the domain is not in the trie, so
    removing it a second time raises. *)
Theorem cow_remove_then_gone (t : DomainTrie) (domain : string) :
  _domain_exits t domain = true ->
  exists t',
    cow_remove t domain None = (Ok true, t')
    /\ cow_step t t'
    /\ rule_at (labels_of domain) (root_node t') = None
    /\ (forall p, p <> labels_of domain ->
          rule_at p (root_node t') = rule_at p (root_node t))
    /\ (forall p, is_Some (node_at p (root_node t')) <-> is_Some (node_at p (root_node t)))
    /\ _domain_exits t' domain = false
    /\ forall directive,
         cow_remove t' domain directive
         = (Raise (Exception (domain +:+ " is not found in the trie")), t').
Proof.
  intros He. unfold cow_remove. rewrite He. cbn [negb]. unfold deepcopy.
  pose proof He as He'. unfold _domain_exits, domain_exists_node in He'.
  destruct (node_at (labels_of domain) (root_node t)) as [cur|] eqn:En; [|discriminate].
  apply bool_decide_eq_true in He' as [r Hr]. rewrite Hr.
  eexists. split; [reflexivity|].
  assert (Hn : is_Some (node_at (labels_of domain) (root_node t))) by (rewrite En; eauto).
  assert (Hgone :
    rule_at (labels_of domain)
      (root_node (swap_root t (set_rule (labels_of domain) None (root_node t)))) = None).
  { rewrite root_node_swap_root, rule_at_set_rule, decide_True by (reflexivity || exact Hn).
    reflexivity. }
  assert (Hex :
    _domain_exits (swap_root t (set_rule (labels_of domain) None (root_node t))) domain
    = false).
  { unfold _domain_exits. rewrite domain_exists_rule_at, Hgone.
    apply bool_decide_eq_false. intros [x Hx]. discriminate Hx. }
  split; [apply swap_root_cow_step|].
  split; [exact Hgone|].
  split.
  { intros p Hp. rewrite root_node_swap_root, rule_at_set_rule, decide_False
      by (exact Hp || exact Hn). reflexivity. }
  split.
  { intros p. rewrite root_node_swap_root. apply node_at_set_rule_is_Some. }
  split; [exact Hex|].
  intros directive. rewrite Hex. reflexivity.
Qed.

Lemma cow_remove_then_gone_witness :
  exists t',
    cow_remove two_wildcards "*.example.com" None = (Ok true, t')
    /\ cow_step two_wildcards t'
    /\ rule_at (labels_of "*.example.com") (root_node t') = None
    /\ (forall p, p <> labels_of "*.example.com" ->
          rule_at p (root_node t') = rule_at p (root_node two_wildcards))
    /\ (forall p, is_Some (node_at p (root_node t'))
                  <-> is_Some (node_at p (root_node two_wildcards)))
    /\ _domain_exits t' "*.example.com" = false
    /\ forall directive,
         cow_remove t' "*.example.com" directive
         = (Raise (Exception ("*.example.com" +:+ " is not found in the trie")), t').
Proof. apply (cow_remove_then_gone two_wildcards "*.example.com"). by_eval. Defined.

(** X8.  [cow_remove] with a directive, for a domain that has a rule:
    when the rule has no such key, the answer is [False] and the trie is
    as it was; when it has, the answer is [True] and the new tree holds
    the rule without that key, or no rule at all for the domain when no
    key but ["domain"] and ["dbr"] would be left.  Every other rule is as
    before and the tree that was live before is untouched. *)
Theorem cow_remove_directive (t : DomainTrie) (domain d : string) (r : Rule) :
  rule_at (labels_of domain) (root_node t) = Some r ->
  if has_key d r
  then exists t',
         cow_remove t domain (Some d) = (Ok true, t')
         /\ cow_step t t'
         /\ rule_at (labels_of domain) (root_node t')
            = (if no_remaining_keys (delete d r) then None else Some (delete d r))
         /\ (forall p, p <> labels_of domain ->
               rule_at p (root_node t') = rule_at p (root_node t))
         /\ (no_remaining_keys (delete d r) = true
             <-> forall k, has_key k r = true -> k = d \/ k = "domain" \/ k = "dbr")
  else cow_remove t domain (Some d) = (Ok false, t).
Proof.
  intros Hr. unfold cow_remove.
  assert (He : _domain_exits t domain = true).
  { unfold _domain_exits. rewrite domain_exists_rule_at, Hr.
    apply bool_decide_eq_true. eauto. }
  rewrite He. cbn [negb]. unfold deepcopy.
  pose proof Hr as Hr'. unfold rule_at in Hr'.
  destruct (node_at (labels_of domain) (root_node t)) as [cur|] eqn:En; [|discriminate].
  rewrite Hr'.
  assert (Hn : is_Some (node_at (labels_of domain) (root_node t))) by (rewrite En; eauto).
  destruct (has_key d r); [|reflexivity].
  eexists. split; [reflexivity|].
  split; [apply swap_root_cow_step|].
  split.
  { rewrite root_node_swap_root, rule_at_set_rule, decide_True by (reflexivity || exact Hn).
    reflexivity. }
  split.
  { intros p Hp. rewrite root_node_swap_root, rule_at_set_rule, decide_False
      by (exact Hp || exact Hn). reflexivity. }
  apply no_remaining_keys_delete.
Qed.

(** The theorem at the removal of [route] from the rule of ["*.com"],
    which leaves only ["domain"] and ["dbr"]. *)
Lemma cow_remove_directive_witness :
  if has_key "route" route_com
  then exists t',
         cow_remove only_com "*.com" (Some "route") = (Ok true, t')
         /\ cow_step only_com t'
         /\ rule_at (labels_of "*.com") (root_node t')
            = (if no_remaining_keys (delete "route" route_com) then None
               else Some (delete "route" route_com))
         /\ (forall p, p <> labels_of "*.com" ->
               rule_at p (root_node t') = rule_at p (root_node only_com))
         /\ (no_remaining_keys (delete "route" route_com) = true
             <-> forall k, has_key k route_com = true ->
                           k = "route" \/ k = "domain" \/ k = "dbr")
  else cow_remove only_com "*.com" (Some "route") = (Ok false, only_com).
Proof. apply (cow_remove_directive only_com "*.com" "route" route_com). by_eval. Defined.

(** *** Purging *)

Lemma lookup_node_new domain :
  domain <> EmptyString -> lookup_node TrieNode_new domain = Ok (∅, []).
Proof.
  intros Hd. unfold lookup_node.
  destruct domain as [|a s]; [congruence|]. cbn [PyStr.is_empty].
  pose proof (labels_of_nonempty (String a s)) as Hne.
  destruct (labels_of (String a s)) as [|l ls]; [congruence|].
  reflexivity.
Qed.

(** X9.  [purge_trie] swaps in an empty tree: afterwards [lookup] returns
    the empty rule for every non-empty domain and no domain is in the
    trie, so every [cow_remove] raises.  The tree that was live before is
    untouched, and the registered update callback stays registered. *)
Theorem purge_trie_empties (t : DomainTrie) (domain : string) :
  domain <> EmptyString ->
  lookup (purge_trie t) domain = Ok (∅, mkNodeRef (root (purge_trie t)) [])
  /\ _domain_exits (purge_trie t) domain = false
  /\ (forall directive, (cow_remove (purge_trie t) domain directive).1
        = Raise (Exception (domain +:+ " is not found in the trie")))
  /\ cow_step t (purge_trie t)
  /\ update_cb (purge_trie t) = update_cb t.
Proof.
  intros Hd.
  assert (He : _domain_exits (purge_trie t) domain = false).
  { unfold _domain_exits, purge_trie. rewrite root_node_swap_root, domain_exists_rule_at.
    rewrite rule_at_new. apply bool_decide_eq_false. intros [x Hx]. discriminate Hx. }
  split; [|split; [exact He|split; [|split]]].
  - unfold lookup, purge_trie. rewrite root_node_swap_root, lookup_node_new by exact Hd.
    reflexivity.
  - intros directive. unfold cow_remove. rewrite He. reflexivity.
  - apply swap_root_cow_step.
  - reflexivity.
Qed.

Lemma purge_trie_empties_witness :
  lookup (purge_trie test_trie) "example.com"
  = Ok (∅, mkNodeRef (root (purge_trie test_trie)) [])
  /\ _domain_exits (purge_trie test_trie) "example.com" = false
  /\ (forall directive, (cow_remove (purge_trie test_trie) "example.com" directive).1
        = Raise (Exception ("example.com" +:+ " is not found in the trie")))
  /\ cow_step test_trie (purge_trie test_trie)
  /\ update_cb (purge_trie test_trie) = update_cb test_trie.
Proof. apply (purge_trie_empties test_trie "example.com"). discriminate. Defined.

End TrieMore.

(* ===================================================================== *)
(** ** More on the forwarder *)
(* ===================================================================== *)

Module ForwardMore.
Import Dns Cache Forward CacheFacts PurgeFacts ForwardFacts Scenario.

(** *** Upstreams *)

Lemma forward_query_first net query pre u post r w :
  Forall (fun u' => forall m, net query u' <> Response m) pre ->
  net query u = Response r ->
  _forward_query net query (pre ++ u :: post) w
  = (Ok r, mkWorld (forwarder w) (events w ++ map UpstreamQuery (pre ++ [u]))).
Proof.
  intros Hpre Hu. revert w. induction pre as [|u0 pre IH]; intros w.
  - cbn [app _forward_query]. unfold mbind, M_bind, emit. rewrite Hu. reflexivity.
  - apply Forall_cons in Hpre as [H0 Hpre]. specialize (IH Hpre).
    cbn [app _forward_query]. unfold mbind at 1, M_bind at 1, emit at 1.
    assert (Hstep : forall w1,
      match net query u0 with
      | Response r0 => mret r0
      | TimeoutError | UdpError => _forward_query net query (pre ++ u :: post)
      end w1 = _forward_query net query (pre ++ u :: post) w1).
    { intros w1. destruct (net query u0) as [m| |]; [|reflexivity..].
      exfalso. exact (H0 m eq_refl). }
    rewrite Hstep, IH. cbn [forwarder events map].
    rewrite <- app_assoc. reflexivity.
Qed.

Lemma forward_query_none net query ups w :
  Forall (fun u' => forall m, net query u' <> Response m) ups ->
  _forward_query net query ups w
  = (Ok (set_rcode (make_response query) SERVFAIL),
     mkWorld (forwarder w) (events w ++ map UpstreamQuery ups)).
Proof.
  intros Hall. revert w. induction ups as [|u0 ups IH]; intros w.
  - cbn [_forward_query map]. rewrite app_nil_r. destruct w. reflexivity.
  - apply Forall_cons in Hall as [H0 Hall]. specialize (IH Hall).
    cbn [_forward_query]. unfold mbind at 1, M_bind at 1, emit at 1.
    assert (Hstep : forall w1,
      match net query u0 with
      | Response r0 => mret r0
      | TimeoutError | UdpError => _forward_query net query ups
      end w1 = _forward_query net query ups w1).
    { intros w1. destruct (net query u0) as [m| |]; [|reflexivity..].
      exfalso. exact (H0 m eq_refl). }
    rewrite Hstep, IH. cbn [forwarder events map].
    rewrite <- app_assoc. reflexivity.
Qed.

(** [_forward_query] returns a response in every case, asks upstreams
    only, and leaves the forwarder alone. *)
Lemma forward_query_shape net query ups :
  exists resp asked, forall w,
    _forward_query net query ups w
    = (Ok resp, mkWorld (forwarder w) (events w ++ map UpstreamQuery asked)).
Proof.
  induction ups as [|u0 ups IH].
  - exists (set_rcode (make_response query) SERVFAIL), []. intros w.
    cbn [_forward_query map]. rewrite app_nil_r. destruct w. reflexivity.
  - destruct IH as (resp & asked & IH).
    destruct (net query u0) as [m| |] eqn:E.
    + exists m, [u0]. intros w. cbn [_forward_query].
      unfold mbind at 1, M_bind at 1, emit at 1. rewrite E. reflexivity.
    + exists resp, (u0 :: asked). intros w. cbn [_forward_query].
      unfold mbind at 1, M_bind at 1, emit at 1. rewrite E, IH.
      cbn [forwarder events map]. rewrite <- app_assoc. reflexivity.
    + exists resp, (u0 :: asked). intros w. cbn [_forward_query].
      unfold mbind at 1, M_bind at 1, emit at 1. rewrite E, IH.
      cbn [forwarder events map]. rewrite <- app_assoc. reflexivity.
Qed.

(** X10.  [_forward_query] asks the upstreams in the order of the list and
    stops at the first that answers: when the upstreams of a prefix of the
    list all time out or fail, the answer of the next one is returned and
    the upstreams after it are never asked; when that prefix is the whole
    list, every upstream was asked once and a SERVFAIL response made from
    the query is returned.  The forwarder is left as it is. *)
Theorem forward_query_first_answer_wins (net : Message -> string -> UdpOutcome)
    (query : Message) (pre : list string) (w : World) :
  Forall (fun u => forall m, net query u <> Response m) pre ->
  (forall u post r,
     net query u = Response r ->
     _forward_query net query (pre ++ u :: post) w
     = (Ok r, mkWorld (forwarder w) (events w ++ map UpstreamQuery (pre ++ [u]))))
  /\ _forward_query net query pre w
     = (Ok (set_rcode (make_response query) SERVFAIL),
        mkWorld (forwarder w) (events w ++ map UpstreamQuery pre)).
Proof.
  intros Hpre. split.
  - intros u post r Hu. apply forward_query_first; assumption.
  - apply forward_query_none. exact Hpre.
Qed.

(** The theorem at a list whose first upstream times out. *)
Lemma forward_query_first_answer_wins_witness :
  (forall u post r,
     second_answers ads_query u = Response r ->
     _forward_query second_answers ads_query (["8.8.8.8"] ++ u :: post) ads_world
     = (Ok r, mkWorld (forwarder ads_world)
                (events ads_world ++ map UpstreamQuery (["8.8.8.8"] ++ [u]))))
  /\ _forward_query second_answers ads_query ["8.8.8.8"] ads_world
     = (Ok (set_rcode (make_response ads_query) SERVFAIL),
        mkWorld (forwarder ads_world)
          (events ads_world ++ map UpstreamQuery ["8.8.8.8"])).
Proof.
  apply (forward_query_first_answer_wins second_answers ads_query ["8.8.8.8"] ads_world).
  constructor; [intros m H; vm_compute in H; discriminate H|constructor].
Defined.

(** *** The paths of [handle_request] *)

Lemma on_forwarder_on_cache_run {A} (m : M TLRUCache A) w :
  on_forwarder (on_cache m) w
  = ((m (cache (forwarder w))).1,
     mkWorld (with_cache (forwarder w) (m (cache (forwarder w))).2) (events w)).
Proof.
  unfold on_forwarder, on_cache, zoom.
  destruct (m (cache (forwarder w))); reflexivity.
Qed.

Lemma get_miss now k c : peek c now k = None -> get now k c = (Ok None, c).
Proof.
  unfold peek, get, contains.
  destruct (find_entry k (entries c)) as [e|]; [|reflexivity].
  destruct (live now e); [discriminate|reflexivity].
Qed.

Lemma get_hit now k c v :
  peek c now k = Some v ->
  exists c', get now k c = (Ok (Some v), c')
             /\ forall k', peek c' now k' = peek c now k'.
Proof.
  intros Hp. pose proof (get_peek now k c) as H1.
  pose proof (get_keeps now k c) as H2.
  destruct (get now k c) as [r c']. cbn [fst snd] in H1, H2.
  exists c'. rewrite H1, Hp. split; [reflexivity|exact H2].
Qed.

Lemma with_cache_same fw : with_cache fw (cache fw) = fw.
Proof. destruct fw. reflexivity. Qed.

Lemma world_same w : mkWorld (forwarder w) (events w) = w.
Proof. destruct w. reflexivity. Qed.

Lemma setitem_ok now k v c :
  (1 <= maxsize c)%Z -> (setitem now k v c).1 = Ok tt.
Proof.
  intros Hm. unfold setitem.
  destruct (negb (now <? ttu c k v now)%Z); [reflexivity|].
  cbn [expire with_entries maxsize].
  destruct (1 >? maxsize c)%Z eqn:E; [|reflexivity].
  apply Z.gtb_lt in E. lia.
Qed.

Lemma add_cache_ok now qname qtype resp ttl fw :
  (1 <= maxsize (cache fw))%Z ->
  (_add_cache now qname qtype resp ttl fw).1 = Ok tt.
Proof.
  intros Hm. unfold _add_cache.
  destruct (negb (bool_decide (rcode resp = NOERROR))); [reflexivity|].
  unfold on_cache, zoom.
  pose proof (setitem_ok now (qname, qtype) (resp, cache_entry_ttl fw resp ttl) _ Hm) as H.
  destruct (setitem now (qname, qtype) (resp, cache_entry_ttl fw resp ttl) (cache fw)).
  exact H.
Qed.

(** X11.  An AAAA query for a non-empty name is answered at once with the
    empty NOERROR response made from the query: no upstream is asked, the
    policy engine is not called, and the forwarder, its cache included,
    is left as it is. *)
Theorem aaaa_query_gets_empty_answer (lib : Library)
    (net : Message -> string -> UdpOutcome)
    (now now' : Z) (query : Message) (q : Question) (qs : list Question) (w : World) :
  question query = q :: qs ->
  q_rdtype q = AAAA ->
  canonical_name (q_name q) <> EmptyString ->
  handle_request lib net now now' (Ok query) w
  = (Ok tt, mkWorld (forwarder w) (events w ++ [SendTo (make_response query)]))
  /\ answer (make_response query) = []
  /\ rcode (make_response query) = NOERROR
  /\ id (make_response query) = id query.
Proof.
  intros Hq Hty Hd. split; [|repeat split].
  destruct (TrieMore.lookup_nonempty_ok (domain_trie (forwarder w))
              (canonical_name (q_name q)) Hd) as (r & node & Hl).
  start_request Hq Hl.
  rewrite bool_decide_eq_true_2 by exact Hty. reflexivity.
Qed.

Lemma aaaa_query_gets_empty_answer_witness :
  handle_request plain_library answering_net 10 11 (Ok aaaa_query) ads_world
  = (Ok tt, mkWorld (forwarder ads_world)
              (events ads_world ++ [SendTo (make_response aaaa_query)]))
  /\ answer (make_response aaaa_query) = []
  /\ rcode (make_response aaaa_query) = NOERROR
  /\ id (make_response aaaa_query) = id aaaa_query.
Proof.
  apply (aaaa_query_gets_empty_answer plain_library answering_net 10 11 aaaa_query
           (mkQuestion "ads.example.com." AAAA) [] ads_world).
  - reflexivity.
  - reflexivity.
  - vm_compute. discriminate.
Defined.

(** X12.  A datagram that does not parse, a query without a question, and
    a query for the root name (an empty name once the trailing dot is
    gone) get no answer: [handle_request] raises, nothing is sent, no
    upstream is asked and the forwarder is left as it is. *)
Theorem malformed_request_gets_no_answer (lib : Library)
    (net : Message -> string -> UdpOutcome)
    (now now' : Z) (data : result Message) (w : World) :
  match data with
  | Raise _ => True
  | Ok query =>
      match question query with
      | [] => True
      | q :: _ => canonical_name (q_name q) = EmptyString
      end
  end ->
  exists e, handle_request lib net now now' data w = (Raise e, w).
Proof.
  intros H. unfold handle_request. unfold mbind at 1, M_bind at 1, lift_result at 1.
  destruct data as [query|e]; [|exists e; reflexivity].
  destruct (question query) as [|q qs].
  - eexists. reflexivity.
  - unfold mbind at 1, M_bind at 1. cbn [mret M_ret].
    unfold mbind at 1, M_bind at 1, get_state at 1.
    rewrite H. unfold mbind at 1, M_bind at 1, lift_result at 1.
    eexists. reflexivity.
Qed.

Lemma malformed_request_gets_no_answer_witness :
  exists e,
    handle_request plain_library answering_net 10 11
      (Ok (mkMessage 1 [mkQuestion "." A] NOERROR [])) ads_world
    = (Raise e, ads_world).
Proof.
  apply (malformed_request_gets_no_answer plain_library answering_net 10 11
           (Ok (mkMessage 1 [mkQuestion "." A] NOERROR [])) ads_world).
  reflexivity.
Defined.

(** X13.  A query of a type other than AAAA whose name has no [block] rule
    and whose key has a live cache entry is answered from the cache: the
    one message sent is what the library reads back from the wire form of
    the cached response ([from_wire(cached.to_wire())], in which the
    rrsets of one owner and type are one rrset with the smallest TTL),
    with the id of the query; no upstream is asked and the policy engine
    is not called, even for a [route] rule.  The cache answers every key
    as before and the trie is untouched. *)
Theorem cache_hit_is_answered_from_cache (lib : Library)
    (net : Message -> string -> UdpOutcome)
    (now now' : Z) (query : Message) (q : Question) (qs : list Question) (w : World)
    (rule : Rule) (node : Trie.NodeRef) (cached : CacheValue) :
  question query = q :: qs ->
  q_rdtype q <> AAAA ->
  Trie.lookup (domain_trie (forwarder w)) (canonical_name (q_name q)) = Ok (rule, node) ->
  has_key "block" rule = false ->
  peek (cache (forwarder w)) now (canonical_name (q_name q), q_rdtype q) = Some cached ->
  exists w',
    handle_request lib net now now' (Ok query) w = (Ok tt, w')
    /\ events w'
       = events w ++ [SendTo (set_id (from_wire_to_wire lib cached.1) (id query))]
    /\ (forall k, peek (cache (forwarder w')) now k = peek (cache (forwarder w)) now k)
    /\ domain_trie (forwarder w') = domain_trie (forwarder w).
Proof.
  intros Hq Hty Hl Hb Hp.
  start_request Hq Hl.
  rewrite bool_decide_eq_false_2 by exact Hty.
  unfold mbind at 1, M_bind at 1.
  rewrite on_forwarder_on_cache_run.
  destruct (get_hit _ _ _ _ Hp) as (c' & Hg & Hk). rewrite Hg. cbn [fst snd].
  rewrite Hb. cbn [negb].
  eexists. split; [reflexivity|].
  cbn [events forwarder]. split; [reflexivity|]. split; [|reflexivity].
  intros k. destruct (forwarder w). exact (Hk k).
Qed.

(** The theorem at a query for ["example.com"], whose answer with one
    record is in the cache, while every upstream times out. *)
Lemma cache_hit_is_answered_from_cache_witness :
  exists w',
    handle_request plain_library failing_net 10 11 (Ok example_query)
      (mkWorld cached_forwarder [])
    = (Ok tt, w')
    /\ events w'
       = [] ++ [SendTo (set_id (from_wire_to_wire plain_library (example_answer, 900%Z).1)
                          (id example_query))]
    /\ (forall k, peek (cache (forwarder w')) 10 k = peek (cache cached_forwarder) 10 k)
    /\ domain_trie (forwarder w') = domain_trie cached_forwarder.
Proof.
  apply (cache_hit_is_answered_from_cache plain_library failing_net 10 11 example_query
           (mkQuestion "example.com." A) [] (mkWorld cached_forwarder []) ∅
           (Trie.mkNodeRef 0 [])).
  - reflexivity.
  - discriminate.
  - by_eval.
  - reflexivity.
  - by_eval.
Defined.

(** What the library of the runs reads back: the cached answer with one
    record as it is, and the two rrsets of ["example.com."] as one rrset
    with the TTL 60. *)
Example reparse_merges_rrsets :
  from_wire_to_wire plain_library example_answer = example_answer
  /\ from_wire_to_wire plain_library two_rrsets
     = mkMessage 7 [mkQuestion "example.com." A] NOERROR
         [mkRRset "example.com." A 60 ["93.184.216.34"; "93.184.216.35"]].
Proof. split; by_eval. Qed.

(** What [_add_cache] does with the response of an upstream: nothing when
    its rcode is not NOERROR; otherwise only the cache changes, and it
    answers the key with the response. *)
Lemma add_cache_outcome now qname qtype resp fw :
  (rcode resp <> NOERROR -> (_add_cache now qname qtype resp (-1) fw).2 = fw)
  /\ (rcode resp = NOERROR ->
      ttu (cache fw) = _my_ttu ->
      (1 <= maxsize (cache fw))%Z ->
      (0 < cache_ttl fw)%Z ->
      (exists c', (_add_cache now qname qtype resp (-1) fw).2 = with_cache fw c')
      /\ peek (cache (_add_cache now qname qtype resp (-1) fw).2) now (qname, qtype)
         = Some (resp, cache_entry_ttl fw resp (-1))).
Proof.
  split.
  - intros Hr. rewrite add_cache_not_noerror by exact Hr. reflexivity.
  - intros Hr Httu Hm Hpos.
    assert (Hpos' : (0 < cache_entry_ttl fw resp (-1))%Z).
    { rewrite cache_entry_ttl_spec. lia. }
    destruct (add_cache_stores now qname qtype resp (-1) fw Hr Httu Hm Hpos')
      as (c' & Hrun & _ & _ & _ & Hpk).
    rewrite Hrun. cbn [snd]. split; [exists c'; reflexivity|].
    cbn [cache with_cache]. apply Hpk. lia.
Qed.

(** X14.  A query of a type other than AAAA whose name has no [block]
    rule and whose key has no live cache entry is forwarded: the upstreams
    of the rule (the forwarder's own when the rule names none) are asked;
    the response [_forward_query] returns goes through [_add_cache], which
    stores it under the key when its rcode is NOERROR (the cache then
    answers the key with it) and leaves the forwarder as it is otherwise
    (a SERVFAIL or NXDOMAIN response is not cached); the policy engine is
    called with the rule and the A addresses of the response exactly when
    the rule has [dbr]; and the one message sent to the client is that
    response, after all the rest.  (The cache has room for an entry and
    the policy engine's callback returns normally.) *)
Theorem cache_miss_is_forwarded (lib : Library) (net : Message -> string -> UdpOutcome)
    (now now' : Z) (query : Message) (q : Question) (qs : list Question) (w : World)
    (rule : Rule) (node : Trie.NodeRef) (ups : list string) :
  question query = q :: qs ->
  q_rdtype q <> AAAA ->
  Trie.lookup (domain_trie (forwarder w)) (canonical_name (q_name q)) = Ok (rule, node) ->
  has_key "block" rule = false ->
  peek (cache (forwarder w)) now (canonical_name (q_name q), q_rdtype q) = None ->
  upstreams_of (forwarder w) rule = Ok ups ->
  (1 <= maxsize (cache (forwarder w)))%Z ->
  (has_key "dbr" rule = true -> is_Some (response_cb (forwarder w))) ->
  (forall cb ips, response_cb (forwarder w) = Some cb -> cb rule ips = Ok tt) ->
  exists resp asked fw',
    _forward_query net query ups w
    = (Ok resp, mkWorld (forwarder w) (events w ++ map UpstreamQuery asked))
    /\ handle_request lib net now now' (Ok query) w
       = (Ok tt,
          mkWorld fw'
            (events w ++ map UpstreamQuery asked
             ++ (if has_key "dbr" rule then [ResponseCb rule (_extract_A_records resp)]
                 else [])
             ++ [SendTo resp]))
    /\ fw' = (_add_cache now' (canonical_name (q_name q)) (q_rdtype q) resp (-1)
                (forwarder w)).2
    /\ (rcode resp <> NOERROR -> fw' = forwarder w)
    /\ (rcode resp = NOERROR ->
        ttu (cache (forwarder w)) = _my_ttu ->
        (0 < cache_ttl (forwarder w))%Z ->
        (exists c', fw' = with_cache (forwarder w) c')
        /\ peek (cache fw') now' (canonical_name (q_name q), q_rdtype q)
           = Some (resp, cache_entry_ttl (forwarder w) resp (-1))).
Proof.
  intros Hq Hty Hl Hb Hp Hups Hm Hdbr Hcb.
  destruct (forward_query_shape net query ups) as (resp & asked & Hf).
  specialize (Hf w).
  exists resp, asked,
    (_add_cache now' (canonical_name (q_name q)) (q_rdtype q) resp (-1) (forwarder w)).2.
  split; [exact Hf|].
  destruct (add_cache_outcome now' (canonical_name (q_name q)) (q_rdtype q) resp
              (forwarder w)) as [Hskip Hstore].
  split; [|split; [reflexivity|split; [exact Hskip|]]].
  2:{ intros Hr Httu Hpos. exact (Hstore Hr Httu Hm Hpos). }
  clear Hskip Hstore.
  start_request Hq Hl.
  rewrite bool_decide_eq_false_2 by exact Hty.
  unfold mbind at 1, M_bind at 1.
  rewrite on_forwarder_on_cache_run, (get_miss _ _ _ Hp). cbn [fst snd].
  rewrite with_cache_same, world_same.
  unfold mbind at 1, M_bind at 1. cbn [mret M_ret].
  rewrite Hb. unfold mbind at 1, M_bind at 1. cbn [mret M_ret].
  unfold forward_and_enforce. rewrite Hb. cbn [negb].
  unfold mbind at 1, M_bind at 1, get_state at 1.
  rewrite Hups. unfold mbind at 1, M_bind at 1, lift_result at 1.
  unfold mbind at 1, M_bind at 1. rewrite Hf.
  unfold mbind at 1, M_bind at 1.
  unfold on_forwarder at 1, zoom at 1. cbn [forwarder events].
  pose proof (add_cache_ok now' (canonical_name (q_name q)) (q_rdtype q) resp (-1)
                (forwarder w) Hm) as Hok.
  destruct (_add_cache now' (canonical_name (q_name q)) (q_rdtype q) resp (-1)
              (forwarder w)) as [r fw'].
  cbn [fst snd] in Hok |- *. subst r.
  cbn [negb]. unfold mbind at 1, M_bind at 1.
  destruct (has_key "dbr" rule).
  - destruct (Hdbr eq_refl) as [cb Ecb]. rewrite Ecb.
    unfold mbind at 1, M_bind at 1, emit at 1. cbn [forwarder events].
    unfold lift_result at 1. rewrite (Hcb cb _ Ecb).
    unfold emit. cbn [forwarder events].
    rewrite <- !app_assoc. reflexivity.
  - cbn [mret M_ret]. unfold emit. cbn [forwarder events app].
    rewrite <- !app_assoc. reflexivity.
Qed.

(** The theorem at a query for a name without a rule, answered by the
    upstream. *)
Lemma cache_miss_is_forwarded_witness :
  exists resp asked fw',
    _forward_query answering_net other_query ["8.8.8.8"] ads_world
    = (Ok resp, mkWorld (forwarder ads_world)
                  (events ads_world ++ map UpstreamQuery asked))
    /\ handle_request plain_library answering_net 10 11 (Ok other_query) ads_world
       = (Ok tt,
          mkWorld fw'
            (events ads_world ++ map UpstreamQuery asked
             ++ (if has_key "dbr" (∅ : Rule)
                 then [ResponseCb ∅ (_extract_A_records resp)] else [])
             ++ [SendTo resp]))
    /\ fw' = (_add_cache 11 (canonical_name "www.example.org.") A resp (-1)
                (forwarder ads_world)).2
    /\ (rcode resp <> NOERROR -> fw' = forwarder ads_world)
    /\ (rcode resp = NOERROR ->
        ttu (cache (forwarder ads_world)) = _my_ttu ->
        (0 < cache_ttl (forwarder ads_world))%Z ->
        (exists c', fw' = with_cache (forwarder ads_world) c')
        /\ peek (cache fw') 11 (canonical_name "www.example.org.", A)
           = Some (resp, cache_entry_ttl (forwarder ads_world) resp (-1))).
Proof.
  apply (cache_miss_is_forwarded plain_library answering_net 10 11 other_query
           (mkQuestion "www.example.org." A) [] ads_world ∅ (Trie.mkNodeRef 0 [])
           ["8.8.8.8"]).
  - reflexivity.
  - discriminate.
  - by_eval.
  - reflexivity.
  - by_eval.
  - reflexivity.
  - vm_compute. discriminate.
  - intros H. discriminate H.
  - intros cb ips H. vm_compute in H. injection H as <-. reflexivity.
Defined.

(** The second half of [handle_request] when nothing in it raises. *)
Lemma forward_and_enforce_run net now' query qname qtype rule w ups :
  upstreams_of (forwarder w) rule = Ok ups ->
  (1 <= maxsize (cache (forwarder w)))%Z ->
  (has_key "dbr" rule = true ->
   exists cb, response_cb (forwarder w) = Some cb /\ forall ips, cb rule ips = Ok tt) ->
  exists resp asked,
    (forall w0, _forward_query net query ups w0
                = (Ok resp, mkWorld (forwarder w0) (events w0 ++ map UpstreamQuery asked)))
    /\ forward_and_enforce net now' query qname qtype rule w
       = (Ok tt,
          mkWorld (_add_cache now' qname qtype resp (-1) (forwarder w)).2
            (events w ++ map UpstreamQuery asked
             ++ (if has_key "dbr" rule then [ResponseCb rule (_extract_A_records resp)]
                 else [])
             ++ (if has_key "block" rule then [] else [SendTo resp]))).
Proof.
  intros Hups Hm Hdbr.
  destruct (forward_query_shape net query ups) as (resp & asked & Hf).
  exists resp, asked. split; [exact Hf|].
  unfold forward_and_enforce.
  unfold mbind at 1, M_bind at 1, get_state at 1.
  rewrite Hups. unfold mbind at 1, M_bind at 1, lift_result at 1.
  unfold mbind at 1, M_bind at 1. rewrite Hf.
  unfold mbind at 1, M_bind at 1.
  unfold on_forwarder at 1, zoom at 1. cbn [forwarder events].
  pose proof (add_cache_ok now' qname qtype resp (-1) (forwarder w) Hm) as Hok.
  destruct (_add_cache now' qname qtype resp (-1) (forwarder w)) as [r fw'].
  cbn [fst snd] in Hok |- *. subst r.
  unfold mbind at 1, M_bind at 1.
  destruct (has_key "dbr" rule).
  - destruct (Hdbr eq_refl) as (cb & Ecb & Hcb). rewrite Ecb.
    unfold mbind at 1, M_bind at 1, emit at 1. cbn [forwarder events].
    unfold lift_result at 1. rewrite Hcb.
    destruct (has_key "block" rule); cbn [negb mret M_ret]; unfold emit;
      cbn [forwarder events]; rewrite <- ?app_assoc, ?app_nil_r; reflexivity.
  - cbn [mret M_ret].
    destruct (has_key "block" rule); cbn [negb mret M_ret]; unfold emit;
      cbn [forwarder events app]; rewrite <- ?app_assoc, ?app_nil_r; reflexivity.
Qed.

(** X15.  When the rule of the name has [dbr] and no policy engine is
    registered with the forwarder, a query that is not answered from the
    cache ends in the exception ["No policy engine registered"], raised
    after the upstreams were asked and the response went through
    [_add_cache] (stored under the key when its rcode is NOERROR, the
    forwarder left as it is otherwise): a client whose name has a [route]
    rule gets no answer at all, a client whose name has a [block] rule has
    its NXDOMAIN response already. *)
Theorem dbr_rule_needs_policy_engine (lib : Library)
    (net : Message -> string -> UdpOutcome)
    (now now' : Z) (query : Message) (q : Question) (qs : list Question) (w : World)
    (rule : Rule) (node : Trie.NodeRef) (ups : list string) :
  question query = q :: qs ->
  q_rdtype q <> AAAA ->
  Trie.lookup (domain_trie (forwarder w)) (canonical_name (q_name q)) = Ok (rule, node) ->
  has_key "dbr" rule = true ->
  response_cb (forwarder w) = None ->
  peek (cache (forwarder w)) now (canonical_name (q_name q), q_rdtype q) = None ->
  upstreams_of (forwarder w) rule = Ok ups ->
  (1 <= maxsize (cache (forwarder w)))%Z ->
  exists resp asked fw',
    (forall w0, _forward_query net query ups w0
                = (Ok resp, mkWorld (forwarder w0) (events w0 ++ map UpstreamQuery asked)))
    /\ handle_request lib net now now' (Ok query) w
       = (Raise (Exception "No policy engine registered"),
          mkWorld fw'
            (events w
             ++ (if has_key "block" rule then [SendTo (make_NXDOMAIN_response query)]
                 else [])
             ++ map UpstreamQuery asked))
    /\ fw' = (_add_cache now' (canonical_name (q_name q)) (q_rdtype q) resp (-1)
                (forwarder w)).2
    /\ (rcode resp <> NOERROR -> fw' = forwarder w)
    /\ (rcode resp = NOERROR ->
        ttu (cache (forwarder w)) = _my_ttu ->
        (0 < cache_ttl (forwarder w))%Z ->
        (exists c', fw' = with_cache (forwarder w) c')
        /\ peek (cache fw') now' (canonical_name (q_name q), q_rdtype q)
           = Some (resp, cache_entry_ttl (forwarder w) resp (-1))).
Proof.
  intros Hq Hty Hl Hdbr Hnone Hp Hups Hm.
  destruct (forward_query_shape net query ups) as (resp & asked & Hf).
  exists resp, asked,
    (_add_cache now' (canonical_name (q_name q)) (q_rdtype q) resp (-1) (forwarder w)).2.
  split; [exact Hf|].
  destruct (add_cache_outcome now' (canonical_name (q_name q)) (q_rdtype q) resp
              (forwarder w)) as [Hskip Hstore].
  split; [|split; [reflexivity|split; [exact Hskip|]]].
  2:{ intros Hr Httu Hpos. exact (Hstore Hr Httu Hm Hpos). }
  clear Hskip Hstore.
  start_request Hq Hl.
  rewrite bool_decide_eq_false_2 by exact Hty.
  unfold mbind at 1, M_bind at 1.
  rewrite on_forwarder_on_cache_run, (get_miss _ _ _ Hp). cbn [fst snd].
  rewrite with_cache_same, world_same.
  unfold mbind at 1, M_bind at 1. cbn [mret M_ret].
  unfold mbind at 1, M_bind at 1.
  assert (Hrest : forall w1,
    forwarder w1 = forwarder w ->
    forward_and_enforce net now' query (canonical_name (q_name q)) (q_rdtype q) rule w1
    = (Raise (Exception "No policy engine registered"),
       mkWorld
         (_add_cache now' (canonical_name (q_name q)) (q_rdtype q) resp (-1)
            (forwarder w)).2
         (events w1 ++ map UpstreamQuery asked))).
  { intros w1 Hw1. unfold forward_and_enforce. rewrite Hdbr.
    unfold mbind at 1, M_bind at 1, get_state at 1.
    rewrite Hw1, Hups. unfold mbind at 1, M_bind at 1, lift_result at 1.
    unfold mbind at 1, M_bind at 1. rewrite Hf.
    unfold mbind at 1, M_bind at 1.
    unfold on_forwarder at 1, zoom at 1. cbn [forwarder events]. rewrite Hw1.
    pose proof (add_cache_ok now' (canonical_name (q_name q)) (q_rdtype q) resp (-1)
                  (forwarder w) Hm) as Hok.
    destruct (_add_cache now' (canonical_name (q_name q)) (q_rdtype q) resp (-1)
                (forwarder w)) as [r fw'].
    cbn [fst snd] in Hok |- *. subst r.
    unfold mbind at 1, M_bind at 1. rewrite Hnone. reflexivity. }
  destruct (has_key "block" rule).
  - unfold emit at 1. rewrite Hrest by reflexivity. cbn [events].
    rewrite <- app_assoc. reflexivity.
  - cbn [mret M_ret]. rewrite Hrest by reflexivity. reflexivity.
Qed.

Lemma dbr_rule_needs_policy_engine_witness :
  exists resp asked fw',
    (forall w0, _forward_query answering_net x_query ["8.8.8.8"] w0
                = (Ok resp, mkWorld (forwarder w0) (events w0 ++ map UpstreamQuery asked)))
    /\ handle_request plain_library answering_net 10 11 (Ok x_query)
         (mkWorld routed_forwarder [])
       = (Raise (Exception "No policy engine registered"),
          mkWorld fw'
            ([] ++ (if has_key "block" route_x
                    then [SendTo (make_NXDOMAIN_response x_query)] else [])
             ++ map UpstreamQuery asked))
    /\ fw' = (_add_cache 11 (canonical_name "x.com.") A resp (-1) routed_forwarder).2
    /\ (rcode resp <> NOERROR -> fw' = routed_forwarder)
    /\ (rcode resp = NOERROR ->
        ttu (cache routed_forwarder) = _my_ttu ->
        (0 < cache_ttl routed_forwarder)%Z ->
        (exists c', fw' = with_cache routed_forwarder c')
        /\ peek (cache fw') 11 (canonical_name "x.com.", A)
           = Some (resp, cache_entry_ttl routed_forwarder resp (-1))).
Proof.
  apply (dbr_rule_needs_policy_engine plain_library answering_net 10 11 x_query
           (mkQuestion "x.com." A) [] (mkWorld routed_forwarder []) route_x
           (Trie.mkNodeRef 0 ["com"; "x"]) ["8.8.8.8"]).
  - reflexivity.
  - discriminate.
  - by_eval.
  - by_eval.
  - reflexivity.
  - by_eval.
  - by_eval.
  - vm_compute. discriminate.
Defined.

(** *** Static records *)

Lemma purge_cache_run now fw :
  exists c',
    purge_cache now fw = (Ok tt, with_cache fw c')
    /\ maxsize c' = maxsize (cache fw) /\ ttu c' = ttu (cache fw)
    /\ forall k, peek c' now k = keep_pinned MAX_DNS_TTL (peek (cache fw) now k).
Proof.
  unfold purge_cache, on_cache, zoom.
  destruct (purge_loop_peek now MAX_DNS_TTL (iter_items (cache fw)) (cache fw))
    as (c' & Hrun & Hm & Ht & Hpeek).
  rewrite Hrun. exists c'. split; [reflexivity|]. split; [exact Hm|]. split; [exact Ht|].
  intros k. rewrite Hpeek.
  destruct (decide (k ∈ iter_items (cache fw))) as [Hin|Hnin]; [reflexivity|].
  unfold peek, iter_items in *. rewrite (find_entry_None _ _ Hnin). reflexivity.
Qed.

(** The body of the loop for a record the library takes. *)
Lemma add_one_static_run lib now fw (static : Rule) domain a query rrset :
  static !! "domain" = Some (VStr domain) -> domain <> EmptyString ->
  static !! "address" = Some (VStr a) ->
  query_of lib domain A = Ok query ->
  rrset_of lib (domain +:+ ".") 3600%Z a = Ok rrset ->
  add_one_static lib now static fw
  = _add_cache now domain A (append_answer (make_response query) rrset) MAX_DNS_TTL fw.
Proof.
  intros Hdom Hne Haddr Hq Hrr. unfold add_one_static. rewrite Hdom.
  destruct domain as [|c s]; [congruence|]. cbn [PyStr.is_empty].
  unfold mbind, M_bind, lift_result, Trie.getitem. rewrite Hq, Haddr, Hrr.
  destruct (_add_cache now (String c s) A _ MAX_DNS_TTL fw) as [[u|e] fw']; reflexivity.
Qed.

(** The body of the loop for a record it cannot turn into a response. *)
Lemma add_one_static_bad lib now (bad : Rule) fw :
  bad !! "domain" = None
  \/ bad !! "address" = None
  \/ (exists domain e, bad !! "domain" = Some (VStr domain)
                       /\ query_of lib domain A = Raise e)
  \/ (exists domain a e, bad !! "domain" = Some (VStr domain)
                         /\ bad !! "address" = Some (VStr a)
                         /\ rrset_of lib (domain +:+ ".") 3600%Z a = Raise e) ->
  exists e, add_one_static lib now bad fw = (Raise e, fw).
Proof.
  intros H. unfold add_one_static.
  destruct (bad !! "domain") as [[domain| |]|] eqn:Hdom;
    [|eexists; reflexivity..].
  destruct (PyStr.is_empty domain); [eexists; reflexivity|].
  unfold mbind, M_bind, lift_result, Trie.getitem.
  destruct (query_of lib domain A) as [query|e] eqn:Hq; [|eexists; reflexivity].
  destruct H as [H|[H|[(d & e & Hd & He)|(d & a & e & Hd & Ha & He)]]].
  - discriminate.
  - rewrite H. eexists. reflexivity.
  - injection Hd as <-. rewrite Hq in He. discriminate.
  - injection Hd as <-. rewrite Ha, He. eexists. reflexivity.
Qed.

(** X16.  [add_static_cache] turns a record with a non-empty domain and an
    address text into a pinned cache entry when the library makes a query
    of the domain and an A rrset of the address text: from then on, until
    the sentinel TTL of [2^31 - 1] seconds has passed, the cache answers
    the A key of the domain with the NOERROR response made from that
    query, whose answer section is that rrset, and [purge_cache] keeps
    the entry.  When the library raises for the domain (an empty label,
    a label of more than 63 characters) or for the address text, nothing
    is cached and nothing is raised.  (The cache is the forwarder's own
    and has room for an entry.) *)
Theorem static_record_is_pinned (lib : Library) (now : Z) (fw : DNSForwarder)
    (static : Rule) (domain a : string) :
  static !! "domain" = Some (VStr domain) -> domain <> EmptyString ->
  static !! "address" = Some (VStr a) ->
  ttu (cache fw) = _my_ttu -> (1 <= maxsize (cache fw))%Z ->
  (forall query rrset,
     query_of lib domain A = Ok query ->
     rrset_of lib (domain +:+ ".") 3600%Z a = Ok rrset ->
     exists fw' resp,
       add_static_cache lib now [static] fw = (Ok tt, fw')
       /\ resp = append_answer (make_response query) rrset
       /\ rcode resp = NOERROR
       /\ answer resp = [rrset]
       /\ forall now', (now <= now' < now + MAX_DNS_TTL)%Z ->
            peek (cache fw') now' (domain, A) = Some (resp, MAX_DNS_TTL)
            /\ exists fw'',
                 purge_cache now' fw' = (Ok tt, fw'')
                 /\ peek (cache fw'') now' (domain, A) = Some (resp, MAX_DNS_TTL))
  /\ ((exists e, query_of lib domain A = Raise e)
      \/ (exists e, rrset_of lib (domain +:+ ".") 3600%Z a = Raise e) ->
      add_static_cache lib now [static] fw = (Ok tt, fw)).
Proof.
  intros Hdom Hne Haddr Httu Hm. split.
  - intros query rrset Hq Hrr.
    set (resp := append_answer (make_response query) rrset).
    assert (Hrc : rcode resp = NOERROR) by reflexivity.
    assert (Httl : cache_entry_ttl fw resp MAX_DNS_TTL = MAX_DNS_TTL).
    { unfold cache_entry_ttl.
      rewrite bool_decide_eq_false_2 by (unfold MAX_DNS_TTL; lia). reflexivity. }
    assert (Hpos : (0 < cache_entry_ttl fw resp MAX_DNS_TTL)%Z).
    { rewrite Httl. unfold MAX_DNS_TTL. lia. }
    destruct (add_cache_stores now domain A resp MAX_DNS_TTL fw Hrc Httu Hm Hpos)
      as (c' & Hrun & _ & _ & _ & Hpk).
    rewrite Httl in Hpk.
    exists (with_cache fw c'), resp.
    split; [|split; [reflexivity|split; [reflexivity|split; [reflexivity|]]]].
    + unfold add_static_cache, try_except. cbn [for_each].
      unfold mbind at 1, M_bind at 1.
      rewrite (add_one_static_run lib now fw static domain a query rrset
                 Hdom Hne Haddr Hq Hrr).
      fold resp. rewrite Hrun. reflexivity.
    + intros now' Hnow.
      assert (Hpk' : peek c' now' (domain, A) = Some (resp, MAX_DNS_TTL))
        by (apply Hpk; lia).
      split; [exact Hpk'|].
      destruct (purge_cache_run now' (with_cache fw c')) as (c'' & Hrun' & _ & _ & Hk).
      eexists. split; [exact Hrun'|].
      cbn [cache with_cache] in *. rewrite Hk, Hpk'. unfold keep_pinned. cbn [snd].
      rewrite bool_decide_eq_true_2 by reflexivity. reflexivity.
  - intros Hbad.
    assert (Hraise : exists e, add_one_static lib now static fw = (Raise e, fw)).
    { apply add_one_static_bad. right. right.
      destruct Hbad as [[e He]|[e He]]; [left|right].
      - exists domain, e. split; [exact Hdom|exact He].
      - exists domain, a, e. split; [exact Hdom|]. split; [exact Haddr|exact He]. }
    destruct Hraise as [e He].
    unfold add_static_cache, try_except. cbn [for_each].
    unfold mbind at 1, M_bind at 1. rewrite He. reflexivity.
Qed.

(** The theorem at the record of [address=/router.my/192.168.1.1]. *)
Lemma static_record_is_pinned_witness :
  (forall query rrset,
     query_of plain_library "router.my" A = Ok query ->
     rrset_of plain_library ("router.my" +:+ ".") 3600%Z "192.168.1.1" = Ok rrset ->
     exists fw' resp,
       add_static_cache plain_library 0 [router_static] default_forwarder = (Ok tt, fw')
       /\ resp = append_answer (make_response query) rrset
       /\ rcode resp = NOERROR
       /\ answer resp = [rrset]
       /\ forall now', (0 <= now' < 0 + MAX_DNS_TTL)%Z ->
            peek (cache fw') now' ("router.my", A) = Some (resp, MAX_DNS_TTL)
            /\ exists fw'',
                 purge_cache now' fw' = (Ok tt, fw'')
                 /\ peek (cache fw'') now' ("router.my", A) = Some (resp, MAX_DNS_TTL))
  /\ ((exists e, query_of plain_library "router.my" A = Raise e)
      \/ (exists e, rrset_of plain_library ("router.my" +:+ ".") 3600%Z "192.168.1.1"
                    = Raise e) ->
      add_static_cache plain_library 0 [router_static] default_forwarder
      = (Ok tt, default_forwarder)).
Proof.
  apply (static_record_is_pinned plain_library 0 default_forwarder router_static
           "router.my" "192.168.1.1").
  - by_eval.
  - discriminate.
  - by_eval.
  - reflexivity.
  - vm_compute. discriminate.
Defined.

(** In that run the library takes the record, and the cache answers with
    the address of the record. *)
Example static_record_of_router :
  query_of plain_library "router.my" A = Ok (make_query "router.my" A)
  /\ rrset_of plain_library ("router.my" +:+ ".") 3600%Z "192.168.1.1"
     = Ok (mkRRset "router.my." A 3600 ["192.168.1.1"])
  /\ option_map (fun v => _extract_A_records v.1)
       (peek (cache (add_static_cache plain_library 0 [router_static]
                       default_forwarder).2) 10 ("router.my", A))
     = Some ["192.168.1.1"].
Proof. repeat split; by_eval. Qed.

(** Records whose domain the library does not take are not pinned: with
    a trailing dot the owner name of the rrset has an empty label, and so
    has a domain with two dots in a row. *)
Example static_record_bad_names :
  add_static_cache plain_library 0
    [ {[ "domain" := VStr "router.my."; "address" := VStr "192.168.1.1" ]} ]
    default_forwarder
  = (Ok tt, default_forwarder)
  /\ add_static_cache plain_library 0
       [ {[ "domain" := VStr "a..my"; "address" := VStr "192.168.1.1" ]} ]
       default_forwarder
     = (Ok tt, default_forwarder).
Proof. split; by_eval. Qed.

(** X17.  [add_static_cache] never raises, and the first record it cannot
    turn into a response ends the loop: a record without a domain or
    without an address, or one for whose domain or address text the
    library raises (it raises for an IPv6 address, which the [address=]
    configuration line accepts), and every record after it are dropped
    without a trace; the result is that of the records before it. *)
Theorem add_static_cache_stops_at_bad_record (lib : Library) (now : Z)
    (good rest : list Rule) (bad : Rule) (fw : DNSForwarder) :
  bad !! "domain" = None
  \/ bad !! "address" = None
  \/ (exists domain e, bad !! "domain" = Some (VStr domain)
                       /\ query_of lib domain A = Raise e)
  \/ (exists domain a e, bad !! "domain" = Some (VStr domain)
                         /\ bad !! "address" = Some (VStr a)
                         /\ rrset_of lib (domain +:+ ".") 3600%Z a = Raise e) ->
  add_static_cache lib now (good ++ bad :: rest) fw = add_static_cache lib now good fw
  /\ (add_static_cache lib now good fw).1 = Ok tt.
Proof.
  intros Hbad. split.
  2:{ unfold add_static_cache, try_except.
      destruct (for_each good (add_one_static lib now) fw) as [[[]|e] fw']; reflexivity. }
  unfold add_static_cache, try_except.
  revert fw. induction good as [|g good IH]; intros fw.
  - cbn [app for_each]. unfold mbind, M_bind.
    destruct (add_one_static_bad lib now bad fw Hbad) as [e ->]. reflexivity.
  - cbn [app for_each]. unfold mbind, M_bind.
    destruct (add_one_static lib now g fw) as [[u|e] fw1]; [|reflexivity].
    apply IH.
Qed.

(** The theorem at the records of [address=/router.my/192.168.1.1],
    [address=/printer.my/::1] and [address=/nas.my/192.168.1.2]: the last
    one is not pinned. *)
Lemma add_static_cache_stops_at_bad_record_witness :
  add_static_cache plain_library 0 ([router_static] ++ printer_static :: [nas_static])
    default_forwarder
  = add_static_cache plain_library 0 [router_static] default_forwarder
  /\ (add_static_cache plain_library 0 [router_static] default_forwarder).1 = Ok tt.
Proof.
  apply (add_static_cache_stops_at_bad_record plain_library 0 [router_static]
           [nas_static] printer_static default_forwarder).
  right. right. right. exists "printer.my", "::1". eexists.
  split; [by_eval|]. split; [by_eval|]. vm_compute. reflexivity.
Defined.

(** *** Addresses and TTLs *)

(** X18.  [_extract_A_records_with_ttl] lists the addresses
    [_extract_A_records] lists, in the same order, each with the TTL of
    its rrset; none of these TTLs is larger than the TTL [_add_cache]
    gives the cache entry of the response when no TTL is passed. *)
Theorem extract_A_records_with_ttl_agrees (fw : DNSForwarder) (resp : Message) :
  map fst (_extract_A_records_with_ttl resp) = _extract_A_records resp
  /\ Forall (fun p => (p.2 <= cache_entry_ttl fw resp (-1))%Z)
       (_extract_A_records_with_ttl resp).
Proof.
  unfold _extract_A_records_with_ttl, _extract_A_records, cache_entry_ttl.
  rewrite bool_decide_eq_true_2 by reflexivity. rewrite derive_ttl_max.
  pose proof (max_ttl_ge_each (cache_ttl fw) (a_ttls (answer resp))) as Hge.
  unfold a_ttls in *.
  set (l := List.filter (fun rrset => bool_decide (rr_rdtype rrset = A)) (answer resp)) in *.
  set (m := max_ttl (cache_ttl fw) (map rr_ttl l)) in *. clearbody m l.
  induction l as [|rrset l IH]; [split; [reflexivity|constructor]|].
  cbn [map concat] in *. apply Forall_cons in Hge as [H1 H2].
  destruct (IH H2) as [IH1 IH2]. split.
  - rewrite map_app, IH1. f_equal. rewrite map_map. cbn [fst]. apply map_id.
  - apply Forall_app. split; [|exact IH2].
    apply Forall_forall. intros p Hp. apply list_elem_of_fmap in Hp as (a & -> & _).
    exact H1.
Qed.

End ForwardMore.

(* ===================================================================== *)
(** ** More on live rule edits *)
(* ===================================================================== *)

Module ServiceMore.
Import Dns Cache Forward PolicyService CacheFacts PurgeFacts ForwardFacts Scenario.
Import Trie TrieFacts.

Lemma create_rule_dict_exclusive directive domain value :
  exclusive (_create_rule_dict directive domain value) = true.
Proof.
  unfold _create_rule_dict.
  repeat (match goal with |- context [String.eqb directive ?s] =>
            destruct (String.eqb directive s) end);
    vm_compute; reflexivity.
Qed.

Lemma create_rule_dict_domain directive domain value :
  _create_rule_dict directive domain value !! "domain" = Some (VStr domain).
Proof.
  unfold _create_rule_dict.
  repeat (match goal with |- context [String.eqb directive ?s] =>
            destruct (String.eqb directive s) end);
    vm_compute; reflexivity.
Qed.

Lemma add_cache_trie now qname qtype resp ttl fw :
  domain_trie (_add_cache now qname qtype resp ttl fw).2 = domain_trie fw.
Proof.
  unfold _add_cache.
  destruct (negb (bool_decide (rcode resp = NOERROR))); [reflexivity|].
  unfold on_cache, zoom.
  destruct (setitem now (qname, qtype) (resp, cache_entry_ttl fw resp ttl) (cache fw)).
  reflexivity.
Qed.

Lemma add_one_static_trie lib now static fw :
  domain_trie (add_one_static lib now static fw).2 = domain_trie fw.
Proof.
  unfold add_one_static.
  destruct (static !! "domain") as [[domain| |]|]; [|reflexivity..].
  destruct (PyStr.is_empty domain); [reflexivity|].
  unfold mbind, M_bind, lift_result, Trie.getitem.
  destruct (query_of lib domain A) as [query|e]; [|reflexivity].
  destruct (static !! "address") as [[a| |]|]; [|reflexivity..].
  destruct (rrset_of lib (domain +:+ ".") 3600%Z a) as [rrset|e]; [|reflexivity].
  pose proof (add_cache_trie now domain A
                (append_answer (make_response query) rrset) MAX_DNS_TTL fw) as H.
  destruct (_add_cache now domain A _ MAX_DNS_TTL fw) as [[u|e] fw']; exact H.
Qed.

Lemma add_static_cache_trie lib now statics fw :
  domain_trie (add_static_cache lib now statics fw).2 = domain_trie fw.
Proof.
  unfold add_static_cache, try_except.
  assert (H : domain_trie (for_each statics (add_one_static lib now) fw).2 = domain_trie fw).
  { revert fw. induction statics as [|s statics IH]; intros fw; [reflexivity|].
    cbn [for_each]. unfold mbind, M_bind.
    pose proof (add_one_static_trie lib now s fw) as H1.
    destruct (add_one_static lib now s fw) as [[u|e] fw1]; cbn [snd] in *.
    - rewrite IH. exact H1.
    - exact H1. }
  destruct (for_each statics (add_one_static lib now) fw) as [[u|e] fw']; exact H.
Qed.

(** The trie a run of [add_rule] leaves is the one its [cow_insert]
    leaves. *)
Lemma add_rule_trie lib now directive domain value w :
  _validate_rule_params directive domain value = true ->
  domain_trie (forwarder (add_rule lib now directive domain value w).2)
  = (cow_insert (domain_trie (forwarder w)) domain
       (_create_rule_dict directive domain value)).1.2.
Proof.
  intros Hv. unfold add_rule. rewrite Hv. cbn [negb].
  unfold mbind at 1, M_bind at 1, run_cow_insert at 1.
  destruct (cow_insert (domain_trie (forwarder w)) domain
              (_create_rule_dict directive domain value)) as [[r t'] calls].
  cbn [fst snd].
  destruct r as [u|e]; [|reflexivity].
  unfold mbind at 1, M_bind at 1.
  destruct (has_key "address" (_create_rule_dict directive domain value)).
  - unfold on_forwarder, zoom. cbn [forwarder events].
    pose proof (add_static_cache_trie lib now [_create_rule_dict directive domain value]
                  (with_trie (forwarder w) t')) as H.
    destruct (add_static_cache lib now [_create_rule_dict directive domain value]
                (with_trie (forwarder w) t')) as [[u'|e] fw']; exact H.
  - reflexivity.
Qed.

(** X19.  Rule additions over the REST interface keep [block] and [route]
    apart: when no rule stored in the live tree has both, none has after
    [add_rule], whatever the directive, the domain and the value, and
    whether the call succeeds, is refused or raises. *)
Theorem add_rule_keeps_exclusive (lib : Library) (now : Z)
    (directive domain value : string) (w : World) :
  wf (domain_trie (forwarder w)) ->
  all_rules (fun r => exclusive r = true) (root_node (domain_trie (forwarder w))) ->
  all_rules (fun r => exclusive r = true)
    (root_node (domain_trie (forwarder (add_rule lib now directive domain value w).2))).
Proof.
  intros Hwf Hall.
  destruct (_validate_rule_params directive domain value) eqn:Hv.
  - rewrite add_rule_trie by exact Hv.
    destruct (cow_insert (domain_trie (forwarder w)) domain
                (_create_rule_dict directive domain value)) as [[r t'] calls] eqn:E.
    cbn [fst snd].
    exact (cow_insert_keeps_exclusive _ _ _ _ _ _ Hwf Hall
             (create_rule_dict_exclusive _ _ _) E).
  - unfold add_rule. rewrite Hv. exact Hall.
Qed.

Lemma add_rule_keeps_exclusive_witness :
  all_rules (fun r => exclusive r = true)
    (root_node (domain_trie (forwarder
       (add_rule plain_library 0 "route" "ads.example.com" "10.0.0.1" ads_world).2))).
Proof.
  apply (add_rule_keeps_exclusive plain_library 0 "route" "ads.example.com" "10.0.0.1"
           ads_world).
  - vm_compute. lia.
  - intros labels r Hr.
    destruct (decide (labels = labels_of "ads.example.com")) as [->|Hne].
    + vm_compute in Hr. injection Hr as <-. reflexivity.
    + change (root_node (domain_trie (forwarder ads_world)))
        with (insert_path (labels_of "ads.example.com") block_ads TrieNode_new) in Hr.
      rewrite rule_at_insert_path, decide_False, rule_at_new in Hr by exact Hne.
      discriminate Hr.
Defined.

(** [cow_insert] for a non-empty domain does not raise when the update
    callback does not and every stored rule names its domain. *)
Lemma cow_insert_ok t domain rule :
  domain <> EmptyString ->
  (forall cb call, update_cb t = Some cb -> cb call = Ok tt) ->
  all_rules (fun r => has_key "domain" r = true) (root_node t) ->
  (cow_insert t domain rule).1.1 = Ok tt.
Proof.
  intros Hd Hcb Hall.
  destruct (TrieMore.lookup_nonempty_ok t domain Hd) as (r & node & Hl).
  unfold cow_insert. rewrite Hl.
  destruct (truthy (Some r)) eqn:Ht; [|reflexivity].
  assert (Hdom : has_key "domain" r = true).
  { destruct (lookup_stored _ _ _ _ Hl) as [->|[p Hp]].
    - cbn in Ht. rewrite bool_decide_eq_true_2 in Ht by reflexivity. discriminate Ht.
    - exact (Hall p r Hp). }
  unfold _cow_update, run_update_cb.
  destruct (update_cb t) as [cb|] eqn:Ecb; [|reflexivity].
  assert (Hget : forall k (d : Rule), has_key k d = true -> exists v, getitem k d = Ok v).
  { intros k d Hk. unfold getitem. apply bool_decide_eq_true in Hk as [v Hv].
    rewrite Hv. eauto. }
  unfold conflict_of.
  destruct (has_key "block" r && has_key "route" rule) eqn:E1.
  - apply andb_true_iff in E1 as [_ E1]. cbn [update_call].
    destruct (Hget _ _ Hdom) as [d ->]. destruct (Hget _ _ E1) as [v ->].
    rewrite (Hcb cb _ eq_refl). reflexivity.
  - destruct (has_key "route" r && has_key "block" rule) eqn:E2; [|reflexivity].
    apply andb_true_iff in E2 as [E2 _]. cbn [update_call].
    destruct (Hget _ _ Hdom) as [d ->]. destruct (Hget _ _ E2) as [v ->].
    rewrite (Hcb cb _ eq_refl). reflexivity.
Qed.

(** X20.  When the update callback does not raise and every stored rule
    names its domain, [add_rule] never raises and answers exactly what
    [_validate_rule_params] answers: [True] for every directive, domain
    and value that pass the validation, and [False], with nothing
    changed, for the others. *)
Theorem add_rule_answers_validation (lib : Library) (now : Z)
    (directive domain value : string) (w : World) :
  (forall cb call, update_cb (domain_trie (forwarder w)) = Some cb -> cb call = Ok tt) ->
  all_rules (fun r => has_key "domain" r = true)
    (root_node (domain_trie (forwarder w))) ->
  (add_rule lib now directive domain value w).1
  = Ok (_validate_rule_params directive domain value)
  /\ (_validate_rule_params directive domain value = false ->
      add_rule lib now directive domain value w = (Ok false, w)).
Proof.
  intros Hcb Hall. split.
  2:{ intros Hv. unfold add_rule. rewrite Hv. reflexivity. }
  destruct (_validate_rule_params directive domain value) eqn:Hv.
  2:{ unfold add_rule. rewrite Hv. reflexivity. }
  assert (Hd : domain <> EmptyString).
  { intros ->. discriminate Hv. }
  unfold add_rule. rewrite Hv. cbn [negb].
  unfold mbind at 1, M_bind at 1, run_cow_insert at 1.
  pose proof (cow_insert_ok (domain_trie (forwarder w)) domain
                (_create_rule_dict directive domain value) Hd Hcb Hall) as Hok.
  destruct (cow_insert (domain_trie (forwarder w)) domain
              (_create_rule_dict directive domain value)) as [[r t'] calls].
  cbn [fst snd] in Hok. subst r.
  unfold mbind at 1, M_bind at 1.
  destruct (has_key "address" (_create_rule_dict directive domain value));
    [|reflexivity].
  unfold on_forwarder, zoom. cbn [forwarder events].
  pose proof (ServiceClaims.add_static_cache_ok lib now
                [_create_rule_dict directive domain value]
                (with_trie (forwarder w) t')) as Hs.
  destruct (add_static_cache lib now [_create_rule_dict directive domain value]
              (with_trie (forwarder w) t')) as [r fw'].
  cbn [fst] in Hs. subst r. reflexivity.
Qed.

Lemma add_rule_answers_validation_witness :
  (add_rule plain_library 0 "address" "*.example.com" "::1" ads_world).1
  = Ok (_validate_rule_params "address" "*.example.com" "::1")
  /\ (_validate_rule_params "address" "*.example.com" "::1" = false ->
      add_rule plain_library 0 "address" "*.example.com" "::1" ads_world
      = (Ok false, ads_world)).
Proof.
  apply (add_rule_answers_validation plain_library 0 "address" "*.example.com" "::1"
           ads_world).
  - intros cb call H. vm_compute in H. discriminate H.
  - intros labels r Hr.
    destruct (decide (labels = labels_of "ads.example.com")) as [->|Hne].
    + vm_compute in Hr. injection Hr as <-. reflexivity.
    + change (root_node (domain_trie (forwarder ads_world)))
        with (insert_path (labels_of "ads.example.com") block_ads TrieNode_new) in Hr.
      rewrite rule_at_insert_path, decide_False, rule_at_new in Hr by exact Hne.
      discriminate Hr.
Defined.

(** *** Removal *)

Lemma contains_peek c now k : contains c now k = bool_decide (is_Some (peek c now k)).
Proof.
  unfold contains, peek. destruct (find_entry k (entries c)) as [e|].
  - destruct (live now e); symmetry;
      [apply bool_decide_eq_true; eauto
      |apply bool_decide_eq_false; intros [x Hx]; discriminate Hx].
  - symmetry. apply bool_decide_eq_false. intros [x Hx]. discriminate Hx.
Qed.

(** [cache.pop(key)] leaves no answer for the key and every other answer
    as it was, whether it returns or raises. *)
Lemma pop_peek now k c :
  peek (pop now k c).2 now k = None
  /\ forall k', k' <> k -> peek (pop now k c).2 now k' = peek c now k'.
Proof.
  destruct (contains c now k) eqn:Ec.
  2:{ unfold pop. rewrite Ec. cbn [snd]. split; [|reflexivity].
      rewrite contains_peek in Ec. apply bool_decide_eq_false in Ec.
      destruct (peek c now k); [exfalso; apply Ec; eauto|reflexivity]. }
  assert (Hc := Ec). unfold contains in Ec.
  destruct (find_entry k (entries c)) as [e|] eqn:Ef; [|discriminate].
  assert (Hke : e_key e = k) by exact (find_entry_key _ _ _ Ef).
  assert (Hf2 : find_entry k (remove_key k (entries c) ++ [e]) = Some e).
  { rewrite find_entry_app, find_entry_remove_key_eq. cbn [find_entry].
    rewrite Hke, key_eqb_refl. reflexivity. }
  assert (Hrun : pop now k c
                 = (Ok (e_value e),
                    with_entries c (remove_key k (remove_key k (entries c) ++ [e])))).
  { unfold pop. rewrite Hc.
    unfold mbind at 1, M_bind at 1, Cache.getitem at 1. rewrite Ef, Ec.
    unfold mbind at 1, M_bind at 1, delitem at 1.
    cbn [entries with_entries]. rewrite Hf2, Ec. reflexivity. }
  fold (pop now k c). rewrite Hrun. cbn [snd].
  split.
  - unfold peek. cbn [entries with_entries]. rewrite find_entry_remove_key_eq. reflexivity.
  - intros k' Hk'. unfold peek. cbn [entries with_entries].
    rewrite find_entry_remove_key_ne by exact Hk'.
    rewrite find_entry_app, find_entry_remove_key_ne by exact Hk'.
    destruct (find_entry k' (entries c)) as [e'|]; [reflexivity|].
    cbn [find_entry]. rewrite Hke, key_eqb_ne by congruence. reflexivity.
Qed.

Lemma invalidate_cache_run now domain fw :
  exists b c',
    _invalidate_cache now domain fw = (Ok b, with_cache fw c')
    /\ peek c' now (domain, A) = None
    /\ forall k', k' <> (domain, A) -> peek c' now k' = peek (cache fw) now k'.
Proof.
  pose proof (pop_peek now (domain, A) (cache fw)) as [H1 H2].
  unfold _invalidate_cache, try_except, mbind, M_bind, on_cache, zoom.
  destruct (pop now (domain, A) (cache fw)) as [[v|e] c']; cbn [snd] in H1, H2.
  - exists true, c'. split; [reflexivity|]. split; assumption.
  - exists false, c'. split; [reflexivity|]. split; assumption.
Qed.

(** X21.  [remove_rule] never answers [True].  When [cow_remove] finds
    nothing to remove or raises, the answer is [False]; when it removes
    the rule, [remove_rule] drops the cache entry of the domain and then
    awaits the value [_invalidate_cache] returned, a [bool]: the
    [TypeError] is caught and the answer is [False] again, although the
    rule is gone from the trie and the A entry of the domain from the
    cache (every other cache answer being as before). *)
Theorem remove_rule_never_answers_true (now : Z) (domain : string)
    (directive : option string) (w : World) :
  (remove_rule now domain directive w).1 = Ok false
  /\ events (remove_rule now domain directive w).2 = events w
  /\ forall t',
       cow_remove (domain_trie (forwarder w)) domain directive = (Ok true, t') ->
       domain_trie (forwarder (remove_rule now domain directive w).2) = t'
       /\ peek (cache (forwarder (remove_rule now domain directive w).2)) now (domain, A)
          = None
       /\ forall k, k <> (domain, A) ->
            peek (cache (forwarder (remove_rule now domain directive w).2)) now k
            = peek (cache (forwarder w)) now k.
Proof.
  destruct (cow_remove (domain_trie (forwarder w)) domain directive) as [r t'] eqn:Er.
  assert (Hrun :
    (r = Ok true
     /\ exists c',
          remove_rule now domain directive w
          = (Ok false, mkWorld (with_cache (with_trie (forwarder w) t') c') (events w))
          /\ peek c' now (domain, A) = None
          /\ forall k', k' <> (domain, A) -> peek c' now k' = peek (cache (forwarder w)) now k')
    \/ (r <> Ok true
        /\ remove_rule now domain directive w
           = (Ok false, mkWorld (with_trie (forwarder w) t') (events w)))).
  { destruct r as [[|]|e].
    - left. split; [reflexivity|].
      destruct (invalidate_cache_run now domain (with_trie (forwarder w) t'))
        as (b & c' & Hi & Hp & Hk).
      exists c'. split; [|split; [exact Hp|exact Hk]].
      unfold remove_rule, try_except.
      unfold mbind at 1, M_bind at 1, run_cow_remove at 1. rewrite Er.
      unfold mbind at 1, M_bind at 1. unfold mbind at 1, M_bind at 1.
      unfold on_forwarder, zoom. cbn [forwarder events]. rewrite Hi. reflexivity.
    - right. split; [discriminate|].
      unfold remove_rule, try_except.
      unfold mbind at 1, M_bind at 1, run_cow_remove at 1. rewrite Er. reflexivity.
    - right. split; [discriminate|].
      unfold remove_rule, try_except.
      unfold mbind at 1, M_bind at 1, run_cow_remove at 1. rewrite Er. reflexivity. }
  destruct Hrun as [(-> & c' & -> & Hp & Hk)|[Hne ->]]; cbn [fst snd events forwarder].
  - split; [reflexivity|]. split; [reflexivity|].
    intros t'' Ht. injection Ht as <-. split; [reflexivity|]. split; [exact Hp|exact Hk].
  - split; [reflexivity|]. split; [reflexivity|].
    intros t'' Ht. injection Ht as -> _. exfalso. apply Hne. reflexivity.
Qed.

(** The rule of ["ads.example.com"] is removed, its cache entry is
    dropped, and the answer is [False]. *)
Example remove_rule_answers_false_after_removing :
  _domain_exits (domain_trie (forwarder ads_world)) "ads.example.com" = true
  /\ peek (cache (forwarder ads_world)) 10 ("ads.example.com", A) = Some (ads_answer, 900%Z)
  /\ (remove_rule 10 "ads.example.com" None ads_world).1 = Ok false
  /\ _domain_exits
       (domain_trie (forwarder (remove_rule 10 "ads.example.com" None ads_world).2))
       "ads.example.com" = false
  /\ peek (cache (forwarder (remove_rule 10 "ads.example.com" None ads_world).2)) 10
       ("ads.example.com", A) = None.
Proof. repeat split; by_eval. Qed.

(** *** Purge and batch build *)

(** X22.  [PolicyService.purge] answers [True] and never raises.
    Afterwards the trie is empty, so [lookup] returns the empty rule for
    every non-empty domain, and the cache answers a key exactly when it
    answered before with a pinned (static) entry; nothing is sent and no
    callback is called. *)
Theorem purge_clears_rules_and_cache (now : Z) (w : World) :
  exists w',
    purge now w = (Ok true, w')
    /\ domain_trie (forwarder w') = purge_trie (domain_trie (forwarder w))
    /\ (forall domain, domain <> EmptyString ->
          exists node, lookup (domain_trie (forwarder w')) domain = Ok (∅, node))
    /\ (forall k, peek (cache (forwarder w')) now k
                  = keep_pinned MAX_DNS_TTL (peek (cache (forwarder w)) now k))
    /\ events w' = events w.
Proof.
  unfold purge, try_except.
  unfold mbind at 1, M_bind at 1, get_state at 1.
  unfold mbind at 1, M_bind at 1, put_state at 1.
  unfold mbind at 1, M_bind at 1, on_forwarder at 1, zoom at 1.
  cbn [forwarder events].
  destruct (ForwardMore.purge_cache_run now
              (with_trie (forwarder w) (purge_trie (domain_trie (forwarder w)))))
    as (c' & -> & _ & _ & Hk).
  eexists. split; [reflexivity|].
  cbn [forwarder events domain_trie cache with_cache with_trie] in *.
  split; [reflexivity|]. split; [|split; [exact Hk|reflexivity]].
  intros domain Hd. eexists.
  unfold lookup, purge_trie.
  rewrite root_node_swap_root, TrieMore.lookup_node_new by exact Hd. reflexivity.
Qed.

(** *** Valid domains *)

Lemma forallb_str_split p sep s :
  forallb (PyStr.forallb_str p) (PyStr.split sep s) = true ->
  PyStr.forallb_str (fun c => p c || Ascii.eqb c sep) s = true.
Proof.
  induction s as [|a s IH]; [reflexivity|].
  cbn [PyStr.split PyStr.forallb_str].
  destruct (Ascii.eqb a sep) eqn:Ea.
  - cbn [forallb PyStr.forallb_str]. intros H.
    rewrite orb_true_r. cbn [andb]. apply IH. exact H.
  - destruct (PyStr.split sep s) as [|h t] eqn:Es.
    + exfalso. exact (split_nonempty _ _ Es).
    + cbn [forallb PyStr.forallb_str] in *. intros H.
      apply andb_true_iff in H as [H Ht]. apply andb_true_iff in H as [Ha Hh].
      rewrite Ha. cbn [orb andb]. apply IH. rewrite Hh, Ht. reflexivity.
Qed.

Lemma forallb_valid_label labels :
  forallb valid_label labels = true ->
  forallb (PyStr.forallb_str (fun c => PyStr.isalnum c || Ascii.eqb c "-")) labels = true.
Proof.
  induction labels as [|l labels IH]; [reflexivity|].
  cbn [forallb]. intros H. apply andb_true_iff in H as [Hl H].
  rewrite (IH H), andb_true_r. unfold valid_label in Hl.
  apply andb_true_iff in Hl as [Hl _]. apply andb_true_iff in Hl as [_ Hl]. exact Hl.
Qed.

Lemma forallb_str_contains q c s :
  PyStr.forallb_str q s = true -> q c = false -> PyStr.contains_char c s = false.
Proof.
  intros Hs Hc. induction s as [|a s IH]; [reflexivity|].
  cbn [PyStr.forallb_str PyStr.contains_char] in *.
  apply andb_true_iff in Hs as [Ha Hs]. rewrite (IH Hs), orb_false_r.
  destruct (Ascii.eqb a c) eqn:E; [|reflexivity].
  apply Ascii.eqb_eq in E. subst a. congruence.
Qed.

(** X30.  A domain [_is_valid_domain] accepts is not empty and, after an
    optional leading ["*."], holds nothing but alphanumeric characters,
    hyphens and dots: the wildcard star can only be the leading label,
    and a star anywhere else, or alone, is refused.  [lookup] does not
    raise on such a domain. *)
Theorem valid_domain_has_only_leading_wildcard (domain : string) :
  _is_valid_domain domain = true ->
  let body := if PyStr.startswith "*." domain then PyStr.drop 2 domain else domain in
  domain <> EmptyString
  /\ body <> EmptyString
  /\ PyStr.forallb_str
       (fun c => PyStr.isalnum c || Ascii.eqb c "-" || Ascii.eqb c ".") body = true
  /\ PyStr.contains_char "*" body = false
  /\ forall t, exists r node, lookup t domain = Ok (r, node).
Proof.
  intros Hv body. unfold _is_valid_domain in Hv.
  destruct (253 <? String.length domain); [discriminate|]. fold body in Hv.
  assert (Hb : body <> EmptyString).
  { intros E. rewrite E in Hv. discriminate Hv. }
  assert (Hd : domain <> EmptyString).
  { intros ->. apply Hb. reflexivity. }
  assert (Hc : PyStr.forallb_str
                 (fun c => PyStr.isalnum c || Ascii.eqb c "-" || Ascii.eqb c ".") body
               = true).
  { apply (forallb_str_split (fun c => PyStr.isalnum c || Ascii.eqb c "-") "." body).
    apply forallb_valid_label. exact Hv. }
  split; [exact Hd|]. split; [exact Hb|]. split; [exact Hc|]. split.
  - apply (forallb_str_contains _ _ _ Hc). reflexivity.
  - intros t. apply TrieMore.lookup_nonempty_ok. exact Hd.
Qed.

Lemma valid_domain_has_only_leading_wildcard_witness :
  let body := if PyStr.startswith "*." "*.example.com"
              then PyStr.drop 2 "*.example.com" else "*.example.com" in
  "*.example.com" <> EmptyString
  /\ body <> EmptyString
  /\ PyStr.forallb_str
       (fun c => PyStr.isalnum c || Ascii.eqb c "-" || Ascii.eqb c ".") body = true
  /\ PyStr.contains_char "*" body = false
  /\ forall t, exists r node, lookup t "*.example.com" = Ok (r, node).
Proof. apply (valid_domain_has_only_leading_wildcard "*.example.com"). reflexivity. Defined.

End ServiceMore.

(* ===================================================================== *)
(** ** Start-up and batch loading *)
(* ===================================================================== *)

Module StartupMore.
Import Dns Cache Forward PolicyService Scenario.
Import Trie TrieFacts.

Lemma with_trie_same fw : with_trie fw (domain_trie fw) = fw.
Proof. destruct fw. reflexivity. Qed.

Lemma wf_insert t domain r : wf t -> wf (insert t domain r).
Proof. unfold wf, insert. cbn [heap root]. rewrite length_insert. tauto. Qed.

Lemma has_str_domain_Some (r : Rule) :
  has_str_domain r = true -> r !! "domain" = Some (VStr (domain_of r)).
Proof.
  unfold has_str_domain, domain_of.
  destruct (r !! "domain") as [[d| |]|]; (reflexivity || discriminate).
Qed.

Lemma has_str_domain_nonempty (r : Rule) : has_str_domain r = true -> r <> ∅.
Proof. intros H ->. discriminate H. Qed.

Lemma build_domain_trie_cons r rules fw :
  has_str_domain r = true ->
  build_domain_trie (r :: rules) fw
  = build_domain_trie rules (with_trie fw (insert (domain_trie fw) (domain_of r) r)).
Proof.
  intros Hr. cbn [build_domain_trie].
  unfold mbind at 1, M_bind at 1, lift_result at 1, getitem at 1.
  rewrite (has_str_domain_Some r Hr). reflexivity.
Qed.

(** [build_domain_trie] over rules that name their domain: every rule is
    inserted, in place, in the live tree. *)
Lemma build_domain_trie_run rules fw :
  Forall (fun r => has_str_domain r = true) rules ->
  wf (domain_trie fw) ->
  exists t',
    build_domain_trie rules fw = (Ok tt, with_trie fw t')
    /\ wf t' /\ root t' = root (domain_trie fw)
    /\ length (heap t') = length (heap (domain_trie fw))
    /\ (forall a, a <> root (domain_trie fw) -> heap t' !! a = heap (domain_trie fw) !! a)
    /\ root_node t' = inserted rules (root_node (domain_trie fw)).
Proof.
  intros Hall. revert fw. induction Hall as [|r rules Hr Hall IH]; intros fw Hwf.
  - exists (domain_trie fw). rewrite with_trie_same. repeat split; try reflexivity.
    exact Hwf.
  - rewrite (build_domain_trie_cons r rules fw Hr).
    set (t1 := insert (domain_trie fw) (domain_of r) r).
    destruct (IH (with_trie fw t1)) as (t' & Hrun & Hwf' & Hroot & Hlen & Hheap & Hnode).
    { cbn [domain_trie with_trie]. apply wf_insert, Hwf. }
    exists t'. rewrite Hrun. cbn [domain_trie with_trie] in *.
    split; [reflexivity|]. split; [exact Hwf'|]. split; [exact Hroot|].
    split; [rewrite Hlen; unfold t1, insert; cbn [heap]; apply length_insert|].
    split.
    + intros a Ha. rewrite Hheap by exact Ha. unfold t1, insert. cbn [heap].
      apply list_lookup_insert_ne. congruence.
    + rewrite Hnode. unfold t1. rewrite TrieMore.root_node_insert by exact Hwf.
      reflexivity.
Qed.

(** The first rule that does not name its domain by a string ends the
    loop with an exception; the rules before it are in the tree. *)
Lemma build_domain_trie_fail good bad rest fw :
  Forall (fun r => has_str_domain r = true) good ->
  has_str_domain bad = false ->
  wf (domain_trie fw) ->
  exists e t',
    build_domain_trie (good ++ bad :: rest) fw = (Raise e, with_trie fw t')
    /\ build_domain_trie good fw = (Ok tt, with_trie fw t').
Proof.
  intros Hall Hbad. revert fw. induction Hall as [|r good Hr Hall IH]; intros fw Hwf.
  - exists (match bad !! "domain" with
            | None => KeyError "domain"
            | Some _ => AttributeError "split"
            end), (domain_trie fw).
    rewrite with_trie_same. split; [|reflexivity].
    cbn [app build_domain_trie].
    unfold mbind at 1, M_bind at 1, lift_result at 1, getitem at 1.
    unfold has_str_domain in Hbad.
    destruct (bad !! "domain") as [[d| |]|]; (discriminate || reflexivity).
  - cbn [app].
    set (t1 := insert (domain_trie fw) (domain_of r) r).
    destruct (IH (with_trie fw t1)) as (e & t' & Hrun & Hgood).
    { cbn [domain_trie with_trie]. apply wf_insert, Hwf. }
    exists e, t'. rewrite !(build_domain_trie_cons r _ fw Hr). fold t1.
    rewrite Hrun, Hgood. split; reflexivity.
Qed.

(** X23.  [batch_build] purges the trie and inserts the rules in order.
    When every rule names its domain by a string it answers [True] and
    the trie holds exactly what the insertions make of an empty tree; the
    cache is not touched.  The first rule that does not name its domain
    makes it answer [False], but the old rules are gone all the same and
    the rules before the faulty one are in the trie: the result is that
    of a successful [batch_build] of that prefix. *)
Theorem batch_build_replaces_or_half_builds (good : list Rule) (w : World) :
  Forall (fun r => has_str_domain r = true) good ->
  exists t',
    batch_build good w = (Ok true, mkWorld (with_trie (forwarder w) t') (events w))
    /\ root_node t' = inserted good TrieNode_new
    /\ (forall bad rest,
          has_str_domain bad = false ->
          batch_build (good ++ bad :: rest) w
          = (Ok false, mkWorld (with_trie (forwarder w) t') (events w))).
Proof.
  intros Hall.
  set (fw0 := with_trie (forwarder w) (purge_trie (domain_trie (forwarder w)))).
  assert (Hwf : wf (domain_trie fw0)).
  { unfold fw0, wf, purge_trie, swap_root. cbn [domain_trie with_trie heap root].
    rewrite length_app. cbn [length]. lia. }
  destruct (build_domain_trie_run good fw0 Hall Hwf)
    as (t' & Hrun & _ & _ & _ & _ & Hnode).
  exists t'. split; [|split].
  - unfold batch_build, try_except.
    unfold mbind at 1, M_bind at 1, get_state at 1.
    unfold mbind at 1, M_bind at 1, put_state at 1.
    unfold mbind at 1, M_bind at 1, on_forwarder at 1, zoom at 1.
    cbn [forwarder events]. fold fw0. rewrite Hrun. reflexivity.
  - rewrite Hnode. unfold fw0, purge_trie. cbn [domain_trie with_trie].
    rewrite root_node_swap_root. reflexivity.
  - intros bad rest Hbad.
    destruct (build_domain_trie_fail good bad rest fw0 Hall Hbad Hwf)
      as (e & t'' & Hfail & Hgood).
    rewrite Hrun in Hgood. injection Hgood as Ht.
    unfold batch_build, try_except.
    unfold mbind at 1, M_bind at 1, get_state at 1.
    unfold mbind at 1, M_bind at 1, put_state at 1.
    unfold mbind at 1, M_bind at 1, on_forwarder at 1, zoom at 1.
    cbn [forwarder events]. fold fw0. rewrite Hfail.
    cbn [mret M_ret]. f_equal. f_equal.
    unfold fw0, with_trie in *. cbn in *. congruence.
Qed.

Lemma batch_build_replaces_or_half_builds_witness :
  exists t',
    batch_build [route_x; block_ads] ads_world
    = (Ok true, mkWorld (with_trie (forwarder ads_world) t') (events ads_world))
    /\ root_node t' = inserted [route_x; block_ads] TrieNode_new
    /\ (forall bad rest,
          has_str_domain bad = false ->
          batch_build ([route_x; block_ads] ++ bad :: rest) ads_world
          = (Ok false, mkWorld (with_trie (forwarder ads_world) t') (events ads_world))).
Proof.
  apply (batch_build_replaces_or_half_builds [route_x; block_ads] ads_world).
  constructor; [by_eval|constructor; [by_eval|constructor]].
Defined.

(** *** Every loaded rule is found *)

Lemma split_inj sep s1 s2 : PyStr.split sep s1 = PyStr.split sep s2 -> s1 = s2.
Proof.
  revert s2. induction s1 as [|a s1 IH]; intros s2.
  - destruct s2 as [|b s2]; [reflexivity|]. cbn [PyStr.split].
    destruct (Ascii.eqb b sep).
    + intros H. injection H as H. symmetry in H.
      exfalso. exact (split_nonempty _ _ H).
    + destruct (PyStr.split sep s2) as [|h t]; intros H; discriminate H.
  - destruct s2 as [|b s2]; cbn [PyStr.split].
    + destruct (Ascii.eqb a sep).
      * intros H. injection H as H. exfalso. exact (split_nonempty _ _ H).
      * destruct (PyStr.split sep s1) as [|h t]; intros H; discriminate H.
    + destruct (Ascii.eqb a sep) eqn:Ea, (Ascii.eqb b sep) eqn:Eb.
      * intros H. injection H as H. apply IH in H.
        apply Ascii.eqb_eq in Ea, Eb. congruence.
      * destruct (PyStr.split sep s2) as [|h t]; intros H; discriminate H.
      * destruct (PyStr.split sep s1) as [|h t]; intros H; discriminate H.
      * destruct (PyStr.split sep s1) as [|h1 t1] eqn:E1;
          [exfalso; exact (split_nonempty _ _ E1)|].
        destruct (PyStr.split sep s2) as [|h2 t2] eqn:E2;
          [exfalso; exact (split_nonempty _ _ E2)|].
        intros H. injection H as -> -> ->.
        f_equal. apply IH. rewrite E2. reflexivity.
Qed.

Lemma labels_of_inj d1 d2 : labels_of d1 = labels_of d2 -> d1 = d2.
Proof.
  unfold labels_of. intros H. apply (f_equal (@rev string)) in H.
  rewrite !rev_involutive in H. exact (split_inj _ _ _ H).
Qed.

Lemma inserted_other rules n p :
  p ∉ map (fun r => labels_of (domain_of r)) rules ->
  rule_at p (inserted rules n) = rule_at p n.
Proof.
  revert n. induction rules as [|r rules IH]; intros n Hp; [reflexivity|].
  cbn [map] in Hp. apply not_elem_of_cons in Hp as [Hne Hp].
  unfold inserted. cbn [foldl]. fold (inserted rules (insert_path (labels_of (domain_of r)) r n)).
  rewrite IH by exact Hp.
  rewrite rule_at_insert_path, decide_False by exact Hne. reflexivity.
Qed.

Lemma inserted_in rules n r :
  NoDup (map domain_of rules) -> r ∈ rules ->
  rule_at (labels_of (domain_of r)) (inserted rules n) = Some r.
Proof.
  revert n. induction rules as [|r0 rules IH]; intros n Hnd Hin.
  - apply elem_of_nil in Hin. destruct Hin.
  - cbn [map] in Hnd. apply NoDup_cons in Hnd as [Hnot Hnd].
    unfold inserted. cbn [foldl].
    fold (inserted rules (insert_path (labels_of (domain_of r0)) r0 n)).
    apply elem_of_cons in Hin as [->|Hin].
    + rewrite inserted_other.
      * rewrite rule_at_insert_path, decide_True by reflexivity. reflexivity.
      * intros H. apply list_elem_of_fmap in H as (r' & Heq & Hr').
        apply labels_of_inj in Heq. apply Hnot. rewrite Heq.
        apply list_elem_of_fmap. exists r'. split; [reflexivity|exact Hr'].
    + apply IH; assumption.
Qed.

(** X24.  After [build_domain_trie] has loaded rules that name pairwise
    different, non-empty domains (what [_merge_rules] hands over),
    [lookup] of the domain of each rule returns that very rule, with the
    node at the domain's path: no rule is lost or replaced by another,
    and no wildcard rule stands in for a rule of the domain itself.  The
    rules go into the tree that was live, in place. *)
Theorem built_trie_answers_every_rule (rules : list Rule) (fw : DNSForwarder) :
  Forall (fun r => has_str_domain r = true) rules ->
  NoDup (map domain_of rules) ->
  wf (domain_trie fw) ->
  exists fw',
    build_domain_trie rules fw = (Ok tt, fw')
    /\ root (domain_trie fw') = root (domain_trie fw)
    /\ cache fw' = cache fw
    /\ forall r, r ∈ rules -> domain_of r <> EmptyString ->
         lookup (domain_trie fw') (domain_of r)
         = Ok (r, mkNodeRef (root (domain_trie fw)) (labels_of (domain_of r))).
Proof.
  intros Hall Hnd Hwf.
  destruct (build_domain_trie_run rules fw Hall Hwf)
    as (t' & Hrun & _ & Hroot & _ & _ & Hnode).
  exists (with_trie fw t'). split; [exact Hrun|].
  cbn [domain_trie with_trie cache]. split; [exact Hroot|]. split; [reflexivity|].
  intros r Hin Hd. unfold lookup. rewrite Hnode, Hroot.
  rewrite (lookup_node_exact _ (domain_of r) r Hd); [reflexivity| |].
  - apply inserted_in; assumption.
  - apply has_str_domain_nonempty. rewrite Forall_forall in Hall. apply Hall, Hin.
Qed.

Lemma built_trie_answers_every_rule_witness :
  exists fw',
    build_domain_trie [route_x; block_ads; route_com] default_forwarder = (Ok tt, fw')
    /\ root (domain_trie fw') = root (domain_trie default_forwarder)
    /\ cache fw' = cache default_forwarder
    /\ forall r, r ∈ [route_x; block_ads; route_com] -> domain_of r <> EmptyString ->
         lookup (domain_trie fw') (domain_of r)
         = Ok (r, mkNodeRef (root (domain_trie default_forwarder))
                    (labels_of (domain_of r))).
Proof.
  apply (built_trie_answers_every_rule [route_x; block_ads; route_com] default_forwarder).
  - constructor; [by_eval|constructor; [by_eval|constructor; [by_eval|constructor]]].
  - vm_compute. repeat constructor; rewrite ?elem_of_cons, ?elem_of_nil;
      intros H; repeat (destruct H as [H|H]; [discriminate H|]); exact H.
  - vm_compute. lia.
Defined.

End StartupMore.

(* ===================================================================== *)
(** ** The configuration *)
(* ===================================================================== *)

Module ConfigMore.
Import PyStr Config Forward Scenario.
Import Trie TrieFacts StartupMore.

(** *** The merge *)

Lemma find_domain_spec d (acc : list Rule) i :
  Forall (fun r : Rule => is_Some (r !! "domain")) acc ->
  (exists k e, find_domain d acc i = Ok (Some (i + k))
               /\ acc !! k = Some e /\ e !! "domain" = Some d)
  \/ (find_domain d acc i = Ok None
      /\ Forall (fun e : Rule => e !! "domain" <> Some d) acc).
Proof.
  intros Hall. revert i. induction Hall as [|e acc [x Hx] Hall IH]; intros i.
  - right. split; [reflexivity|constructor].
  - cbn [find_domain]. rewrite Hx.
    destruct (bool_decide (x = d)) eqn:E.
    + apply bool_decide_eq_true in E. subst x. left. exists 0, e.
      rewrite Nat.add_0_r. split; [reflexivity|]. split; [reflexivity|exact Hx].
    + apply bool_decide_eq_false in E.
      destruct (IH (S i)) as [(k & e' & Hf & Hk & He)|[Hf Hn]].
      * left. exists (S k), e'. rewrite Hf.
        replace (i + S k) with (S i + k) by lia. repeat split; assumption.
      * right. split; [exact Hf|]. constructor; [|exact Hn]. congruence.
Qed.

Lemma has_key_union_l k (rule e : Rule) :
  has_key k rule = true -> has_key k (rule ∪ e) = true.
Proof.
  unfold has_key. rewrite !bool_decide_eq_true. intros [v Hv].
  exists v. apply lookup_union_Some_l. exact Hv.
Qed.

Lemma has_key_union_r k (rule e : Rule) :
  has_key k e = true -> has_key k (rule ∪ e) = true.
Proof.
  unfold has_key. rewrite !bool_decide_eq_true. intros He.
  apply lookup_union_is_Some. right. exact He.
Qed.

Lemma covers_refl l : covers l l.
Proof. intros r Hr. exists r. repeat split; [exact Hr|auto]. Qed.

Lemma covers_trans l1 l2 l3 : covers l1 l2 -> covers l2 l3 -> covers l1 l3.
Proof.
  intros H12 H23 r Hr.
  destruct (H12 r Hr) as (m & Hm & Hd & Hk).
  destruct (H23 m Hm) as (m' & Hm' & Hd' & Hk').
  exists m'. split; [exact Hm'|]. split; [congruence|auto].
Qed.

Lemma covers_app l1 l2 l : covers l1 l -> covers l2 l -> covers (l1 ++ l2) l.
Proof.
  intros H1 H2 r Hr. apply elem_of_app in Hr as [Hr|Hr]; [apply H1|apply H2]; exact Hr.
Qed.

(** One round of the merge: it does not raise, it keeps one rule per
    domain, and nothing of what was there or of the new rule is lost. *)
Lemma merge_one_spec (acc : list Rule) (rule : Rule) :
  Forall (fun r : Rule => is_Some (r !! "domain")) acc ->
  NoDup (domains acc) ->
  is_Some (rule !! "domain") ->
  exists acc',
    merge_one acc rule = Ok acc'
    /\ Forall (fun r : Rule => is_Some (r !! "domain")) acc'
    /\ NoDup (domains acc')
    /\ covers (acc ++ [rule]) acc'
    /\ (forall x, x ∈ domains acc' -> x ∈ domains (acc ++ [rule])).
Proof.
  intros Hall Hnd [d Hd]. unfold merge_one. rewrite Hd.
  destruct (find_domain_spec d acc 0 Hall) as [(k & e & Hf & Hk & He)|[Hf Hn]];
    rewrite Hf.
  - cbn [Nat.add].
    set (f := fun e : Rule => dict_update e rule).
    assert (Hdoms : domains (alter f k acc) = domains acc).
    { unfold domains. apply list_eq. intros j. rewrite !list_lookup_fmap.
      destruct (decide (k = j)) as [<-|Hne].
      - rewrite list_lookup_alter_eq, Hk. cbn. f_equal.
        unfold f, dict_update. rewrite He. apply lookup_union_Some_l. exact Hd.
      - rewrite list_lookup_alter_ne by exact Hne. reflexivity. }
    eexists. split; [reflexivity|].
    split; [|split; [rewrite Hdoms; exact Hnd|split]].
    + apply Forall_forall. intros m Hm.
      assert (Hin : m !! "domain" ∈ domains (alter f k acc)).
      { unfold domains. apply list_elem_of_fmap. eauto. }
      rewrite Hdoms in Hin. unfold domains in Hin.
      apply list_elem_of_fmap in Hin as (m0 & -> & Hm0).
      rewrite Forall_forall in Hall. apply Hall, Hm0.
    + apply covers_app.
      * intros r Hr. apply list_elem_of_lookup in Hr as [j Hj].
        destruct (decide (k = j)) as [<-|Hne].
        -- exists (f e). split; [|split].
           ++ apply list_elem_of_lookup. exists k.
              rewrite list_lookup_alter_eq, Hk. reflexivity.
           ++ rewrite Hk in Hj. injection Hj as <-. unfold f, dict_update.
              rewrite He. apply lookup_union_Some_l. exact Hd.
           ++ rewrite Hk in Hj. injection Hj as <-. intros key Hkey.
              unfold f, dict_update. apply has_key_union_r. exact Hkey.
        -- exists r. split; [|split; [reflexivity|auto]].
           apply list_elem_of_lookup. exists j.
           rewrite list_lookup_alter_ne by exact Hne. exact Hj.
      * intros r Hr. apply list_elem_of_singleton in Hr. subst r.
        exists (f e). split; [|split].
        -- apply list_elem_of_lookup. exists k.
           rewrite list_lookup_alter_eq, Hk. reflexivity.
        -- unfold f, dict_update. rewrite Hd. apply lookup_union_Some_l. exact Hd.
        -- intros key Hkey. unfold f, dict_update. apply has_key_union_l. exact Hkey.
    + intros x Hx. rewrite Hdoms in Hx. unfold domains in *.
      rewrite map_app. apply elem_of_app. left. exact Hx.
  - eexists. split; [reflexivity|].
    split; [|split; [|split]].
    + apply Forall_app. split; [exact Hall|]. constructor; [eauto|constructor].
    + unfold domains. rewrite map_app. apply NoDup_app. split; [exact Hnd|]. split.
      * intros x Hx Hx'. cbn [map] in Hx'. apply list_elem_of_singleton in Hx'. subst x.
        apply list_elem_of_fmap in Hx as (m & Hm & Hin).
        rewrite Forall_forall in Hn. apply (Hn m Hin). congruence.
      * cbn [map]. apply NoDup_singleton.
    + apply covers_refl.
    + auto.
Qed.

Lemma merge_all_spec (all_lists acc : list Rule) :
  Forall (fun r : Rule => is_Some (r !! "domain")) acc ->
  NoDup (domains acc) ->
  Forall (fun r : Rule => is_Some (r !! "domain")) all_lists ->
  exists merged,
    merge_all acc all_lists = Ok merged
    /\ Forall (fun r : Rule => is_Some (r !! "domain")) merged
    /\ NoDup (domains merged)
    /\ covers (acc ++ all_lists) merged
    /\ (forall x, x ∈ domains merged -> x ∈ domains (acc ++ all_lists)).
Proof.
  intros Hacc Hnd Hall. revert acc Hacc Hnd.
  induction Hall as [|rule rest Hrule Hall IH]; intros acc Hacc Hnd.
  - exists acc. rewrite app_nil_r. split; [reflexivity|].
    split; [exact Hacc|]. split; [exact Hnd|]. split; [apply covers_refl|auto].
  - cbn [merge_all].
    destruct (merge_one_spec acc rule Hacc Hnd Hrule)
      as (acc' & -> & Hacc' & Hnd' & Hcov & Hdom).
    destruct (IH acc' Hacc' Hnd') as (merged & Hrun & Hm & Hndm & Hcovm & Hdomm).
    exists merged. split; [exact Hrun|]. split; [exact Hm|]. split; [exact Hndm|].
    replace (acc ++ rule :: rest) with ((acc ++ [rule]) ++ rest)
      by (rewrite <- app_assoc; reflexivity).
    split.
    + apply covers_app.
      * apply (covers_trans _ acc'); [exact Hcov|].
        intros r Hr. apply Hcovm. apply elem_of_app. left. exact Hr.
      * intros r Hr. apply Hcovm. apply elem_of_app. right. exact Hr.
    + intros x Hx. apply Hdomm in Hx. unfold domains in *.
      rewrite map_app in Hx. rewrite map_app.
      apply elem_of_app in Hx as [Hx|Hx]; apply elem_of_app; [left|right; exact Hx].
      apply Hdom. exact Hx.
Qed.

(** *** The dicts of the parsed lists after the merge *)

Lemma domains_app l1 l2 : domains (l1 ++ l2) = domains l1 ++ domains l2.
Proof. unfold domains. apply map_app. Qed.

Lemma appended_spec (acc : list Rule) (rule : Rule) d :
  Forall (fun r : Rule => is_Some (r !! "domain")) acc ->
  rule !! "domain" = Some d ->
  (appended acc rule = true /\ Some d ∉ domains acc)
  \/ (appended acc rule = false /\ Some d ∈ domains acc).
Proof.
  intros Hall Hd. unfold appended. rewrite Hd.
  destruct (find_domain_spec d acc 0 Hall) as [(k & e & Hf & Hk & He)|[Hf Hn]];
    rewrite Hf.
  - right. split; [reflexivity|]. unfold domains. apply list_elem_of_fmap. exists e.
    split; [symmetry; exact He|]. apply list_elem_of_lookup. eauto.
  - left. split; [reflexivity|]. intros Hin. unfold domains in Hin.
    apply list_elem_of_fmap in Hin as (m & Hm & Hin).
    rewrite Forall_forall in Hn. apply (Hn m Hin). congruence.
Qed.

(** A round of the loop changes the domains of [config["rules"]] only by
    appending one. *)
Lemma merge_one_domains (acc : list Rule) (rule : Rule) acc' :
  Forall (fun r : Rule => is_Some (r !! "domain")) acc ->
  is_Some (rule !! "domain") ->
  merge_one acc rule = Ok acc' ->
  domains acc' = domains acc ++ (if appended acc rule then [rule !! "domain"] else []).
Proof.
  intros Hall [d Hd]. unfold merge_one, appended. rewrite Hd.
  destruct (find_domain_spec d acc 0 Hall) as [(k & e & Hf & Hk & He)|[Hf Hn]];
    rewrite Hf; intros H; injection H as <-.
  - cbn [Nat.add]. rewrite app_nil_r.
    unfold domains. apply list_eq. intros j. rewrite !list_lookup_fmap.
    destruct (decide (k = j)) as [<-|Hne].
    + rewrite list_lookup_alter_eq, Hk. cbn. f_equal.
      unfold dict_update. rewrite He. apply lookup_union_Some_l. exact Hd.
    + rewrite list_lookup_alter_ne by exact Hne. reflexivity.
  - rewrite domains_app. unfold domains at 2. cbn [map]. rewrite Hd. reflexivity.
Qed.

Lemma merge_one_domains_elem (acc : list Rule) (rule : Rule) acc' l x :
  Forall (fun r : Rule => is_Some (r !! "domain")) acc ->
  is_Some (rule !! "domain") ->
  merge_one acc rule = Ok acc' ->
  x ∈ domains (acc' ++ l) <-> x ∈ domains (acc ++ rule :: l).
Proof.
  intros Hall Hrule Hone.
  rewrite !domains_app, (merge_one_domains acc rule acc' Hall Hrule Hone).
  destruct Hrule as [d Hd]. change (domains (rule :: l)) with (rule !! "domain" :: domains l).
  destruct (appended_spec acc rule d Hall Hd) as [[-> _]|[-> Hin]].
  - rewrite <- app_assoc. reflexivity.
  - rewrite app_nil_r, !elem_of_app, elem_of_cons, Hd. split.
    + intros [H|H]; auto.
    + intros [H|[->|H]]; auto.
Qed.

(** Where the dicts of the parsed lists end up: a rule whose domain was
    there before stays as it was parsed; the first rule of a domain is the
    merged rule of that domain. *)
Lemma merge_places_spec (all_lists acc merged : list Rule) :
  Forall (fun r : Rule => is_Some (r !! "domain")) acc ->
  NoDup (domains acc) ->
  Forall (fun r : Rule => is_Some (r !! "domain")) all_lists ->
  merge_all acc all_lists = Ok merged ->
  length (merge_places acc all_lists) = length all_lists
  /\ (exists tail, domains merged = domains acc ++ tail)
  /\ forall j r place,
       all_lists !! j = Some r ->
       merge_places acc all_lists !! j = Some place ->
       (r !! "domain" ∈ domains (acc ++ firstn j all_lists)
        /\ shared_rule merged r place = r)
       \/ ((r !! "domain" ∉ domains (acc ++ firstn j all_lists))
           /\ shared_rule merged r place ∈ merged
           /\ shared_rule merged r place !! "domain" = r !! "domain").
Proof.
  intros Hacc Hnd Hall. revert acc merged Hacc Hnd.
  induction Hall as [|rule rest Hrule Hall IH]; intros acc merged Hacc Hnd Hrun.
  - cbn in Hrun. injection Hrun as <-. split; [reflexivity|].
    split; [exists []; rewrite app_nil_r; reflexivity|].
    intros j r place Hj. rewrite lookup_nil in Hj. discriminate Hj.
  - cbn [merge_all] in Hrun. cbn [merge_places].
    destruct (merge_one_spec acc rule Hacc Hnd Hrule)
      as (acc' & Hone & Hacc' & Hnd' & _ & _).
    rewrite Hone in Hrun |- *.
    destruct (IH acc' merged Hacc' Hnd' Hrun) as (Hlen & [tail Htail] & Hpos).
    pose proof (merge_one_domains acc rule acc' Hacc Hrule Hone) as Hdoms.
    split; [cbn [length]; rewrite Hlen; reflexivity|].
    split.
    { exists ((if appended acc rule then [rule !! "domain"] else []) ++ tail).
      rewrite Htail, Hdoms, app_assoc. reflexivity. }
    intros [|j] r place Hj Hp.
    + cbn in Hj, Hp. injection Hj as <-. injection Hp as <-.
      cbn [firstn]. rewrite app_nil_r.
      destruct Hrule as [d Hd].
      destruct (appended_spec acc rule d Hacc Hd) as [[Ha Hn]|[Ha Hin]];
        rewrite Ha in *.
      * right. rewrite Hd. split; [exact Hn|].
        assert (Hlk : domains merged !! length acc = Some (Some d)).
        { rewrite Htail, Hdoms, Hd, <- app_assoc.
          rewrite lookup_app_r by (unfold domains; rewrite length_map; lia).
          unfold domains at 1. rewrite length_map, Nat.sub_diag. reflexivity. }
        unfold domains in Hlk. rewrite list_lookup_fmap in Hlk.
        cbn [shared_rule].
        destruct (merged !! length acc) as [m|] eqn:Em; [|discriminate Hlk].
        cbn in Hlk. injection Hlk as Hm. cbn [default].
        split; [apply list_elem_of_lookup; eauto|exact Hm].
      * left. rewrite Hd. split; [exact Hin|reflexivity].
    + cbn in Hj, Hp. cbn [firstn].
      destruct (Hpos j r place Hj Hp) as [[Hin Hs]|[Hn Hs]].
      * left. split; [|exact Hs].
        apply (merge_one_domains_elem acc rule acc' _ _ Hacc Hrule Hone). exact Hin.
      * right. split; [|exact Hs]. intros Hin. apply Hn.
        apply (merge_one_domains_elem acc rule acc' _ _ Hacc Hrule Hone). exact Hin.
Qed.

Lemma split_in_four {X} (s : list X) n1 n2 n3 :
  firstn n1 s ++ firstn n2 (skipn n1 s) ++ firstn n3 (skipn (n1 + n2) s)
  ++ skipn (n1 + n2 + n3) s = s.
Proof.
  replace (skipn (n1 + n2 + n3) s) with (skipn n3 (skipn (n1 + n2) s))
    by (rewrite skipn_skipn; f_equal; lia).
  rewrite firstn_skipn.
  replace (skipn (n1 + n2) s) with (skipn n2 (skipn n1 s))
    by (rewrite skipn_skipn; f_equal; lia).
  rewrite firstn_skipn. apply firstn_skipn.
Qed.

(** X25.  [_merge_rules], over lists whose rules all name a domain, does
    not raise and leaves one rule per domain in [config["rules"]]: no two
    merged rules have the same domain, every domain of a parsed rule has
    its merged rule, which has every key of every rule parsed for that
    domain (no directive is dropped, [block] and [route] included), and
    no merged rule is for a domain that was not configured.  The four
    parsed lists keep their lengths but not their rules: started with an
    empty [config["rules"]], the merge leaves the first rule parsed for a
    domain (in the order server, address, block, route) as the merged
    rule of that domain, which is the dict [config["rules"]] holds, and
    every later rule of that domain as it was parsed. *)
Theorem merge_rules_one_rule_per_domain (c : ConfigManager) :
  Forall (fun r : Rule => is_Some (r !! "domain"))
    (rules c ++ server_rule c ++ static_rule c ++ block_rule c ++ route_rule c) ->
  NoDup (domains (rules c)) ->
  exists c',
    _merge_rules c = Ok c'
    /\ NoDup (domains (rules c'))
    /\ covers (rules c ++ server_rule c ++ static_rule c ++ block_rule c ++ route_rule c)
         (rules c')
    /\ (forall x, x ∈ domains (rules c') ->
          x ∈ domains (rules c ++ server_rule c ++ static_rule c ++ block_rule c
                       ++ route_rule c))
    /\ default_upstreams c' = default_upstreams c
    /\ length (server_rule c') = length (server_rule c)
    /\ length (static_rule c') = length (static_rule c)
    /\ length (block_rule c') = length (block_rule c)
    /\ length (route_rule c') = length (route_rule c)
    /\ (rules c = [] ->
        forall j r,
          (server_rule c ++ static_rule c ++ block_rule c ++ route_rule c) !! j = Some r ->
          exists r',
            (server_rule c' ++ static_rule c' ++ block_rule c' ++ route_rule c') !! j
            = Some r'
            /\ ((r !! "domain"
                 ∈ domains (firstn j (server_rule c ++ static_rule c ++ block_rule c
                                      ++ route_rule c))
                 /\ r' = r)
                \/ ((r !! "domain"
                     ∉ domains (firstn j (server_rule c ++ static_rule c ++ block_rule c
                                          ++ route_rule c)))
                    /\ r' ∈ rules c'
                    /\ r' !! "domain" = r !! "domain"))).
Proof.
  intros Hall Hnd. apply Forall_app in Hall as [Hacc Hall].
  set (all_lists := server_rule c ++ static_rule c ++ block_rule c ++ route_rule c) in *.
  destruct (merge_all_spec _ _ Hacc Hnd Hall) as (merged & Hrun & _ & Hndm & Hcov & Hdom).
  destruct (merge_places_spec all_lists (rules c) merged Hacc Hnd Hall Hrun)
    as (Hlen & _ & Hpos).
  set (shared := zip_with (shared_rule merged) all_lists
                   (merge_places (rules c) all_lists)).
  assert (Hshared : length shared = length all_lists).
  { unfold shared. rewrite length_zip_with, Hlen. lia. }
  assert (Hfour : length all_lists
                  = length (server_rule c) + length (static_rule c)
                    + length (block_rule c) + length (route_rule c)).
  { unfold all_lists. rewrite !length_app. lia. }
  exists (mkConfigManager
            (firstn (length (server_rule c)) shared)
            (firstn (length (static_rule c)) (skipn (length (server_rule c)) shared))
            (firstn (length (block_rule c))
               (skipn (length (server_rule c) + length (static_rule c)) shared))
            (skipn (length (server_rule c) + length (static_rule c)
                    + length (block_rule c)) shared)
            (default_upstreams c) merged).
  split.
  { unfold _merge_rules. fold all_lists. rewrite Hrun. reflexivity. }
  cbn [rules server_rule static_rule block_rule route_rule default_upstreams].
  split; [exact Hndm|]. split; [exact Hcov|]. split; [exact Hdom|].
  split; [reflexivity|].
  split; [rewrite length_take; lia|].
  split; [rewrite length_take, length_drop; lia|].
  split; [rewrite length_take, length_drop; lia|].
  split; [rewrite length_drop; lia|].
  intros Hnil j r Hj. rewrite split_in_four.
  destruct (lookup_lt_is_Some_2 (merge_places (rules c) all_lists) j) as [place Hp].
  { rewrite Hlen. apply (lookup_lt_Some _ _ _ Hj). }
  exists (shared_rule merged r place). split.
  { unfold shared. rewrite lookup_zip_with, Hj, Hp. reflexivity. }
  destruct (Hpos j r place Hj Hp) as [[Hin Hs]|[Hn Hs]]; rewrite Hnil in *.
  - left. split; [exact Hin|exact Hs].
  - right. split; [exact Hn|exact Hs].
Qed.

(** The theorem at the lists of the lines [server=/x.com/1.1.1.3],
    [address=/router.my/192.168.1.1], [block=/x.com/], [block=/*.ads.net/]
    and [route=/x.com/10.0.0.1]. *)
Lemma merge_rules_one_rule_per_domain_witness :
  exists c',
    _merge_rules parsed_config = Ok c'
    /\ NoDup (domains (rules c'))
    /\ covers (rules parsed_config ++ server_rule parsed_config
               ++ static_rule parsed_config ++ block_rule parsed_config
               ++ route_rule parsed_config)
         (rules c')
    /\ (forall x, x ∈ domains (rules c') ->
          x ∈ domains (rules parsed_config ++ server_rule parsed_config
                       ++ static_rule parsed_config ++ block_rule parsed_config
                       ++ route_rule parsed_config))
    /\ default_upstreams c' = default_upstreams parsed_config
    /\ length (server_rule c') = length (server_rule parsed_config)
    /\ length (static_rule c') = length (static_rule parsed_config)
    /\ length (block_rule c') = length (block_rule parsed_config)
    /\ length (route_rule c') = length (route_rule parsed_config)
    /\ (rules parsed_config = [] ->
        forall j r,
          (server_rule parsed_config ++ static_rule parsed_config
           ++ block_rule parsed_config ++ route_rule parsed_config) !! j = Some r ->
          exists r',
            (server_rule c' ++ static_rule c' ++ block_rule c' ++ route_rule c') !! j
            = Some r'
            /\ ((r !! "domain"
                 ∈ domains (firstn j (server_rule parsed_config
                                      ++ static_rule parsed_config
                                      ++ block_rule parsed_config
                                      ++ route_rule parsed_config))
                 /\ r' = r)
                \/ ((r !! "domain"
                     ∉ domains (firstn j (server_rule parsed_config
                                          ++ static_rule parsed_config
                                          ++ block_rule parsed_config
                                          ++ route_rule parsed_config)))
                    /\ r' ∈ rules c'
                    /\ r' !! "domain" = r !! "domain"))).
Proof.
  apply (merge_rules_one_rule_per_domain parsed_config).
  - repeat (constructor; [eexists; vm_compute; reflexivity|]). constructor.
  - constructor.
Defined.

(** In that run the [server] rule of ["x.com"], the first rule parsed for
    the domain, has taken up the [block] and the [route] rule; the
    [block] rule of ["x.com"] is as it was parsed.  And of two [address]
    lines for one domain, [get_static_records] gives the first with the
    address of the second. *)
Example merge_rules_shares_dicts :
  (exists c',
     _merge_rules parsed_config = Ok c'
     /\ server_rule c'
        = [ {[ "domain" := VStr "x.com"; "upstream" := VList ["1.1.1.3"];
               "block" := VStr ""; "dbr" := VBool true; "route" := VStr "10.0.0.1" ]} ]
     /\ rules c' !! 0 = server_rule c' !! 0
     /\ block_rule c' = block_rule parsed_config
     /\ route_rule c' = route_rule parsed_config)
  /\ (exists c1 c2 c',
        _parse_address_line ConfigManager_new "/nas.my/192.168.1.2" = Ok c1
        /\ _parse_address_line c1 "/nas.my/192.168.1.3" = Ok c2
        /\ _merge_rules c2 = Ok c'
        /\ get_static_records c2
           = [ {[ "domain" := VStr "nas.my"; "address" := VStr "192.168.1.2" ]};
               {[ "domain" := VStr "nas.my"; "address" := VStr "192.168.1.3" ]} ]
        /\ get_static_records c'
           = [ {[ "domain" := VStr "nas.my"; "address" := VStr "192.168.1.3" ]};
               {[ "domain" := VStr "nas.my"; "address" := VStr "192.168.1.3" ]} ]).
Proof.
  split.
  - eexists. split; [vm_compute; reflexivity|]. repeat split; by_eval.
  - eexists _, _, _. split; [vm_compute; reflexivity|].
    split; [vm_compute; reflexivity|]. split; [vm_compute; reflexivity|].
    split; by_eval.
Qed.

(** *** From the configuration to the lookup *)

Lemma domain_of_domains (r m : Rule) :
  m !! "domain" = r !! "domain" -> domain_of m = domain_of r.
Proof. unfold domain_of. intros ->. reflexivity. Qed.

Lemma has_str_domain_domains (r m : Rule) :
  m !! "domain" = r !! "domain" -> has_str_domain m = has_str_domain r.
Proof. unfold has_str_domain. intros ->. reflexivity. Qed.

(** X26.  Start-up, from the parsed lines to the answers of [lookup]: when
    every parsed rule names its domain by a string, [_merge_rules] and
    [build_domain_trie] run without raising, and afterwards [lookup] of
    the domain of any parsed rule returns one rule that has every key of
    that parsed rule: whatever was configured for a domain, in whichever
    of the [server], [address], [block] and [route] lines, is in the rule
    the forwarder finds for it. *)
Theorem configured_directives_reach_lookup (c : ConfigManager) (fw : DNSForwarder) :
  rules c = [] ->
  Forall (fun r => has_str_domain r = true)
    (server_rule c ++ static_rule c ++ block_rule c ++ route_rule c) ->
  wf (domain_trie fw) ->
  exists c' fw',
    _merge_rules c = Ok c'
    /\ build_domain_trie (get_rules c') fw = (Ok tt, fw')
    /\ forall r,
         r ∈ server_rule c ++ static_rule c ++ block_rule c ++ route_rule c ->
         domain_of r <> EmptyString ->
         exists m,
           lookup (domain_trie fw') (domain_of r)
           = Ok (m, mkNodeRef (root (domain_trie fw)) (labels_of (domain_of r)))
           /\ m !! "domain" = r !! "domain"
           /\ forall k, has_key k r = true -> has_key k m = true.
Proof.
  intros Hnil Hall Hwf.
  set (all_lists := server_rule c ++ static_rule c ++ block_rule c ++ route_rule c) in *.
  assert (Hnamed : Forall (fun r : Rule => is_Some (r !! "domain")) all_lists).
  { eapply Forall_impl; [exact Hall|]. intros r Hr. cbn beta in Hr.
    rewrite (has_str_domain_Some r Hr). eauto. }
  destruct (merge_all_spec all_lists [] (Forall_nil_2 _) (NoDup_nil_2) Hnamed)
    as (merged & Hrun & _ & Hnd & Hcov & Hdom).
  cbn [app] in Hcov, Hdom.
  assert (Hstr : Forall (fun r => has_str_domain r = true) merged).
  { apply Forall_forall. intros m Hm.
    assert (Hin : m !! "domain" ∈ domains merged).
    { unfold domains. apply list_elem_of_fmap. eauto. }
    apply Hdom in Hin. unfold domains in Hin.
    apply list_elem_of_fmap in Hin as (r & Heq & Hr).
    rewrite (has_str_domain_domains r m Heq).
    rewrite Forall_forall in Hall. apply Hall, Hr. }
  assert (Hnd' : NoDup (map domain_of merged)).
  { apply NoDup_fmap_2_strong; [|apply (NoDup_fmap_1 (fun r : Rule => r !! "domain")); exact Hnd].
    intros x y Hx Hy Heq. pose proof (proj1 (Forall_forall _ _) Hstr) as Hstr'.
    pose proof (has_str_domain_Some x (Hstr' x Hx)) as Ex.
    pose proof (has_str_domain_Some y (Hstr' y Hy)) as Ey.
    rewrite Heq in Ex.
    assert (Hxy : x !! "domain" = y !! "domain") by congruence.
    assert (Hd : NoDup (domains merged)) by exact Hnd.
    unfold domains in Hd.
    apply list_elem_of_lookup in Hx as [i Hi]. apply list_elem_of_lookup in Hy as [j Hj].
    assert (i = j).
    { eapply NoDup_lookup; [exact Hd| |].
      - rewrite list_lookup_fmap, Hi. reflexivity.
      - rewrite list_lookup_fmap, Hj. cbn. f_equal. symmetry. exact Hxy. }
    subst j. congruence. }
  destruct (build_domain_trie_run merged fw Hstr Hwf)
    as (t' & Hbuild & _ & Hroot & _ & _ & Hnode).
  eexists _, (with_trie fw t'). split.
  { unfold _merge_rules. fold all_lists. rewrite Hnil, Hrun. reflexivity. }
  cbn [get_rules rules]. split; [exact Hbuild|].
  intros r Hr Hd.
  destruct (Hcov r Hr) as (m & Hm & Hdm & Hkeys).
  exists m. split; [|split; [exact Hdm|exact Hkeys]].
  cbn [domain_trie with_trie]. unfold lookup. rewrite Hnode, Hroot.
  rewrite <- (domain_of_domains r m Hdm) in *.
  rewrite (lookup_node_exact _ (domain_of m) m Hd); [reflexivity| |].
  - apply inserted_in; assumption.
  - apply has_str_domain_nonempty. rewrite Forall_forall in Hstr. apply Hstr, Hm.
Qed.

Lemma configured_directives_reach_lookup_witness :
  exists c' fw',
    _merge_rules parsed_config = Ok c'
    /\ build_domain_trie (get_rules c') default_forwarder = (Ok tt, fw')
    /\ forall r,
         r ∈ server_rule parsed_config ++ static_rule parsed_config
             ++ block_rule parsed_config ++ route_rule parsed_config ->
         domain_of r <> EmptyString ->
         exists m,
           lookup (domain_trie fw') (domain_of r)
           = Ok (m, mkNodeRef (root (domain_trie default_forwarder))
                      (labels_of (domain_of r)))
           /\ m !! "domain" = r !! "domain"
           /\ forall k, has_key k r = true -> has_key k m = true.
Proof.
  apply (configured_directives_reach_lookup parsed_config default_forwarder).
  - reflexivity.
  - repeat (constructor; [by_eval|]). constructor.
  - vm_compute. lia.
Defined.

(** *** The line handlers *)

Lemma append_nil s : "" +:+ s = s.
Proof. reflexivity. Qed.

Lemma append_cons x d s : String x d +:+ s = String x (d +:+ s).
Proof. reflexivity. Qed.

Lemma find_char_aux_app c d rest pos :
  contains_char c d = false ->
  find_char_aux c (d +:+ String c rest) pos = Some (pos + String.length d).
Proof.
  revert pos. induction d as [|x d IH]; intros pos Hd.
  - rewrite append_nil. cbn [find_char_aux String.length].
    rewrite Ascii.eqb_refl, Nat.add_0_r. reflexivity.
  - rewrite append_cons. cbn [find_char_aux contains_char String.length] in Hd |- *.
    apply orb_false_iff in Hd as [Hx Hd]. rewrite Hx.
    rewrite IH by exact Hd. f_equal. lia.
Qed.

Lemma find_char_aux_none c s pos :
  contains_char c s = false -> find_char_aux c s pos = None.
Proof.
  revert pos. induction s as [|x s IH]; intros pos Hs; [reflexivity|].
  cbn [find_char_aux contains_char] in Hs |- *.
  apply orb_false_iff in Hs as [Hx Hs]. rewrite Hx. apply IH, Hs.
Qed.

Lemma take_app d s : take (String.length d) (d +:+ s) = d.
Proof.
  induction d as [|x d IH]; [destruct s; reflexivity|].
  rewrite append_cons. cbn [String.length take]. rewrite IH. reflexivity.
Qed.

Lemma drop_app_S d x s : drop (S (String.length d)) (d +:+ String x s) = s.
Proof.
  induction d as [|y d IH]; [reflexivity|].
  rewrite append_cons. cbn [String.length drop]. exact IH.
Qed.

Lemma split_value_at_second_slash a d v :
  contains_char "/" d = false ->
  split_value (String a (d +:+ String "/" v)) = Some (strip d, strip v).
Proof.
  intros Hd. unfold split_value, find_from, slice.
  change (drop 1 (String a (d +:+ String "/" v))) with (d +:+ String "/" v).
  rewrite find_char_aux_app by exact Hd.
  replace (1 + String.length d - 1) with (String.length d) by lia.
  rewrite take_app.
  change (drop (S (1 + String.length d)) (String a (d +:+ String "/" v)))
    with (drop (S (String.length d)) (d +:+ String "/" v)).
  rewrite drop_app_S. reflexivity.
Qed.

Lemma split_value_no_slash a rest :
  contains_char "/" rest = false -> split_value (String a rest) = None.
Proof.
  intros H. unfold split_value, find_from.
  change (drop 1 (String a rest)) with rest.
  rewrite find_char_aux_none by exact H. reflexivity.
Qed.

(** X27.  The handlers of the [block], [route], [address] and [server]
    lines cut the value at the first ['/'] after its first character,
    which they never look at: the stripped text in between is the domain,
    the stripped rest the argument.  With a non-empty domain a [block]
    line is stored whatever follows the second slash; a [route],
    [address] or domain [server] line is stored exactly when the argument
    is an IP address, and raises otherwise.  A value with no second slash
    raises in all four.  A handler that stores a rule appends it to its
    own list and leaves the rest of the configuration alone. *)
Theorem config_value_is_cut_at_second_slash (c : ConfigManager) (a : ascii)
    (d v : string) :
  contains_char "/" d = false ->
  is_empty (strip d) = false ->
  _parse_block_line c (String a (d +:+ String "/" v))
  = Ok (mkConfigManager (server_rule c) (static_rule c)
          (block_rule c
           ++ [ {[ "domain" := VStr (strip d); "block" := VStr ""; "dbr" := VBool true ]} ])
          (route_rule c) (default_upstreams c) (rules c))
  /\ (IpAddress.ip_address_ok (strip v) = true ->
      _parse_route_line c (String a (d +:+ String "/" v))
      = Ok (mkConfigManager (server_rule c) (static_rule c) (block_rule c)
              (route_rule c
               ++ [ {[ "domain" := VStr (strip d); "route" := VStr (strip v);
                       "dbr" := VBool true ]} ])
              (default_upstreams c) (rules c))
      /\ _parse_address_line c (String a (d +:+ String "/" v))
         = Ok (mkConfigManager (server_rule c)
                 (static_rule c
                  ++ [ {[ "domain" := VStr (strip d); "address" := VStr (strip v) ]} ])
                 (block_rule c) (route_rule c) (default_upstreams c) (rules c))
      /\ _parse_domain_server c (String a (d +:+ String "/" v))
         = Ok (mkConfigManager
                 (server_rule c
                  ++ [ {[ "domain" := VStr (strip d); "upstream" := VList [strip v] ]} ])
                 (static_rule c) (block_rule c) (route_rule c) (default_upstreams c)
                 (rules c)))
  /\ (IpAddress.ip_address_ok (strip v) = false ->
      is_ok (_parse_route_line c (String a (d +:+ String "/" v))) = false
      /\ is_ok (_parse_address_line c (String a (d +:+ String "/" v))) = false
      /\ is_ok (_parse_domain_server c (String a (d +:+ String "/" v))) = false)
  /\ (forall rest,
        contains_char "/" rest = false ->
        is_ok (_parse_block_line c (String a rest)) = false
        /\ is_ok (_parse_route_line c (String a rest)) = false
        /\ is_ok (_parse_address_line c (String a rest)) = false
        /\ is_ok (_parse_domain_server c (String a rest)) = false).
Proof.
  intros Hd Hne.
  pose proof (split_value_at_second_slash a d v Hd) as Hs.
  split; [|split; [|split]].
  - unfold _parse_block_line. rewrite Hs, Hne. reflexivity.
  - intros Hip.
    assert (Hv : is_empty (strip v) = false).
    { destruct (strip v); [discriminate Hip|reflexivity]. }
    unfold _parse_route_line, _parse_address_line, _parse_domain_server.
    rewrite Hs, Hne, Hv, Hip. repeat split; reflexivity.
  - intros Hip.
    unfold _parse_route_line, _parse_address_line, _parse_domain_server.
    rewrite Hs, Hne, Hip. destruct (is_empty (strip v)); repeat split; reflexivity.
  - intros rest Hrest.
    unfold _parse_block_line, _parse_route_line, _parse_address_line,
      _parse_domain_server.
    rewrite (split_value_no_slash a rest Hrest). repeat split; reflexivity.
Qed.

(** The theorem at the line [route=x.com/10.0.0.1], whose value lacks the
    leading slash: the rule is stored for the domain [.com]. *)
Lemma config_value_is_cut_at_second_slash_witness :
  _parse_block_line ConfigManager_new (String "x" (".com" +:+ String "/" "10.0.0.1"))
  = Ok (mkConfigManager (server_rule ConfigManager_new) (static_rule ConfigManager_new)
          (block_rule ConfigManager_new
           ++ [ {[ "domain" := VStr (strip ".com"); "block" := VStr "";
                   "dbr" := VBool true ]} ])
          (route_rule ConfigManager_new) (default_upstreams ConfigManager_new)
          (rules ConfigManager_new))
  /\ (IpAddress.ip_address_ok (strip "10.0.0.1") = true ->
      _parse_route_line ConfigManager_new (String "x" (".com" +:+ String "/" "10.0.0.1"))
      = Ok (mkConfigManager (server_rule ConfigManager_new)
              (static_rule ConfigManager_new) (block_rule ConfigManager_new)
              (route_rule ConfigManager_new
               ++ [ {[ "domain" := VStr (strip ".com"); "route" := VStr (strip "10.0.0.1");
                       "dbr" := VBool true ]} ])
              (default_upstreams ConfigManager_new) (rules ConfigManager_new))
      /\ _parse_address_line ConfigManager_new
           (String "x" (".com" +:+ String "/" "10.0.0.1"))
         = Ok (mkConfigManager (server_rule ConfigManager_new)
                 (static_rule ConfigManager_new
                  ++ [ {[ "domain" := VStr (strip ".com");
                          "address" := VStr (strip "10.0.0.1") ]} ])
                 (block_rule ConfigManager_new) (route_rule ConfigManager_new)
                 (default_upstreams ConfigManager_new) (rules ConfigManager_new))
      /\ _parse_domain_server ConfigManager_new
           (String "x" (".com" +:+ String "/" "10.0.0.1"))
         = Ok (mkConfigManager
                 (server_rule ConfigManager_new
                  ++ [ {[ "domain" := VStr (strip ".com");
                          "upstream" := VList [strip "10.0.0.1"] ]} ])
                 (static_rule ConfigManager_new) (block_rule ConfigManager_new)
                 (route_rule ConfigManager_new) (default_upstreams ConfigManager_new)
                 (rules ConfigManager_new)))
  /\ (IpAddress.ip_address_ok (strip "10.0.0.1") = false ->
      is_ok (_parse_route_line ConfigManager_new
               (String "x" (".com" +:+ String "/" "10.0.0.1"))) = false
      /\ is_ok (_parse_address_line ConfigManager_new
                  (String "x" (".com" +:+ String "/" "10.0.0.1"))) = false
      /\ is_ok (_parse_domain_server ConfigManager_new
                  (String "x" (".com" +:+ String "/" "10.0.0.1"))) = false)
  /\ (forall rest,
        contains_char "/" rest = false ->
        is_ok (_parse_block_line ConfigManager_new (String "x" rest)) = false
        /\ is_ok (_parse_route_line ConfigManager_new (String "x" rest)) = false
        /\ is_ok (_parse_address_line ConfigManager_new (String "x" rest)) = false
        /\ is_ok (_parse_domain_server ConfigManager_new (String "x" rest)) = false).
Proof.
  apply (config_value_is_cut_at_second_slash ConfigManager_new "x" ".com" "10.0.0.1");
    reflexivity.
Defined.

End ConfigMore.

(* ===================================================================== *)
(** ** The policy engine's callbacks *)
(* ===================================================================== *)

Module EngineMore.
Import Dns Cache Forward PolicyEngine CacheFacts ForwardFacts ForwardMore Scenario.

Lemma on_dns_policy_ok client rule ips :
  (__on_dns_policy (Some client) rule ips).1 = Ok tt.
Proof.
  unfold __on_dns_policy.
  destruct (has_key "route" rule).
  - destruct (Trie.getitem "route" rule); reflexivity.
  - destruct (has_key "block" rule); reflexivity.
Qed.

Lemma on_dns_policy_calls client (rule : Rule) ips :
  (__on_dns_policy (Some client) rule ips).2
  = match rule !! "route" with
    | Some nexthop => [NbRoute nexthop ips]
    | None => if has_key "block" rule then [NbBlock ips] else []
    end.
Proof.
  unfold __on_dns_policy, has_key at 1, Trie.getitem.
  destruct (rule !! "route") as [nexthop|].
  - rewrite bool_decide_eq_true_2 by eauto. reflexivity.
  - rewrite bool_decide_eq_false_2 by (intros [x Hx]; discriminate Hx).
    destruct (has_key "block" rule); reflexivity.
Qed.

(** X28.  With the policy engine's callback registered and the controller
    client up, a query that is not answered from the cache, for a name
    whose rule has [dbr], makes the engine send the controller one
    request with the A addresses of the upstream's response: [route] with
    the rule's next hop when the rule has [route], else [block] when it
    has [block].  The request is sent after the response was cached; a
    name with a [block] rule had its NXDOMAIN response before the
    upstreams were asked, any other name gets the upstream's response
    after the request, and gets it whatever the controller answers or
    raises. *)
Theorem policy_engine_gets_resolved_addresses (lib : Library)
    (net : Message -> string -> UdpOutcome)
    (now now' : Z) (query : Message) (q : Question) (qs : list Question) (w : World)
    (rule : Rule) (node : Trie.NodeRef) (ups : list string) (client : NbClient) :
  question query = q :: qs ->
  q_rdtype q <> AAAA ->
  Trie.lookup (domain_trie (forwarder w)) (canonical_name (q_name q)) = Ok (rule, node) ->
  has_key "dbr" rule = true ->
  peek (cache (forwarder w)) now (canonical_name (q_name q), q_rdtype q) = None ->
  upstreams_of (forwarder w) rule = Ok ups ->
  (1 <= maxsize (cache (forwarder w)))%Z ->
  response_cb (forwarder w)
  = Some (fun rule ips => (__on_dns_policy (Some client) rule ips).1) ->
  exists resp asked,
    (forall w0, _forward_query net query ups w0
                = (Ok resp, mkWorld (forwarder w0) (events w0 ++ map UpstreamQuery asked)))
    /\ handle_request lib net now now' (Ok query) w
       = (Ok tt,
          mkWorld
            (_add_cache now' (canonical_name (q_name q)) (q_rdtype q) resp (-1)
               (forwarder w)).2
            (events w
             ++ (if has_key "block" rule then [SendTo (make_NXDOMAIN_response query)]
                 else [])
             ++ map UpstreamQuery asked
             ++ [ResponseCb rule (_extract_A_records resp)]
             ++ (if has_key "block" rule then [] else [SendTo resp])))
    /\ (__on_dns_policy (Some client) rule (_extract_A_records resp)).2
       = match rule !! "route" with
         | Some nexthop => [NbRoute nexthop (_extract_A_records resp)]
         | None => if has_key "block" rule then [NbBlock (_extract_A_records resp)]
                   else []
         end.
Proof.
  intros Hq Hty Hl Hdbr Hp Hups Hm Hcb.
  set (nx := if has_key "block" rule then [SendTo (make_NXDOMAIN_response query)] else []).
  destruct (forward_and_enforce_run net now' query (canonical_name (q_name q))
              (q_rdtype q) rule (mkWorld (forwarder w) (events w ++ nx)) ups)
    as (resp & asked & Hf & Hrun).
  { exact Hups. }
  { exact Hm. }
  { intros _. eexists. split; [exact Hcb|]. intros ips. apply on_dns_policy_ok. }
  exists resp, asked. split; [exact Hf|]. split; [|apply on_dns_policy_calls].
  start_request Hq Hl.
  rewrite bool_decide_eq_false_2 by exact Hty.
  unfold mbind at 1, M_bind at 1.
  rewrite on_forwarder_on_cache_run, (get_miss _ _ _ Hp). cbn [fst snd].
  rewrite with_cache_same, world_same.
  unfold mbind at 1, M_bind at 1. cbn [mret M_ret].
  unfold mbind at 1, M_bind at 1.
  assert (Hw : (if has_key "block" rule
                then emit (SendTo (make_NXDOMAIN_response query)) else mret tt) w
               = (Ok tt, mkWorld (forwarder w) (events w ++ nx))).
  { unfold nx. destruct (has_key "block" rule).
    - reflexivity.
    - cbn [mret M_ret]. rewrite app_nil_r, world_same. reflexivity. }
  rewrite Hw, Hrun. cbn [forwarder events]. rewrite Hdbr.
  rewrite <- !app_assoc. reflexivity.
Qed.

(** The theorem at the query for ["x.com"], which has a route rule, with
    a controller that refuses every request. *)
Lemma policy_engine_gets_resolved_addresses_witness :
  exists resp asked,
    (forall w0, _forward_query answering_net x_query ["8.8.8.8"] w0
                = (Ok resp, mkWorld (forwarder w0) (events w0 ++ map UpstreamQuery asked)))
    /\ handle_request plain_library answering_net 10 11 (Ok x_query)
         (mkWorld engine_forwarder [])
       = (Ok tt,
          mkWorld
            (_add_cache 11 (canonical_name "x.com.") A resp (-1) engine_forwarder).2
            ([] ++ (if has_key "block" route_x
                    then [SendTo (make_NXDOMAIN_response x_query)] else [])
             ++ map UpstreamQuery asked
             ++ [ResponseCb route_x (_extract_A_records resp)]
             ++ (if has_key "block" route_x then [] else [SendTo resp])))
    /\ (__on_dns_policy (Some refusing_controller) route_x (_extract_A_records resp)).2
       = match route_x !! "route" with
         | Some nexthop => [NbRoute nexthop (_extract_A_records resp)]
         | None => if has_key "block" route_x
                   then [NbBlock (_extract_A_records resp)] else []
         end.
Proof.
  apply (policy_engine_gets_resolved_addresses plain_library answering_net 10 11 x_query
           (mkQuestion "x.com." A) [] (mkWorld engine_forwarder []) route_x
           (Trie.mkNodeRef 0 ["com"; "x"]) ["8.8.8.8"] refusing_controller).
  - reflexivity.
  - discriminate.
  - by_eval.
  - by_eval.
  - by_eval.
  - by_eval.
  - vm_compute. discriminate.
  - reflexivity.
Defined.

(** X29.  The rule-update callback never raises and changes neither the
    trie nor what the cache answers.  It sends the controller nothing
    when the client is not up or when the cache has no live A entry for
    exactly the domain of the rule (the text of the rule, so a wildcard
    rule's own name).  With such an entry, the addresses are the A
    addresses of what the library reads back from the wire form of the
    cached response ([from_wire(cached[0].to_wire())]); a turn from
    [block] to [route] sends one [route] request with the new next hop and
    these addresses, and a turn from [route] to [block] one batch of two
    commands for these addresses: block the flow, remove the route. *)
Theorem rule_update_reprograms_cached_addresses (lib : Library)
    (nb_api_client : option NbClient) (now : Z) (call : Trie.UpdateCall)
    (fw : DNSForwarder) :
  exists calls fw',
    __on_rule_udpate lib nb_api_client now call fw = (Ok calls, fw')
    /\ domain_trie fw' = domain_trie fw
    /\ (forall k, peek (cache fw') now k = peek (cache fw) now k)
    /\ (nb_api_client = None -> calls = [])
    /\ ((forall d, Trie.uc_domain call = VStr d -> peek (cache fw) now (d, A) = None) ->
        calls = [])
    /\ (forall client d cached,
          nb_api_client = Some client ->
          Trie.uc_domain call = VStr d ->
          peek (cache fw) now (d, A) = Some cached ->
          let ips := _extract_A_records (from_wire_to_wire lib cached.1) in
          (Trie.uc_old_action call = "block" -> Trie.uc_new_action call = "route" ->
           calls = [NbRoute (Trie.uc_new_value call) ips])
          /\ (Trie.uc_old_action call = "route" -> Trie.uc_new_action call = "block" ->
              calls = [NbBatch [mkBatchCommand ips "block" "flow";
                                mkBatchCommand ips "remove" "route"]])).
Proof.
  unfold __on_rule_udpate.
  destruct (Trie.uc_domain call) as [d| |] eqn:Ed.
  2,3: (exists [], fw; repeat split; try reflexivity; intros; discriminate).
  unfold on_cache, zoom.
  destruct (peek (cache fw) now (d, A)) as [cached|] eqn:Ep.
  - destruct (get_hit _ _ _ _ Ep) as (c' & Hg & Hk). rewrite Hg.
    destruct nb_api_client as [client|].
    + cbn zeta.
      destruct (String.eqb "block" (Trie.uc_old_action call)
                && String.eqb "route" (Trie.uc_new_action call)) eqn:E1;
        [|destruct (contains "route" (Trie.uc_old_action call)
                    && contains "block" (Trie.uc_new_action call)) eqn:E2];
        (eexists _, (with_cache fw c'); split; [reflexivity|];
         split; [reflexivity|]; split; [exact Hk|];
         split; [discriminate|]; split;
         [intros H; specialize (H d eq_refl); congruence|]);
        intros client' d' cached' _ Hd' Hc'; injection Hd' as <-;
        rewrite Ep in Hc'; injection Hc' as <-; cbn zeta; split; intros Ho Hn;
        rewrite Ho, Hn in *; (reflexivity || discriminate).
    + exists [], (with_cache fw c'). split; [reflexivity|].
      split; [reflexivity|]. split; [exact Hk|].
      split; [reflexivity|]. split; [reflexivity|]. intros; discriminate.
  - rewrite (get_miss _ _ _ Ep). exists [], (with_cache fw (cache fw)).
    split; [reflexivity|]. split; [reflexivity|]. split; [reflexivity|].
    split; [reflexivity|]. split; [reflexivity|].
    intros client d' cached _ Hd' Hc'. injection Hd' as <-. congruence.
Qed.

End EngineMore.
